(** * Contact enrichment and Google-Maps batch extraction: a shallow embedding

    The development follows three source files of the scraper service:

    - [website_enrichment.py]  (class [WebsiteEnrichment]): the contact
      heuristics, the merge of per-page results and the final caps;
    - [scrapers/google_maps_optimized.py] (class
      [GoogleMapsScraperOptimized]): the scroll loop that discovers place
      URLs and the windowed, failure-isolating detail extraction;
    - [scrapers/website.py] ([scrape_website]): the generic scrape that
      calls the contact enrichment.

    Python values are modelled as follows.  A [str] is a [string]; the
    modelled alphabet is ASCII (code points above 127 are treated as
    ordinary non-letter, non-space characters).  A [list] is a [list].  A
    [set] of strings is the list of its distinct elements in insertion
    order, and turning it into a list goes through an iteration order that
    is a parameter of the development.  A [dict] with string keys is an
    association list in insertion order.  Network and browser calls are
    oracles; what the HTML parser returns for a page is a record. *)

From Stdlib Require Import String Ascii List ZArith Lia Bool Permutation.
From stdpp Require Import base numbers list strings sorting.
Import ListNotations.
Local Open Scope string_scope.
Local Open Scope list_scope.

(** ** Python string primitives *)

Module Py.

Definition is_upper (c : ascii) : bool :=
  let n := nat_of_ascii c in (65 <=? n)%nat && (n <=? 90)%nat.

Definition is_lower (c : ascii) : bool :=
  let n := nat_of_ascii c in (97 <=? n)%nat && (n <=? 122)%nat.

Definition is_digit (c : ascii) : bool :=
  let n := nat_of_ascii c in (48 <=? n)%nat && (n <=? 57)%nat.

(** [str.isspace] on the ASCII range: TAB..CR, FS..US and the blank. *)
Definition is_space (c : ascii) : bool :=
  let n := nat_of_ascii c in
  ((9 <=? n)%nat && (n <=? 13)%nat) || ((28 <=? n)%nat && (n <=? 32)%nat).

Definition lower_ascii (c : ascii) : ascii :=
  if is_upper c then ascii_of_nat (nat_of_ascii c + 32) else c.

(** [s.lower()], on ASCII text.  Outside ASCII [str.lower()] turns some
    characters into more than one, so it can make a string longer. *)
Fixpoint lower (s : string) : string :=
  match s with
  | EmptyString => EmptyString
  | String c s' => String (lower_ascii c) (lower s')
  end.

(** [s.startswith(p)] *)
Definition startswith (s p : string) : bool := String.prefix p s.

(** [sub in s] *)
Fixpoint contains (s sub : string) : bool :=
  String.prefix sub s ||
  match s with
  | EmptyString => false
  | String _ s' => contains s' sub
  end.

Fixpoint drop_str (n : nat) (s : string) : string :=
  match n, s with
  | O, _ => s
  | S _, EmptyString => EmptyString
  | S k, String _ s' => drop_str k s'
  end.

Fixpoint take_str (n : nat) (s : string) : string :=
  match n, s with
  | O, _ => EmptyString
  | S _, EmptyString => EmptyString
  | S k, String c s' => String c (take_str k s')
  end.

(** [s.endswith(suf)] *)
Definition endswith (s suf : string) : bool :=
  (String.length suf <=? String.length s)%nat &&
  String.eqb (drop_str (String.length s - String.length suf) s) suf.

(** [s.replace(old, new)] for a non-empty [old]: occurrences are replaced
    from the left and do not overlap.  [skip] counts the characters of the
    occurrence just replaced that are still to be passed over. *)
Fixpoint replace_go (old new : string) (skip : nat) (s : string) : string :=
  match s with
  | EmptyString => EmptyString
  | String c s' =>
      match skip with
      | S k => replace_go old new k s'
      | O =>
          if String.prefix old s
          then new +:+ replace_go old new (String.length old - 1) s'
          else String c (replace_go old new 0 s')
      end
  end.

Definition replace (s old new : string) : string := replace_go old new 0 s.

(** [s.split(sep)] for a one-character separator: the pieces between the
    separators, always at least one piece. *)
Fixpoint split_char (sep : ascii) (s : string) : list string :=
  match s with
  | EmptyString => [EmptyString]
  | String c s' =>
      if Ascii.eqb c sep then EmptyString :: split_char sep s'
      else match split_char sep s' with
           | [] => [String c EmptyString]
           | p :: ps => String c p :: ps
           end
  end.

Fixpoint lstrip_by (f : ascii -> bool) (s : string) : string :=
  match s with
  | EmptyString => EmptyString
  | String c s' => if f c then lstrip_by f s' else s
  end.

Fixpoint rstrip_by (f : ascii -> bool) (s : string) : string :=
  match s with
  | EmptyString => EmptyString
  | String c s' =>
      match rstrip_by f s' with
      | EmptyString => if f c then EmptyString else String c EmptyString
      | r => String c r
      end
  end.

(** [s.strip()] and [s.strip(chars)] *)
Definition strip (s : string) : string := rstrip_by is_space (lstrip_by is_space s).

Definition in_chars (chars : string) (c : ascii) : bool :=
  existsb (Ascii.eqb c) (list_ascii_of_string chars).

Definition strip_chars (s chars : string) : string :=
  rstrip_by (in_chars chars) (lstrip_by (in_chars chars) s).

(** [s.split()]: the maximal runs of non-space characters.  [cur] is the
    run being read, reversed. *)
Fixpoint words_go (cur : list ascii) (s : string) : list string :=
  let flush := match cur with
               | [] => []
               | _ => [string_of_list_ascii (rev cur)]
               end in
  match s with
  | EmptyString => flush
  | String c s' =>
      if is_space c then flush ++ words_go [] s' else words_go (c :: cur) s'
  end.

Definition words (s : string) : list string := words_go [] s.

(** [sep.join(l)] *)
Fixpoint join (sep : string) (l : list string) : string :=
  match l with
  | [] => EmptyString
  | [x] => x
  | x :: rest => x +:+ sep +:+ join sep rest
  end.

(** Truthiness of a [str]. *)
Definition truthy (s : string) : bool := negb (String.eqb s EmptyString).

(** [l[:n]] on a list, for any integer [n]: a negative bound counts from
    the end. *)
Definition slice_to {A} (l : list A) (n : Z) : list A :=
  if (0 <=? n)%Z then take (Z.to_nat n) l
  else take (length l - Z.to_nat (- n)) l.

End Py.

(** ** The fragment of Python's [re] that the patterns of the source use

    A backtracking matcher in continuation-passing style: alternatives are
    tried in order, repetitions are greedy and give characters back one at
    a time.  Repetition is over a character class, which is all the source
    patterns repeat; there is one capturing group at most. *)

Module Re.

Definition cls := ascii -> bool.

Inductive re : Type :=
  | Eps
  | Chr (c : cls)
  | Rep (c : cls) (lo : nat) (hi : option nat)
  | Seq (r1 r2 : re)
  | Alt (r1 r2 : re)
  | Opt (r : re)
  | Grp (r : re)
  | WordB.

(** What a successful match leaves: the unread input and group 1. *)
Definition result : Type := string * option string.

Definition cont : Type := option ascii -> string -> option string -> option result.

Definition orelse (a : option result) (b : option result) : option result :=
  match a with
  | Some r => Some r
  | None => b
  end.

Definition is_word (c : ascii) : bool :=
  Py.is_upper c || Py.is_lower c || Py.is_digit c || Ascii.eqb c "_".

Definition word_before (prev : option ascii) : bool :=
  match prev with
  | Some c => is_word c
  | None => false
  end.

Definition word_after (s : string) : bool :=
  match s with
  | String c _ => is_word c
  | EmptyString => false
  end.

(** [c{lo,hi}], greedy: read one more character while allowed, and on
    failure of the rest stop here if [lo] characters have been read. *)
Fixpoint rep_go (c : cls) (lo hi : nat) (prev : option ascii) (s : string)
    (g : option string) (k : cont) {struct s} : option result :=
  let stop := match lo with
              | O => k prev s g
              | S _ => None
              end in
  match hi, s with
  | S hi', String a s' =>
      if c a then orelse (rep_go c (pred lo) hi' (Some a) s' g k) stop else stop
  | _, _ => stop
  end.

Fixpoint run (r : re) (prev : option ascii) (s : string) (g : option string)
    (k : cont) {struct r} : option result :=
  match r with
  | Eps => k prev s g
  | Chr c =>
      match s with
      | String a s' => if c a then k (Some a) s' g else None
      | EmptyString => None
      end
  | Rep c lo hi =>
      rep_go c lo (match hi with Some h => h | None => String.length s end) prev s g k
  | Seq r1 r2 => run r1 prev s g (fun p' s' g' => run r2 p' s' g' k)
  | Alt r1 r2 => orelse (run r1 prev s g k) (run r2 prev s g k)
  | Opt r1 => orelse (run r1 prev s g k) (k prev s g)
  | Grp r1 =>
      run r1 prev s g
        (fun p' s' _ => k p' s' (Some (Py.take_str (String.length s - String.length s') s)))
  | WordB => if xorb (word_before prev) (word_after s) then k prev s g else None
  end.

(** A match starting exactly at the head of [s]. *)
Definition match_at (r : re) (prev : option ascii) (s : string) : option result :=
  run r prev s None (fun _ s' g => Some (s', g)).

Record found : Type := Found { whole : string; group1 : option string; after : string }.

Definition found_at (r : re) (prev : option ascii) (s : string) : option found :=
  match match_at r prev s with
  | Some (s', g) =>
      Some (Found (Py.take_str (String.length s - String.length s') s) g s')
  | None => None
  end.

(** [pattern.search(s)]: the leftmost match. *)
Fixpoint search_go (r : re) (prev : option ascii) (s : string) : option found :=
  match found_at r prev s with
  | Some f => Some f
  | None =>
      match s with
      | String a s' => search_go r (Some a) s'
      | EmptyString => None
      end
  end.

Definition search (r : re) (s : string) : option found := search_go r None s.

Fixpoint has_group (r : re) : bool :=
  match r with
  | Grp _ => true
  | Seq r1 r2 | Alt r1 r2 => has_group r1 || has_group r2
  | Opt r1 => has_group r1
  | _ => false
  end.

Fixpoint last_char (prev : option ascii) (s : string) : option ascii :=
  match s with
  | EmptyString => prev
  | String a s' => last_char (Some a) s'
  end.

(** What [findall] lists for one match: group 1 when the pattern has a
    group (the empty string if the group took no part), the whole match
    otherwise. *)
Definition findall_item (r : re) (f : found) : string :=
  if has_group r then match group1 f with Some x => x | None => EmptyString end
  else whole f.

(** [pattern.findall(s)]: the matches from left to right, without
    overlap.  The search resumes where the last match ended; after an empty
    match it moves on by one character.  [fuel] bounds the number of
    resumptions by the length of the input. *)
Fixpoint findall_go (fuel : nat) (r : re) (prev : option ascii) (s : string) : list string :=
  match fuel with
  | O => []
  | S fuel' =>
      let advance := match s with
                     | String a s' => findall_go fuel' r (Some a) s'
                     | EmptyString => []
                     end in
      match found_at r prev s with
      | Some f =>
          findall_item r f ::
          (if String.eqb (whole f) EmptyString then advance
           else findall_go fuel' r (last_char prev (whole f)) (after f))
      | None => advance
      end
  end.

Definition findall (r : re) (s : string) : list string :=
  findall_go (S (String.length s)) r None s.

(** Pattern builders. *)
Definition chr (x : ascii) : re := Chr (Ascii.eqb x).

Definition chr_i (x : ascii) : re :=
  Chr (fun a => Ascii.eqb (Py.lower_ascii a) (Py.lower_ascii x)).

(** A literal, case-sensitive or (under [re.I]) not. *)
Fixpoint lit_with (one : ascii -> re) (s : string) : re :=
  match s with
  | EmptyString => Eps
  | String a EmptyString => one a
  | String a s' => Seq (one a) (lit_with one s')
  end.

Definition lit : string -> re := lit_with chr.
Definition lit_i : string -> re := lit_with chr_i.

Fixpoint seq (rs : list re) : re :=
  match rs with
  | [] => Eps
  | [r] => r
  | r :: rs' => Seq r (seq rs')
  end.

Definition plus (c : cls) : re := Rep c 1 None.
Definition between (c : cls) (lo hi : nat) : re := Rep c lo (Some hi).
Definition at_least (c : cls) (lo : nat) : re := Rep c lo None.
Definition opt_chr (c : cls) : re := Rep c 0 (Some 1).

Definition alpha (c : ascii) : bool := Py.is_upper c || Py.is_lower c.
Definition alnum (c : ascii) : bool := alpha c || Py.is_digit c.
Definition alnum_or (extra : string) (c : ascii) : bool := alnum c || Py.in_chars extra c.

End Re.

(** ** Python sets and dicts *)

Module Coll.

(** A [set] of strings: its distinct elements, in the order of their first
    insertion.  Adding a present element changes nothing. *)
Definition mem (x : string) (s : list string) : bool := existsb (String.eqb x) s.

Definition set_add (x : string) (s : list string) : list string :=
  if mem x s then s else s ++ [x].

(** [set(l)] *)
Definition set_of_list (l : list string) : list string :=
  fold_left (fun s x => set_add x s) l [].

(** A [dict] from strings to strings, in insertion order. *)
Definition dict : Type := list (string * string).

Definition dict_mem (k : string) (d : dict) : bool :=
  existsb (fun kv => String.eqb k (fst kv)) d.

Fixpoint dict_get (k : string) (d : dict) : option string :=
  match d with
  | [] => None
  | (k', v) :: d' => if String.eqb k k' then Some v else dict_get k d'
  end.

(** [d[k] = v]: a present key keeps its place, a new one goes last. *)
Fixpoint dict_set (k v : string) (d : dict) : dict :=
  match d with
  | [] => [(k, v)]
  | (k', v') :: d' =>
      if String.eqb k k' then (k, v) :: d' else (k', v') :: dict_set k v d'
  end.

Definition keys (d : dict) : list string := map fst d.

(** The step of a scan that adds [g x] for every [x] that passes [P]; the
    loops of the extractors are scans of this shape. *)
Definition scan_step {A} (P : A -> bool) (g : A -> string) (s : list string) (x : A)
    : list string :=
  if P x then set_add (g x) s else s.

End Coll.

(** ** What the interpreter and the libraries contribute

    [set_iter] is the order in which a set built by inserting the given
    distinct strings in turn is iterated: [list(s)] and [for x in s].
    [urljoin] is [urllib.parse.urljoin], and [urlparse_base] the
    [scheme://netloc] prefix that [_find_contact_page] builds from
    [urlparse]; both raise [ValueError] on some malformed URLs, which is
    [None] here. *)

Record Runtime : Type := {
  set_iter : list string -> list string;
  urljoin : string -> string -> option string;
  urlparse_base : string -> option string
}.

(** The one law of set iteration: every element once. *)
Definition lawful (rt : Runtime) : Prop :=
  forall l : list string, NoDup l -> Permutation (set_iter rt l) l.

(** A result or a raised exception. *)
Inductive outcome (A : Type) : Type :=
  | Ok (a : A)
  | Raise.
Arguments Ok {A} a.
Arguments Raise {A}.

(** ** website_enrichment.py: the patterns and tables of [__init__] *)

Module Enrich.
Import Coll.

Definition digit : Re.cls := Py.is_digit.

(** [[-.\s]] *)
Definition sep : Re.cls := fun c => Py.in_chars "-." c || Py.is_space c.

(** [\b[A-Za-z0-9._%+-]+@[A-Za-z0-9.-]+\.[A-Z|a-z]{2,}\b] *)
Definition email_pattern : Re.re :=
  Re.seq [Re.WordB; Re.plus (Re.alnum_or "._%+-"); Re.chr "@";
          Re.plus (Re.alnum_or ".-"); Re.chr ".";
          Re.at_least (fun c => Re.alpha c || Ascii.eqb c "|") 2; Re.WordB].

Definition phone_patterns : list Re.re :=
  [ (* \+?\d{1,3}[-.\s]?\(?\d{1,4}\)?[-.\s]?\d{1,4}[-.\s]?\d{1,9} *)
    Re.seq [Re.opt_chr (Ascii.eqb "+"); Re.between digit 1 3; Re.opt_chr sep;
            Re.opt_chr (Ascii.eqb "("); Re.between digit 1 4;
            Re.opt_chr (Ascii.eqb ")"); Re.opt_chr sep; Re.between digit 1 4;
            Re.opt_chr sep; Re.between digit 1 9];
    (* \(?\d{3}\)?[-.\s]?\d{3}[-.\s]?\d{4} *)
    Re.seq [Re.opt_chr (Ascii.eqb "("); Re.between digit 3 3;
            Re.opt_chr (Ascii.eqb ")"); Re.opt_chr sep; Re.between digit 3 3;
            Re.opt_chr sep; Re.between digit 4 4];
    (* \d{3}[-.\s]?\d{3}[-.\s]?\d{4} *)
    Re.seq [Re.between digit 3 3; Re.opt_chr sep; Re.between digit 3 3;
            Re.opt_chr sep; Re.between digit 4 4];
    (* \+\d{1,3}\s?\d{1,14} *)
    Re.seq [Re.chr "+"; Re.between digit 1 3; Re.opt_chr Py.is_space;
            Re.between digit 1 14] ].

(** [(?:https?://)?] and [(?:www\.)?], under [re.I] *)
Definition scheme : Re.re :=
  Re.Opt (Re.seq [Re.lit_i "http"; Re.Opt (Re.chr_i "s"); Re.lit_i "://"]).

Definition www : Re.re := Re.Opt (Re.lit_i "www.").

(** The trailing [([...]+)/?]: the handle is group 1. *)
Definition handle (extra : string) : list Re.re :=
  [Re.Grp (Re.plus (Re.alnum_or extra)); Re.Opt (Re.chr "/")].

(** [self.social_patterns], in the order of the dict literal; every pattern
    is compiled with [re.I] and has exactly one capturing group. *)
Definition social_patterns : list (string * Re.re) :=
  [ ("facebook",
     Re.seq ([scheme; www; Re.Alt (Re.lit_i "facebook") (Re.lit_i "fb");
              Re.lit_i ".com/"; Re.Opt (Re.lit_i "pages/")] ++ handle "._-"));
    ("instagram",
     Re.seq ([scheme; www; Re.lit_i "instagram.com/"] ++ handle "._"));
    ("twitter",
     Re.seq ([scheme; www; Re.Alt (Re.lit_i "twitter") (Re.lit_i "x");
              Re.lit_i ".com/"] ++ handle "_"));
    ("linkedin",
     Re.seq ([scheme; www; Re.lit_i "linkedin.com/";
              Re.Alt (Re.lit_i "company") (Re.Alt (Re.lit_i "in") (Re.lit_i "profile"));
              Re.chr "/"] ++ handle "-"));
    ("youtube",
     Re.seq ([scheme; www; Re.lit_i "youtube.com/";
              Re.Alt (Re.lit_i "channel")
                (Re.Alt (Re.lit_i "c") (Re.Alt (Re.lit_i "user") (Re.chr "@")));
              Re.chr "/"] ++ handle "_-"));
    ("tiktok",
     Re.seq ([scheme; www; Re.lit_i "tiktok.com/@"] ++ handle "._"));
    ("pinterest",
     Re.seq ([scheme; www; Re.lit_i "pinterest.com/"] ++ handle "_"));
    ("snapchat",
     Re.seq ([scheme; www; Re.lit_i "snapchat.com/add/"] ++ handle "._-"));
    ("whatsapp",
     Re.seq [scheme; Re.Alt (Re.lit_i "wa.me") (Re.lit_i "api.whatsapp.com");
             Re.chr "/"; Re.Grp (Re.plus digit)]);
    ("telegram",
     Re.seq ([scheme; Re.Alt (Re.lit_i "t.me") (Re.lit_i "telegram.me");
              Re.chr "/"] ++ handle "_")) ].

Definition platforms : list string := map fst social_patterns.

Definition contact_paths : list string :=
  ["/contact"; "/contact-us"; "/contactus"; "/about"; "/about-us"; "/aboutus";
   "/get-in-touch"; "/reach-us"; "/support"; "/help"].

Definition excluded_email_patterns : list string :=
  ["example.com"; "yourdomain.com"; "domain.com"; "test.com"; "email.com";
   "noreply"; "no-reply"; "donotreply"; "privacy@"; "legal@"; "abuse@";
   "postmaster@"; "admin@"; "webmaster@"; "info@example"; "contact@example";
   "support@example"].

Definition spam_tlds : list string := [".tk"; ".ml"; ".ga"; ".cf"; ".gq"].

(** [\d{1,5}\s+\w+] and [\d{5}], the two tests of [_extract_addresses] *)
Definition street_pattern : Re.re :=
  Re.seq [Re.between digit 1 5; Re.plus Py.is_space; Re.plus Re.is_word].

Definition zip_pattern : Re.re := Re.between digit 5 5.

(** *** The validators *)

Definition _is_valid_email (email : string) : bool :=
  if negb (Py.truthy email) || (String.length email <? 5)%nat then false
  else if negb (Py.contains email "@")
          || negb (Py.contains (nth 1 (Py.split_char "@" email) "") ".")
  then false
  else if (100 <? String.length email)%nat then false
  else true.

Definition _is_business_email (email : string) : bool :=
  let email_lower := Py.lower email in
  if existsb (fun pattern => Py.contains email_lower pattern) excluded_email_patterns
  then false
  else if existsb (fun tld => Py.endswith email_lower tld) spam_tlds then false
  else true.

Definition _clean_phone (phone : string) : string :=
  Py.join " " (Py.words (Py.strip phone)).

(** *** A fetched page, as the HTML parser presents it

    [html] is [response.text()]; the other fields are what the
    [BeautifulSoup] queries of the extractors return for it. *)

Record Anchor : Type := { href : string; anchor_text : string }.

(** One [<script type="application/ld+json">]: [json.loads] raises, or the
    value holds no address object, or it holds one, whose four fields are
    given as the f-string renders them (a missing key is the empty
    string). *)
Inductive LdJson : Type :=
  | LdRaises
  | LdNoAddress
  | LdAddress (street city state zip_code : string).

Record Page : Type := {
  html : string;
  (** [soup.find_all('a', href=True)], with [get_text()] of each *)
  anchors : list Anchor;
  (** [soup.get_text()] *)
  text_content : string;
  (** [get_text()] of each footer/header/div whose class matches
      [contact|footer|header] *)
  contact_sections : list string;
  (** the same for [contact|phone|tel|call] *)
  phone_sections : list string;
  (** [get_text(separator=' ', strip=True)] of each address/div/p whose
      class matches [address|location|office] *)
  address_blocks : list string;
  ld_json : list LdJson
}.

(** *** The extractors *)

Section Extractors.
Variable rt : Runtime.

(** The candidates of one [findall], each added when it passes both
    filters. *)
Definition add_found_emails (emails : list string) (found : list string) : list string :=
  fold_left
    (fun emails email =>
       if _is_valid_email email && _is_business_email email
       then set_add (Py.lower email) emails else emails)
    found emails.

Definition add_mailto (emails : list string) (a_tag : Anchor) : list string :=
  let href := href a_tag in
  if Py.startswith href "mailto:" then
    let email := Py.strip (hd "" (Py.split_char "?" (Py.replace href "mailto:" ""))) in
    if _is_valid_email email then set_add (Py.lower email) emails else emails
  else emails.

(** The set [emails] when the four scans are over. *)
Definition collected_emails (p : Page) : list string :=
  let emails := fold_left add_mailto (anchors p) [] in
  let emails := add_found_emails emails (Re.findall email_pattern (text_content p)) in
  let emails := add_found_emails emails (Re.findall email_pattern (html p)) in
  fold_left
    (fun emails section_text =>
       add_found_emails emails (Re.findall email_pattern section_text))
    (contact_sections p) emails.

Definition _extract_emails (p : Page) : list string :=
  set_iter rt (collected_emails p).

Definition add_phone (phones : list string) (phone : string) : list string :=
  let phone := _clean_phone phone in
  if Py.truthy phone && (10 <=? String.length phone)%nat
  then set_add phone phones else phones.

Definition add_tel (phones : list string) (a_tag : Anchor) : list string :=
  let href := href a_tag in
  if Py.startswith href "tel:"
  then add_phone phones (Py.strip (Py.replace href "tel:" ""))
  else phones.

(** [for pattern in self.phone_patterns: for phone in pattern.findall(text)] *)
Definition add_text_phones (phones : list string) (text : string) : list string :=
  fold_left
    (fun phones pattern => fold_left add_phone (Re.findall pattern text) phones)
    phone_patterns phones.

Definition collected_phones (p : Page) : list string :=
  let phones := fold_left add_tel (anchors p) [] in
  let phones := add_text_phones phones (text_content p) in
  fold_left add_text_phones (phone_sections p) phones.

Definition _extract_phones (p : Page) : list string :=
  take 5 (set_iter rt (collected_phones p)).

(** The inner loop of the anchor scan.  [href] is rebound when a scheme
    is prefixed, so the later platforms of the same anchor see the
    prefixed value. *)
Definition scan_platforms (href : string) (social_links : dict) : dict :=
  snd (fold_left
         (fun (st : string * dict) (entry : string * Re.re) =>
            let '(href, social_links) := st in
            let '(platform, pattern) := entry in
            if dict_mem platform social_links then st
            else match Re.search pattern href with
                 | Some _ =>
                     let href := if Py.startswith href "http" then href
                                 else "https://" +:+ href in
                     (href, dict_set platform href social_links)
                 | None => st
                 end)
         social_patterns (href, social_links)).

(** The anchor scan; [Raise] when [urljoin] does. *)
Fixpoint scan_anchors (base_url : string) (a_tags : list Anchor)
    (social_links : dict) : outcome dict :=
  match a_tags with
  | [] => Ok social_links
  | a_tag :: rest =>
      let href := href a_tag in
      if Py.startswith href "/" then
        match urljoin rt base_url href with
        | Some href => scan_anchors base_url rest (scan_platforms href social_links)
        | None => Raise
        end
      else scan_anchors base_url rest (scan_platforms href social_links)
  end.

(** The scan of the raw markup.  Every pattern has one group, so
    [findall] lists group-1 strings and [isinstance(matches[0], str)]
    holds: [url] is [matches[0]]. *)
Definition scan_markup (html : string) (social_links : dict) : dict :=
  fold_left
    (fun social_links (entry : string * Re.re) =>
       let '(platform, pattern) := entry in
       if dict_mem platform social_links then social_links
       else match Re.findall pattern html with
            | m0 :: _ =>
                let url := m0 in
                let url := if Py.startswith url "http" then url
                           else "https://" +:+ url in
                dict_set platform url social_links
            | [] => social_links
            end)
    social_patterns social_links.

Definition _extract_social_media (p : Page) (base_url : string) : outcome dict :=
  match scan_anchors base_url (anchors p) [] with
  | Ok social_links => Ok (scan_markup (html p) social_links)
  | Raise => Raise
  end.

Definition add_block (addresses : list string) (text : string) : list string :=
  match Re.search street_pattern text, Re.search zip_pattern text with
  | Some _, Some _ => set_add (Py.take_str 200 text) addresses
  | _, _ => addresses
  end.

Definition add_ld (addresses : list string) (script : LdJson) : list string :=
  match script with
  | LdAddress street city state zip_code =>
      let full_address :=
        Py.strip_chars (street +:+ ", " +:+ city +:+ ", " +:+ state +:+ " " +:+ zip_code) ", " in
      if Py.truthy full_address then set_add full_address addresses else addresses
  | _ => addresses
  end.

Definition collected_addresses (p : Page) : list string :=
  fold_left add_ld (ld_json p) (fold_left add_block (address_blocks p) []).

Definition _extract_addresses (p : Page) : list string :=
  take 3 (set_iter rt (collected_addresses p)).

End Extractors.

(** The address a [mailto:] link carries, and the candidates of the three
    pattern scans (visible text, raw markup, contact sections). *)
Definition is_mailto (a_tag : Anchor) : bool := Py.startswith (href a_tag) "mailto:".

Definition mailto_address (a_tag : Anchor) : string :=
  Py.strip (hd "" (Py.split_char "?" (Py.replace (href a_tag) "mailto:" ""))).

Definition pattern_candidates (p : Page) : list string :=
  Re.findall email_pattern (text_content p) ++
  Re.findall email_pattern (html p) ++
  flat_map (Re.findall email_pattern) (contact_sections p).

(** *** The network

    Every request is logged.  The answers are an oracle that may depend on
    the requests made so far; the [timeout] argument of the source only
    decides when a request gives up, which the oracle covers. *)

Inductive Request : Type :=
  | GET (url : string)
  | HEAD (url : string).

(** The outcome of [session.get] followed by [response.text()]: either
    raises, or a status and the parsed body (read only under status 200). *)
Inductive GetResult : Type :=
  | GetRaises
  | GetStatus (status : nat) (page : Page).

Record Web : Type := {
  http_get : list Request -> string -> GetResult;
  (** [None]: [session.head] raises *)
  http_head : list Request -> string -> option nat
}.

Definition Net (A : Type) : Type := list Request -> A * list Request.

Definition ret {A} (a : A) : Net A := fun log => (a, log).

Definition bind {A B} (c : Net A) (k : A -> Net B) : Net B :=
  fun log => let '(a, log') := c log in k a log'.

Local Notation "'let*' x := c 'in' k" := (bind c (fun x => k))
  (at level 10, x name, c at level 100, k at level 200).

Definition get (w : Web) (url : string) : Net GetResult :=
  fun log => (http_get w log url, log ++ [GET url]).

Definition head (w : Web) (url : string) : Net (option nat) :=
  fun log => (http_head w log url, log ++ [HEAD url]).

(** *** The result dicts *)

(** The dict that [_extract_from_page] returns: these four keys, always. *)
Record PageData : Type := {
  pd_emails : list string;
  pd_phones : list string;
  pd_socialMedia : dict;
  pd_addresses : list string
}.

(** The dict that [enrich_from_website] returns. *)
Record EnrichmentData : Type := {
  emails : list string;
  phones : list string;
  socialMedia : dict;
  contactPageUrl : option string;
  addresses : list string
}.

Definition empty_page_data : PageData :=
  {| pd_emails := []; pd_phones := []; pd_socialMedia := []; pd_addresses := [] |}.

Definition empty_enrichment : EnrichmentData :=
  {| emails := []; phones := []; socialMedia := []; contactPageUrl := None;
     addresses := [] |}.

Section Crawl.
Variable rt : Runtime.
Variable w : Web.

(** The four assignments of [_extract_from_page] run in this order inside
    one [try]; when the third raises, the first two stay in [data]. *)
Definition extract_page_data (page : Page) (url : string) : PageData :=
  let emails := _extract_emails rt page in
  let phones := _extract_phones rt page in
  match _extract_social_media rt page url with
  | Ok social_links =>
      {| pd_emails := emails; pd_phones := phones; pd_socialMedia := social_links;
         pd_addresses := _extract_addresses rt page |}
  | Raise =>
      {| pd_emails := emails; pd_phones := phones; pd_socialMedia := [];
         pd_addresses := [] |}
  end.

Definition _extract_from_page (url : string) : Net PageData :=
  let* r := get w url in
  ret match r with
      | GetRaises => empty_page_data
      | GetStatus status page =>
          if (status =? 200)%nat then extract_page_data page url
          else empty_page_data
      end.

(** [for path in self.contact_paths]: the first path answering 200 to a
    [HEAD]; a raising probe is skipped. *)
Fixpoint probe_paths (base_domain : string) (paths : list string) : Net (option string) :=
  match paths with
  | [] => ret None
  | path :: rest =>
      let contact_url := base_domain +:+ path in
      let* r := head w contact_url in
      match r with
      | Some status =>
          if (status =? 200)%nat then ret (Some contact_url)
          else probe_paths base_domain rest
      | None => probe_paths base_domain rest
      end
  end.

Definition contact_keywords : list string := ["contact"; "about"; "reach"; "touch"].

(** The scan of the home page's anchors.  A raising [urljoin] is caught by
    the bare [except] around the scan, and the function returns [None]. *)
Fixpoint scan_contact_links (base_url : string) (a_tags : list Anchor) : option string :=
  match a_tags with
  | [] => None
  | a_tag :: rest =>
      let text := Py.lower (anchor_text a_tag) in
      let href := href a_tag in
      if existsb (fun keyword => Py.contains text keyword) contact_keywords then
        if Py.startswith href "/" then urljoin rt base_url href
        else if Py.startswith href "http" then Some href
        else scan_contact_links base_url rest
      else scan_contact_links base_url rest
  end.

Definition _find_contact_page (base_url : string) : Net (outcome (option string)) :=
  match urlparse_base rt base_url with
  | None => ret Raise
  | Some base_domain =>
      let* probed := probe_paths base_domain contact_paths in
      match probed with
      | Some contact_url => ret (Ok (Some contact_url))
      | None =>
          let* r := get w base_url in
          ret (Ok match r with
                  | GetStatus status page =>
                      if (status =? 200)%nat
                      then scan_contact_links base_url (anchors page)
                      else None
                  | GetRaises => None
                  end)
      end
  end.

(** [for platform, url in source['socialMedia'].items()]: a platform that
    [target] already has is left alone. *)
Definition merge_social (target source : dict) : dict :=
  fold_left
    (fun target (item : string * string) =>
       let '(platform, url) := item in
       if dict_mem platform target then target else dict_set platform url target)
    source target.

(** [source] is a page dict: it has the four list and dict keys and no
    ['contactPageUrl'] key, so the last test of the source is false and
    [target]'s contact page stays. *)
Definition _merge_data (target : EnrichmentData) (source : PageData) : EnrichmentData :=
  {| emails := emails target ++ pd_emails source;
     phones := phones target ++ pd_phones source;
     socialMedia := merge_social (socialMedia target) (pd_socialMedia source);
     contactPageUrl := contactPageUrl target;
     addresses := addresses target ++ pd_addresses source |}.

(** Step 3, "clean and deduplicate": [list(set(xs))[:n]]. *)
Definition dedup_cap (n : nat) (xs : list string) : list string :=
  take n (set_iter rt (set_of_list xs)).

Definition finalize (d : EnrichmentData) : EnrichmentData :=
  {| emails := dedup_cap 5 (emails d);
     phones := dedup_cap 5 (phones d);
     socialMedia := socialMedia d;
     contactPageUrl := contactPageUrl d;
     addresses := dedup_cap 3 (addresses d) |}.

Definition with_contact_page (d : EnrichmentData) (url : string) : EnrichmentData :=
  {| emails := emails d; phones := phones d; socialMedia := socialMedia d;
     contactPageUrl := Some url; addresses := addresses d |}.

(** [website_url] is [None] for a missing URL.  The [try] of the source
    covers steps 1 to 3; the one call in it that lets an exception out is
    [_find_contact_page], and then the accumulator is returned as it
    stands, step 3 not run. *)
Definition enrich_from_website (website_url : option string)
    (check_contact_page : bool) : Net EnrichmentData :=
  let enrichment_data := empty_enrichment in
  match website_url with
  | None => ret enrichment_data
  | Some url =>
      if negb (Py.truthy url) then ret enrichment_data
      else
        let* main_page_data := _extract_from_page url in
        let enrichment_data := _merge_data enrichment_data main_page_data in
        if check_contact_page then
          let* found := _find_contact_page url in
          match found with
          | Raise => ret enrichment_data
          | Ok None => ret (finalize enrichment_data)
          | Ok (Some contact_page_url) =>
              if Py.truthy contact_page_url then
                let enrichment_data := with_contact_page enrichment_data contact_page_url in
                let* contact_data := _extract_from_page contact_page_url in
                ret (finalize (_merge_data enrichment_data contact_data))
              else ret (finalize enrichment_data)
          end
        else ret (finalize enrichment_data)
  end.

End Crawl.

(** The cardinality caps, for a page dict and for a final result.  "One
    URL per platform": no platform key occurs twice, and every key is one
    of the ten platforms. *)
Definition one_url_per_platform (d : dict) : Prop :=
  NoDup (keys d) /\ incl (keys d) platforms.

(** What the single-page extraction bounds: everything but the e-mails. *)
Definition page_bounds (d : PageData) : Prop :=
  length (pd_phones d) <= 5 /\ length (pd_addresses d) <= 3 /\
  one_url_per_platform (pd_socialMedia d).

Definition page_caps (d : PageData) : Prop :=
  length (pd_emails d) <= 5 /\ length (pd_phones d) <= 5 /\
  length (pd_addresses d) <= 3 /\ one_url_per_platform (pd_socialMedia d).

Definition result_caps (d : EnrichmentData) : Prop :=
  length (emails d) <= 5 /\ length (phones d) <= 5 /\
  length (addresses d) <= 3 /\ one_url_per_platform (socialMedia d).

(** Step 3 of [enrich_from_website] is reached: no contact page is looked
    for, or the URL is one [urlparse] accepts. *)
Definition finalized (rt : Runtime) (website_url : option string)
    (check_contact_page : bool) : Prop :=
  check_contact_page = false \/
  forall url, website_url = Some url -> urlparse_base rt url <> None.

End Enrich.

(** ** scrapers/google_maps_optimized.py: discovery *)

Module Maps.
Import Coll.

(** What [link.get_attribute('href')] does for one element of
    [query_selector_all]: raises, or returns the attribute or [None]. *)
Inductive LinkAttr : Type :=
  | AttrRaises
  | AttrValue (v : option string).

(** The search surface for one query, iteration by iteration; an iteration
    is numbered by the value of [scroll_attempts] at its start. *)
Record Surface : Type := {
  goto_raises : bool;
  (** [None]: [query_selector_all] raises *)
  query_links : nat -> option (list LinkAttr);
  scroll_raises : nat -> bool
}.

Definition max_scroll_attempts : nat := 30.

Record LoopState : Type := {
  place_urls : list string;
  scroll_attempts : nat;
  no_new_results_count : nat
}.

(** Why the loop was left. *)
Inductive Exit : Type :=
  | AttemptsExhausted   (* scroll_attempts < max_scroll_attempts is false *)
  | OverCollected       (* len(place_urls) < max_results * 1.5 is false *)
  | Satisfied           (* len(place_urls) >= max_results *)
  | Stalled             (* no_new_results_count >= 3 *)
  | ScrollFailed        (* the scroll raised: break *)
  | QueryFailed.        (* query_selector_all raised: the outer except *)

Definition add_link (place_urls : list string) (link : LinkAttr) : list string :=
  match link with
  | AttrValue (Some href) =>
      if Py.truthy href && Py.contains href "/maps/place/"
      then set_add href place_urls else place_urls
  | AttrValue None => place_urls
  | AttrRaises => place_urls
  end.

(** [n < max_results * 1.5] for an [int] on the left and the float product
    on the right: Python compares the two exactly, and the product is exact
    below 2^51, so this is [2 n < 3 max_results]. *)
Definition below_one_and_a_half (n : nat) (max_results : Z) : bool :=
  (2 * Z.of_nat n <? 3 * max_results)%Z.

(** One pass through the [while]: its test and its body.  The pass either
    leaves the loop, for the reason given and in the state reached, or
    comes back to the test in a new state. *)
Definition loop_step (sf : Surface) (max_results : Z) (st : LoopState)
    : (Exit * LoopState) + LoopState :=
  if negb (scroll_attempts st <? max_scroll_attempts)%nat then
    inl (AttemptsExhausted, st)
  else if negb (below_one_and_a_half (length (place_urls st)) max_results) then
    inl (OverCollected, st)
  else
    let prev_count := length (place_urls st) in
    match query_links sf (scroll_attempts st) with
    | None => inl (QueryFailed, st)
    | Some links =>
        let place_urls := fold_left add_link links (place_urls st) in
        let new_count := length place_urls in
        let no_new_results_count :=
          if (new_count =? prev_count)%nat then no_new_results_count st + 1 else 0 in
        let st' := {| place_urls := place_urls;
                      scroll_attempts := scroll_attempts st;
                      no_new_results_count := no_new_results_count |} in
        if (max_results <=? Z.of_nat (length place_urls))%Z then inl (Satisfied, st')
        else if (3 <=? no_new_results_count)%nat then inl (Stalled, st')
        else if scroll_raises sf (scroll_attempts st) then inl (ScrollFailed, st')
        else
          inr {| place_urls := place_urls;
                 scroll_attempts := scroll_attempts st + 1;
                 no_new_results_count := no_new_results_count |}
    end.

(** The [while] loop.  [fuel] bounds the number of passes; [None] is for
    fuel running out, which [max_scroll_attempts + 1] rules out. *)
Fixpoint scroll_loop (fuel : nat) (sf : Surface) (max_results : Z) (st : LoopState)
    : option (Exit * LoopState) :=
  match fuel with
  | O => None
  | S fuel' =>
      match loop_step sf max_results st with
      | inl out => Some out
      | inr st' => scroll_loop fuel' sf max_results st'
      end
  end.

Definition initial_state : LoopState :=
  {| place_urls := []; scroll_attempts := 0; no_new_results_count := 0 |}.

(** The loop as [_search_places_optimized] runs it, when [goto] returned. *)
Definition discovery (sf : Surface) (max_results : Z) : option (Exit * LoopState) :=
  scroll_loop (S max_scroll_attempts) sf max_results initial_state.

(** [_search_places_optimized], for a page that opens and closes:
    [list(place_urls)], whatever happened inside the [try].  The calls
    [context.new_page()], before the [try], and [page.close()], in the
    [finally], are outside the [except]: when one of them raises the
    function returns nothing, and that case has no value here.  [None] is
    for fuel only. *)
Definition _search_places_optimized (rt : Runtime) (sf : Surface) (max_results : Z)
    : option (list string) :=
  if goto_raises sf then Some (set_iter rt [])
  else match discovery sf max_results with
       | Some (_, st) => Some (set_iter rt (place_urls st))
       | None => None
       end.

(** ** scrapers/google_maps_optimized.py: one detail page *)

(** Python's floats and the operations on them that the score uses.
    [py_float] is [float(s)], [None] for [ValueError]; [math_log n b] is
    [math.log(n, b)] on integers; [py_round x d] is [round(x, d)]. *)
Record FloatOps : Type := {
  F : Type;
  py_float : string -> option F;
  fmul : F -> F -> F;
  math_log : Z -> Z -> F;
  py_round : F -> Z -> F
}.

(** The values a record holds. *)
#[local] Set Warnings "-register-all".
Inductive value (fo : FloatOps) : Type :=
  | VNone
  | VStr (s : string)
  | VInt (n : Z)
  | VFloat (x : F fo)
  | VList (l : list (value fo))
  | VDict (d : list (string * value fo)).
#[local] Set Warnings "register-all".
Arguments VNone {fo}.
Arguments VStr {fo} s.
Arguments VInt {fo} n.
Arguments VFloat {fo} x.
Arguments VList {fo} l.
Arguments VDict {fo} d.

(** [place_data]: a dict from field names to values, in insertion order. *)
Definition record (fo : FloatOps) : Type := list (string * value fo).

Fixpoint field {fo} (k : string) (d : record fo) : option (value fo) :=
  match d with
  | [] => None
  | (k', v) :: d' => if String.eqb k k' then Some v else field k d'
  end.

Definition has_key {fo} (k : string) (d : record fo) : bool :=
  match field k d with
  | Some _ => true
  | None => false
  end.

Fixpoint put {fo} (k : string) (v : value fo) (d : record fo) : record fo :=
  match d with
  | [] => [(k, v)]
  | (k', v') :: d' =>
      if String.eqb k k' then (k, v) :: d' else (k', v') :: put k v d'
  end.

Definition opt_str {fo} (o : option string) : value fo :=
  match o with
  | Some s => VStr s
  | None => VNone
  end.

(** [x if x else None] on an optional string *)
Definition or_none (f : string -> string) (o : option string) : option string :=
  match o with
  | Some s => if Py.truthy s then Some (f s) else None
  | None => None
  end.

(** What the browser shows for one place URL.  For each selector the outer
    option says whether [query_selector] found an element, the inner one is
    the text or attribute read from it ([None] when absent). *)
Record DetailPage (fo : FloatOps) : Type := {
  new_page_raises : bool;
  detail_goto_raises : bool;
  title_elem : option (option string);
  category_elem : option (option string);
  rating_label : option (option string);
  reviews_label : option (option string);
  address_elem : option (option string);
  phone_label : option (option string);
  website_href : option (option string);
  hours_label : option (option string);
  price_elem : option (option string);
  (** what [_extract_images] and [_extract_reviews] return *)
  images : list string;
  reviews : list (record fo);
  close_raises : bool
}.
Arguments new_page_raises {fo} _.
Arguments detail_goto_raises {fo} _.
Arguments title_elem {fo} _.
Arguments category_elem {fo} _.
Arguments rating_label {fo} _.
Arguments reviews_label {fo} _.
Arguments address_elem {fo} _.
Arguments phone_label {fo} _.
Arguments website_href {fo} _.
Arguments hours_label {fo} _.
Arguments price_elem {fo} _.
Arguments images {fo} _.
Arguments reviews {fo} _.
Arguments close_raises {fo} _.

(** [([0-9.]+)], [([0-9,]+)] and [!1s([^!]+)] *)
Definition rating_pattern : Re.re :=
  Re.Grp (Re.plus (fun c => Py.is_digit c || Ascii.eqb c ".")).

Definition reviews_pattern : Re.re :=
  Re.Grp (Re.plus (fun c => Py.is_digit c || Ascii.eqb c ",")).

Definition place_id_pattern : Re.re :=
  Re.Seq (Re.lit "!1s") (Re.Grp (Re.plus (fun c => negb (Ascii.eqb c "!")))).

Definition group_1 (m : Re.found) : string :=
  match Re.group1 m with
  | Some g => g
  | None => EmptyString
  end.

Definition _extract_place_id (url : string) : option string :=
  match Re.search place_id_pattern url with
  | Some m => Some (group_1 m)
  | None => None
  end.

Fixpoint digits_value (acc : Z) (s : string) : option Z :=
  match s with
  | EmptyString => Some acc
  | String c s' =>
      if Py.is_digit c
      then digits_value (10 * acc + Z.of_nat (nat_of_ascii c - 48)) s'
      else None
  end.

(** [int(s)] on a string of digits; [None] is [ValueError]. *)
Definition py_int (s : string) : option Z :=
  if Py.truthy s then digits_value 0 s else None.

Section Detail.
Variable rt : Runtime.
Variable fo : FloatOps.
Variable web : Enrich.Web.

Definition set_text (k : string) (elem : option (option string))
    (place_data : record fo) : record fo :=
  match elem with
  | Some text => put k (opt_str text) place_data
  | None => place_data
  end.

Definition set_cleaned (k : string) (f : string -> string)
    (elem : option (option string)) (place_data : record fo) : record fo :=
  match elem with
  | Some text => put k (opt_str (or_none f text)) place_data
  | None => place_data
  end.

Definition step_rating (pg : DetailPage fo) (place_data : record fo) : outcome (record fo) :=
  match rating_label pg with
  | Some (Some rating_text) =>
      if Py.truthy rating_text then
        match Re.search rating_pattern rating_text with
        | Some m =>
            match py_float fo (group_1 m) with
            | Some x => Ok (put "rating" (VFloat x) place_data)
            | None => Raise
            end
        | None => Ok place_data
        end
      else Ok place_data
  | _ => Ok place_data
  end.

Definition step_reviews_count (pg : DetailPage fo) (place_data : record fo)
    : outcome (record fo) :=
  match reviews_label pg with
  | Some (Some reviews_text) =>
      if Py.truthy reviews_text then
        match Re.search reviews_pattern reviews_text with
        | Some m =>
            match py_int (Py.replace (group_1 m) "," "") with
            | Some n => Ok (put "reviewsCount" (VInt n) place_data)
            | None => Raise
            end
        | None => Ok place_data
        end
      else Ok place_data
  | _ => Ok place_data
  end.

Definition step_phone (pg : DetailPage fo) (place_data : record fo) : record fo :=
  match phone_label pg with
  | Some (Some phone_text) =>
      if Py.truthy phone_text then
        put "phone"
          (VStr (Py.strip (Py.replace (Py.replace phone_text "Phone: " "")
                             "Call phone number" "")))
          place_data
      else place_data
  | _ => place_data
  end.

(** The enrichment is called with [check_contact_page=False]; each task
    starts from its own empty request log. *)
Definition add_enrichment (website_url : string) (place_data : record fo) : record fo :=
  let enrichment_data :=
    fst (Enrich.enrich_from_website rt web (Some website_url) false []) in
  let place_data :=
    match Enrich.emails enrichment_data with
    | [] => place_data
    | email :: additional =>
        let place_data := put "email" (VStr email) place_data in
        match additional with
        | [] => place_data
        | _ => put "additionalEmails" (VList (map VStr additional)) place_data
        end
    end in
  match Enrich.socialMedia enrichment_data with
  | [] => place_data
  | links =>
      put "socialMedia" (VDict (map (fun kv => (fst kv, VStr (snd kv))) links)) place_data
  end.

Definition step_website (pg : DetailPage fo) (enrich_contacts : bool)
    (place_data : record fo) : record fo :=
  match website_href pg with
  | Some website_url =>
      let place_data := put "website" (opt_str website_url) place_data in
      match website_url with
      | Some u =>
          if enrich_contacts && Py.truthy u then add_enrichment u place_data
          else place_data
      | None => place_data
      end
  | None => place_data
  end.

(** "Calculate total score".  Both fields, when present, hold a float and
    an int; any other shape would be a [TypeError]. *)
Definition step_total_score (place_data : record fo) : outcome (record fo) :=
  if has_key "rating" place_data && has_key "reviewsCount" place_data then
    match field "rating" place_data, field "reviewsCount" place_data with
    | Some (VFloat rating), Some (VInt reviewsCount) =>
        Ok (put "totalScore"
              (VFloat (py_round fo (fmul fo rating (math_log fo (reviewsCount + 1) 10)) 2))
              place_data)
    | _, _ => Raise
    end
  else Ok place_data.

(** The [try] block, from [page.goto] to [return place_data]. *)
Definition detail_body (pg : DetailPage fo) (url : string)
    (extract_reviews extract_images enrich_contacts : bool) : outcome (record fo) :=
  if detail_goto_raises pg then Raise
  else
    let place_data : record fo :=
      [("url", VStr url); ("placeId", opt_str (_extract_place_id url))] in
    let place_data := set_text "title" (title_elem pg) place_data in
    let place_data := set_text "category" (category_elem pg) place_data in
    match step_rating pg place_data with
    | Raise => Raise
    | Ok place_data =>
        match step_reviews_count pg place_data with
        | Raise => Raise
        | Ok place_data =>
            let place_data := set_cleaned "address" Py.strip (address_elem pg) place_data in
            let place_data := step_phone pg place_data in
            let place_data := step_website pg enrich_contacts place_data in
            let place_data :=
              set_cleaned "openingHours" (fun s => s) (hours_label pg) place_data in
            let place_data := set_cleaned "priceLevel" Py.strip (price_elem pg) place_data in
            let place_data :=
              if extract_images then put "images" (VList (map VStr (images pg))) place_data
              else place_data in
            let place_data :=
              if extract_reviews then put "reviews" (VList (map VDict (reviews pg))) place_data
              else place_data in
            step_total_score place_data
        end
    end.

(** What a task hands to [gather]: the dict it returned, the [None] it
    returned, or the exception it raised. *)
Inductive TaskResult : Type :=
  | RDict (d : record fo)
  | RNone
  | RExc.

(** [new_page] is outside the [try]; [except Exception] turns a failure of
    the body into [None]; [page.close()] runs in [finally] and, raising,
    replaces the result. *)
Definition _extract_place_details_optimized (pg : DetailPage fo) (url : string)
    (extract_reviews extract_images enrich_contacts : bool) : TaskResult :=
  if new_page_raises pg then RExc
  else
    let returned :=
      match detail_body pg url extract_reviews extract_images enrich_contacts with
      | Ok place_data => RDict place_data
      | Raise => RNone
      end in
    if close_raises pg then RExc else returned.

End Detail.
Arguments RDict {fo} d.
Arguments RNone {fo}.
Arguments RExc {fo}.

(** ** scrapers/google_maps_optimized.py: windows and [scrape] *)

(** [range(0, stop, step)] *)
Definition py_range (stop step : nat) : list nat :=
  map (fun k => k * step) (seq 0 ((stop + step - 1) / step)).

(** [asyncio.gather] with [return_exceptions=True].  A task is the time
    at which it settles and what it settles with.  Each child future is
    pending ([None]) until its task settles; the futures settle in the order
    of their times; when all have, the results are read off the children in
    the order of the arguments.  A future still pending at that point would
    leave [gather] without a result, which is [None]. *)
Definition finish_of {A} (tasks : list (nat * A)) (i : nat) : nat :=
  match tasks !! i with
  | Some t => fst t
  | None => 0
  end.

Definition settles_before {A} (tasks : list (nat * A)) (i j : nat) : Prop :=
  finish_of tasks i <= finish_of tasks j.

#[local] Instance settles_before_dec {A} (tasks : list (nat * A)) (i j : nat)
  : Decision (settles_before tasks i j) :=
  Nat.le_dec (finish_of tasks i) (finish_of tasks j).

Definition completion_order {A} (tasks : list (nat * A)) : list nat :=
  merge_sort (settles_before tasks) (seq 0 (length tasks)).

Definition settle {A} (tasks : list (nat * A)) (futures : list (option A)) (i : nat)
    : list (option A) :=
  match tasks !! i with
  | Some t => <[i := Some (snd t)]> futures
  | None => futures
  end.

Definition gather {A} (tasks : list (nat * A)) : option (list A) :=
  mapM id (fold_left (settle tasks) (completion_order tasks)
             (replicate (length tasks) None)).

Section Batch.
Variable rt : Runtime.
Variable fo : FloatOps.
Variable web : Enrich.Web.

(** The browser: the search surface of a search URL, the detail page of a
    place URL, and the time the detail task of a place URL takes. *)
Record Browser : Type := {
  surface : string -> Surface;
  detail : string -> DetailPage fo;
  finish_time : string -> nat
}.

(** The options [scrape] reads from [config]. *)
Record Config : Type := {
  search_terms : list string;
  location : string;
  max_results : Z;
  extract_reviews : bool;
  extract_images : bool;
  enrich_contacts : bool
}.

Definition base_url : string := "https://www.google.com/maps".

Definition batch_size : nat := 15.

(** [isinstance(result, dict)] *)
Definition as_dict (r : TaskResult fo) : option (record fo) :=
  match r with
  | RDict d => Some d
  | RNone => None
  | RExc => None
  end.

Definition task (br : Browser) (cfg : Config) (place_url : string) : nat * TaskResult fo :=
  (finish_time br place_url,
   _extract_place_details_optimized rt fo web (detail br place_url) place_url
     (extract_reviews cfg) (extract_images cfg) (enrich_contacts cfg)).

(** What the task of a place URL settles with, and the record it
    contributes to the results, if any. *)
Definition outcome_of (br : Browser) (cfg : Config) (place_url : string) : TaskResult fo :=
  snd (task br cfg place_url).

Definition record_of (br : Browser) (cfg : Config) (place_url : string)
    : option (record fo) :=
  as_dict (outcome_of br cfg place_url).

Definition succeeds (br : Browser) (cfg : Config) (place_url : string) : bool :=
  match record_of br cfg place_url with
  | Some _ => true
  | None => false
  end.

(** The same browser with other settling times. *)
Definition with_finish_time (br : Browser) (times : string -> nat) : Browser :=
  {| surface := surface br; detail := detail br; finish_time := times |}.

(** One window: the tasks of [batch], gathered, and the dicts among the
    results in the order [gather] lists them. *)
Definition run_window (br : Browser) (cfg : Config) (batch : list string)
    : option (list (record fo)) :=
  match gather (map (task br cfg) batch) with
  | Some batch_results => Some (omap as_dict batch_results)
  | None => None
  end.

(** [for i in range(0, len(places_to_process), batch_size)] *)
Fixpoint run_windows (br : Browser) (cfg : Config) (places_to_process : list string)
    (starts : list nat) (all_results : list (record fo)) : option (list (record fo)) :=
  match starts with
  | [] => Some all_results
  | i :: rest =>
      let batch := take batch_size (drop i places_to_process) in
      match run_window br cfg batch with
      | Some dicts => run_windows br cfg places_to_process rest (all_results ++ dicts)
      | None => None
      end
  end.

(** The batch extraction of one search term, from the discovered list. *)
Definition extract_all (br : Browser) (cfg : Config) (places : list string)
    (all_results : list (record fo)) : option (list (record fo)) :=
  let places_to_process := Py.slice_to places (max_results cfg) in
  run_windows br cfg places_to_process
    (py_range (length places_to_process) batch_size) all_results.

Definition search_url (query : string) : string :=
  base_url +:+ "/search/" +:+ Py.replace query " " "+".

Definition scrape_term (br : Browser) (cfg : Config) (term : string)
    (all_results : list (record fo)) : option (list (record fo)) :=
  let search_query :=
    if Py.truthy (location cfg) then term +:+ " " +:+ location cfg else term in
  match _search_places_optimized rt (surface br (search_url search_query))
          (max_results cfg) with
  | Some places => extract_all br cfg places all_results
  | None => None
  end.

(** [scrape], for a context and search pages that open and close without
    failure, and progress callbacks that return.  When one of these raises
    the source returns nothing, and that case has no value here: [None] is
    for fuel only, and what is proved of [scrape] is about the list it
    returns. *)
Definition scrape (br : Browser) (cfg : Config) : option (list (record fo)) :=
  fold_left
    (fun acc term =>
       match acc with
       | Some all_results => scrape_term br cfg term all_results
       | None => None
       end)
    (search_terms cfg) (Some []).

End Batch.
Arguments surface {fo} _ _.
Arguments detail {fo} _ _.
Arguments finish_time {fo} _ _.

(** The state in which the loop comes to its test for the [k]-th time
    (counting from 0), if it does. *)
Fixpoint state_at (sf : Surface) (max_results : Z) (k : nat) : option LoopState :=
  match k with
  | O => Some initial_state
  | S k' =>
      match state_at sf max_results k' with
      | Some st =>
          match loop_step sf max_results st with
          | inr st' => Some st'
          | inl _ => None
          end
      | None => None
      end
  end.

(** The links shown in the pass numbered [i] add nothing to [urls]. *)
Definition adds_nothing (sf : Surface) (i : nat) (urls : list string) : Prop :=
  forall links, query_links sf i = Some links -> fold_left add_link links urls = urls.

End Maps.

(** ** Sample inputs *)

Module Samples.

(** A runtime whose sets iterate in insertion order.  Its [urljoin] and
    [urlparse_base] are right for the sample URLs, which are of the form
    [scheme://host] with root-relative links. *)
Definition insertion_order : Runtime :=
  {| set_iter := fun l => l;
     urljoin := fun base_url path => Some (base_url +:+ path);
     urlparse_base := fun url => Some url |}.

(** A page whose visible text shows six business addresses. *)
Definition six_emails_page : Enrich.Page :=
  {| Enrich.html := "<p>a1@acme.io a2@acme.io a3@acme.io a4@acme.io a5@acme.io a6@acme.io</p>";
     Enrich.anchors := [];
     Enrich.text_content := "a1@acme.io a2@acme.io a3@acme.io a4@acme.io a5@acme.io a6@acme.io";
     Enrich.contact_sections := [];
     Enrich.phone_sections := [];
     Enrich.address_blocks := [];
     Enrich.ld_json := [] |}.

(** A page that names its Facebook profile in a script only. *)
Definition script_link_page : Enrich.Page :=
  {| Enrich.html := "<script>var fb = 'https://www.facebook.com/acme';</script>";
     Enrich.anchors := [];
     Enrich.text_content := "";
     Enrich.contact_sections := [];
     Enrich.phone_sections := [];
     Enrich.address_blocks := [];
     Enrich.ld_json := [] |}.

(** A page with two Facebook anchors and a relative link. *)
Definition two_anchor_page : Enrich.Page :=
  {| Enrich.html := "<a href='facebook.com/first'>f</a><a href='https://facebook.com/second'>s</a>";
     Enrich.anchors :=
       [ {| Enrich.href := "facebook.com/first"; Enrich.anchor_text := "f" |};
         {| Enrich.href := "https://facebook.com/second"; Enrich.anchor_text := "s" |} ];
     Enrich.text_content := "fs";
     Enrich.contact_sections := [];
     Enrich.phone_sections := [];
     Enrich.address_blocks := [];
     Enrich.ld_json := [] |}.

(** A web on which every [GET] answers 200 with the given page, and every
    [HEAD] answers 404. *)
Definition serving (page : Enrich.Page) : Enrich.Web :=
  {| Enrich.http_get := fun _ _ => Enrich.GetStatus 200 page;
     Enrich.http_head := fun _ _ => Some 404 |}.

(** A search surface that shows the same links in every pass and scrolls
    without failure. *)
Definition showing (hrefs : list string) : Maps.Surface :=
  {| Maps.goto_raises := false;
     Maps.query_links := fun _ => Some (map (fun h => Maps.AttrValue (Some h)) hrefs);
     Maps.scroll_raises := fun _ => false |}.

Definition two_places : list string :=
  ["https://www.google.com/maps/place/A"; "https://www.google.com/maps/place/B"].

Definition ten_places : list string :=
  map (fun c => "https://www.google.com/maps/place/" +:+ c)
    ["A"; "B"; "C"; "D"; "E"; "F"; "G"; "H"; "I"; "J"].

(** A float type of one value: the sample pages carry no rating. *)
Definition no_scores : Maps.FloatOps :=
  {| Maps.F := unit;
     Maps.py_float := fun _ => Some tt;
     Maps.fmul := fun _ _ => tt;
     Maps.math_log := fun _ _ => tt;
     Maps.py_round := fun _ _ => tt |}.

(** A detail page that shows a title and nothing else. *)
Definition titled (title : string) : Maps.DetailPage no_scores :=
  {| Maps.new_page_raises := false;
     Maps.detail_goto_raises := false;
     Maps.title_elem := Some (Some title);
     Maps.category_elem := None;
     Maps.rating_label := None;
     Maps.reviews_label := None;
     Maps.address_elem := None;
     Maps.phone_label := None;
     Maps.website_href := None;
     Maps.hours_label := None;
     Maps.price_elem := None;
     Maps.images := [];
     Maps.reviews := [];
     Maps.close_raises := false |}.

(** The same page when [page.goto] times out. *)
Definition timing_out : Maps.DetailPage no_scores :=
  {| Maps.new_page_raises := false;
     Maps.detail_goto_raises := true;
     Maps.title_elem := None;
     Maps.category_elem := None;
     Maps.rating_label := None;
     Maps.reviews_label := None;
     Maps.address_elem := None;
     Maps.phone_label := None;
     Maps.website_href := None;
     Maps.hours_label := None;
     Maps.price_elem := None;
     Maps.images := [];
     Maps.reviews := [];
     Maps.close_raises := false |}.

Definition five_places : list string := take 5 ten_places.

(** A browser on which the detail page of place C times out, every other
    place shows a title, and a place settles the sooner the longer its URL
    and the later its last letter: the tasks of a window complete in the
    reverse of the order in which they were started. *)
Definition third_fails : Maps.Browser no_scores :=
  {| Maps.surface := fun _ => showing ten_places;
     Maps.detail := fun url =>
       if String.eqb url "https://www.google.com/maps/place/C" then timing_out
       else titled "Cafe";
     Maps.finish_time := fun url =>
       200 - match Re.last_char None url with
             | Some c => nat_of_ascii c
             | None => 0
             end |}.

Definition plain_config (max_results : Z) : Maps.Config :=
  {| Maps.search_terms := ["cafe"];
     Maps.location := "";
     Maps.max_results := max_results;
     Maps.extract_reviews := false;
     Maps.extract_images := false;
     Maps.enrich_contacts := false |}.

Definition place_record (url : string) : Maps.record no_scores :=
  [("url", Maps.VStr url); ("placeId", Maps.VNone); ("title", Maps.VStr "Cafe")].

End Samples.

(** ** scrapers/google_maps_optimized.py: images and reviews *)

Module Panels.
Import Coll Maps.

(** A button looked up with [query_selector] and clicked: the lookup
    raises, finds nothing, or finds the button, whose [click] raises or
    not. *)
Inductive Button : Type :=
  | ButtonRaises
  | ButtonAbsent
  | ButtonFound (click_raises : bool).

(** What the page shows when the photo button is pressed.  [None] for
    [img_elements]: [query_selector_all] raises.  The key press after the
    loop may raise as well; by then [images] is complete and the [except]
    falls through to [return images]. *)
Record PhotoPanel : Type := {
  photos_button : Button;
  img_elements : option (list LinkAttr)
}.

(** [for img in img_elements[:10]], up to the first [get_attribute] that
    raises: the [except] around the whole body falls through to
    [return images], with what was appended so far. *)
Fixpoint collect_images (img_elements : list LinkAttr) (images : list string)
    : list string :=
  match img_elements with
  | [] => images
  | AttrRaises :: _ => images
  | AttrValue None :: rest => collect_images rest images
  | AttrValue (Some src) :: rest =>
      collect_images rest
        (if Py.truthy src && negb (mem src images) then images ++ [src] else images)
  end.

Definition _extract_images (panel : PhotoPanel) : list string :=
  match photos_button panel with
  | ButtonFound false =>
      match img_elements panel with
      | Some img_elements => collect_images (take 10 img_elements) []
      | None => []
      end
  | _ => []
  end.

(** One lookup inside a review element, with the read that follows it:
    the lookup or the read raises, nothing is found, or the text or
    attribute is read ([None] when absent). *)
Inductive Probe : Type :=
  | ProbeRaises
  | ProbeAbsent
  | ProbeValue (v : option string).

Record ReviewElem : Type := {
  name_probe : Probe;
  rating_probe : Probe;
  text_probe : Probe;
  date_probe : Probe
}.

(** What the page shows when the reviews button is pressed:
    [panel_scroll_raises i] for the [i]-th [page.evaluate] of the two, and
    [None] for [review_elements] when [query_selector_all] raises. *)
Record ReviewPanel : Type := {
  reviews_button : Button;
  panel_scroll_raises : nat -> bool;
  review_elements : option (list ReviewElem)
}.

(** [([0-9])] *)
Definition one_digit_pattern : Re.re := Re.Grp (Re.Chr Py.is_digit).

Section Reviews.
Variable fo : FloatOps.

Definition put_probe (k : string) (p : Probe) (review_data : record fo)
    : outcome (record fo) :=
  match p with
  | ProbeRaises => Raise
  | ProbeAbsent => Ok review_data
  | ProbeValue v => Ok (put k (opt_str v) review_data)
  end.

Definition put_rating (p : Probe) (review_data : record fo) : outcome (record fo) :=
  match p with
  | ProbeRaises => Raise
  | ProbeAbsent => Ok review_data
  | ProbeValue None => Ok review_data
  | ProbeValue (Some rating_text) =>
      if Py.truthy rating_text then
        match Re.search one_digit_pattern rating_text with
        | Some m =>
            match py_int (group_1 m) with
            | Some n => Ok (put "rating" (VInt n) review_data)
            | None => Raise
            end
        | None => Ok review_data
        end
      else Ok review_data
  end.

(** The body of the inner [try] for one element: the dict it appends,
    or [None] when it appends nothing (something raised, and the bare
    [except] goes on to the next element, or the dict stayed empty). *)
Definition review_of (elem : ReviewElem) : option (record fo) :=
  match put_probe "reviewerName" (name_probe elem) [] with
  | Raise => None
  | Ok review_data =>
      match put_rating (rating_probe elem) review_data with
      | Raise => None
      | Ok review_data =>
          match put_probe "text" (text_probe elem) review_data with
          | Raise => None
          | Ok review_data =>
              match put_probe "date" (date_probe elem) review_data with
              | Raise => None
              | Ok review_data =>
                  match review_data with
                  | [] => None
                  | _ => Some review_data
                  end
              end
          end
      end
  end.

Definition _extract_reviews (panel : ReviewPanel) (max_reviews : Z) : list (record fo) :=
  match reviews_button panel with
  | ButtonFound false =>
      if panel_scroll_raises panel 0 || panel_scroll_raises panel 1 then []
      else
        match review_elements panel with
        | Some review_elements =>
            omap review_of (Py.slice_to review_elements max_reviews)
        | None => []
        end
  | _ => []
  end.

End Reviews.

End Panels.

(** ** scrapers/website.py *)

Module Website.
Import Coll Enrich.

(** The parsed response, as [scrape_website] reads it. *)
Record Document : Type := {
  (** [soup.title.string if soup.title else None] *)
  doc_title : option string;
  (** [soup.get_text(separator=' ', strip=True)] *)
  doc_text : string;
  (** [a.get('href')] for each [a] with an [href] *)
  doc_links : list string;
  (** [img.get('src')] for each [img] with a [src] *)
  doc_images : list string;
  (** [soup.select(selector)]: raises, with the message of the exception,
      or lists [elem.text] of the elements selected *)
  doc_select : string -> string + list string
}.

(** [requests.get] followed by [raise_for_status] and the parse: an
    exception, with its message, or the document. *)
Inductive Fetched : Type :=
  | FetchRaises (message : string)
  | FetchOk (doc : Document).

(** The values of the dict returned. *)
Inductive value : Type :=
  | VNone
  | VStr (s : string)
  | VList (l : list string)
  | VTable (t : list (string * list string))
  | VLinks (d : dict).

(** The dict returned, in insertion order. *)
Definition record : Type := list (string * value).

Fixpoint field (k : string) (d : record) : option value :=
  match d with
  | [] => None
  | (k', v) :: d' => if String.eqb k k' then Some v else field k d'
  end.

(** [d[k] = v] *)
Fixpoint put (k : string) (v : value) (d : record) : record :=
  match d with
  | [] => [(k, v)]
  | (k', v') :: d' =>
      if String.eqb k k' then (k, v) :: d' else (k', v') :: put k v d'
  end.

Fixpoint table_put (k : string) (v : list string) (t : list (string * list string))
    : list (string * list string) :=
  match t with
  | [] => [(k, v)]
  | (k', v') :: t' =>
      if String.eqb k k' then (k, v) :: t' else (k', v') :: table_put k v t'
  end.

Definition opt_str (o : option string) : value :=
  match o with
  | Some s => VStr s
  | None => VNone
  end.

(** [input_data]: the three keys read.  [url] is [None] when the key is
    missing (the default, the empty string, is as falsy); a missing
    [selectors] is the empty dict and a missing [extractContacts] is
    [True]. *)
Record Input : Type := {
  url : option string;
  selectors : list (string * string);
  extractContacts : bool
}.

(** [for key, selector in selectors.items()]: the table built, or the
    message of the exception that [soup.select] raised. *)
Fixpoint custom_data (doc : Document) (selectors : list (string * string))
    (table : list (string * list string)) : string + list (string * list string) :=
  match selectors with
  | [] => inr table
  | (key, selector) :: rest =>
      match doc_select doc selector with
      | inl message => inl message
      | inr elements => custom_data doc rest (table_put key (map Py.strip elements) table)
      end
  end.

Section Scrape.
Variable rt : Runtime.
(** the answers to [requests.get], which may depend on the requests made
    so far *)
Variable fetch : list Request -> string -> Fetched.
(** the answers to the requests of the enrichment *)
Variable w : Web.
(** [time.strftime('%Y-%m-%dT%H:%M:%SZ')] *)
Variable scraped_at : string.
(** The two [print] calls of the contact block: the one that closes the
    [try], by the data it counts, and the one of its [except] handler, by
    the message it reports.  [None]: the call returns; otherwise it raises
    (a standard output that cannot encode the text, or is closed), with
    the message given. *)
Variable print_enriched : EnrichmentData -> option string.
Variable print_warning : string -> option string.

Definition failed (message url : string) : record :=
  [("error", VStr ("Scraping failed: " +:+ message)); ("url", VStr url)].

(** The fields set from [enrichment_data], each when it is truthy. *)
Definition add_contacts (enrichment_data : EnrichmentData) (result : record) : record :=
  let result :=
    match emails enrichment_data with
    | [] => result
    | l => put "emails" (VList l) result
    end in
  let result :=
    match phones enrichment_data with
    | [] => result
    | l => put "phones" (VList l) result
    end in
  let result :=
    match socialMedia enrichment_data with
    | [] => result
    | d => put "socialMedia" (VLinks d) result
    end in
  let result :=
    match contactPageUrl enrichment_data with
    | Some contact_url =>
        if Py.truthy contact_url then put "contactPageUrl" (VStr contact_url) result
        else result
    | None => result
    end in
  match addresses enrichment_data with
  | [] => result
  | l => put "addresses" (VList l) result
  end.

(** [scrape_website], with the log of the requests made.  The enrichment
    runs on a loop of its own and lets no exception out.  The [print]
    that closes the contact block runs after the contact fields are set;
    when it raises, the handler prints in its turn, and an exception of
    that second [print] is caught by the outer [except], which returns the
    error dict. *)
Definition scrape_website (input_data : Input) : Net record :=
  fun log =>
    match url input_data with
    | None => ([("error", VStr "URL is required")], log)
    | Some url =>
        if negb (Py.truthy url) then ([("error", VStr "URL is required")], log)
        else
          match fetch log url with
          | FetchRaises message => (failed message url, log ++ [GET url])
          | FetchOk doc =>
              let result : record :=
                [("url", VStr url); ("title", opt_str (doc_title doc));
                 ("scrapedAt", VStr scraped_at)] in
              let result := put "text" (VStr (Py.take_str 5000 (doc_text doc))) result in
              let result := put "links" (VList (take 50 (doc_links doc))) result in
              let result := put "images" (VList (take 20 (doc_images doc))) result in
              let custom :=
                match selectors input_data with
                | [] => inr result
                | selectors =>
                    match custom_data doc selectors [] with
                    | inl message => inl message
                    | inr table => inr (put "customData" (VTable table) result)
                    end
                end in
              match custom with
              | inl message => (failed message url, log ++ [GET url])
              | inr result =>
                  if extractContacts input_data then
                    let '(enrichment_data, log) :=
                      enrich_from_website rt w (Some url) true (log ++ [GET url]) in
                    let result := add_contacts enrichment_data result in
                    match print_enriched enrichment_data with
                    | None => (result, log)
                    | Some message =>
                        match print_warning message with
                        | None => (result, log)
                        | Some message => (failed message url, log)
                        end
                    end
                  else (result, log ++ [GET url])
              end
          end
    end.

End Scrape.

End Website.

(** ** Further sample inputs *)

Module Scenes.

(** A contact page with a [tel:] link, a phone number in its text, an
    address block and an address in its structured data. *)
Definition contact_details_page : Enrich.Page :=
  {| Enrich.html := "<a href='tel:+1 555  123 4567'>call</a>";
     Enrich.anchors :=
       [ {| Enrich.href := "tel:+1 555  123 4567"; Enrich.anchor_text := "call" |} ];
     Enrich.text_content := "call 555-123-4567 today";
     Enrich.contact_sections := [];
     Enrich.phone_sections := [];
     Enrich.address_blocks := ["12 Main Street Springfield 62701"];
     Enrich.ld_json := [Enrich.LdAddress "1 High St" "Leeds" "" ""] |}.

(** A home page that links to its contact page. *)
Definition linking_page : Enrich.Page :=
  {| Enrich.html := "<a href='/team'>About us</a>";
     Enrich.anchors := [ {| Enrich.href := "/team"; Enrich.anchor_text := "About us" |} ];
     Enrich.text_content := "About us";
     Enrich.contact_sections := [];
     Enrich.phone_sections := [];
     Enrich.address_blocks := [];
     Enrich.ld_json := [] |}.

(** A web on which no request is answered. *)
Definition unreachable : Enrich.Web :=
  {| Enrich.http_get := fun _ _ => Enrich.GetRaises;
     Enrich.http_head := fun _ _ => None |}.

(** A web on which [HEAD] answers 200 for one URL and 404 for the others,
    and every [GET] answers 200 with the given page. *)
Definition with_page_at (contact_url : string) (page : Enrich.Page) : Enrich.Web :=
  {| Enrich.http_get := fun _ _ => Enrich.GetStatus 200 page;
     Enrich.http_head := fun _ url =>
       if String.eqb url contact_url then Some 200 else Some 404 |}.

(** A detail page that shows a rating, a review count and a website. *)
Definition rated : Maps.DetailPage Samples.no_scores :=
  {| Maps.new_page_raises := false;
     Maps.detail_goto_raises := false;
     Maps.title_elem := Some (Some "Cafe");
     Maps.category_elem := None;
     Maps.rating_label := Some (Some "4.5 stars");
     Maps.reviews_label := Some (Some "1,234 reviews");
     Maps.address_elem := None;
     Maps.phone_label := None;
     Maps.website_href := Some (Some "https://acme.io");
     Maps.hours_label := None;
     Maps.price_elem := None;
     Maps.images := [];
     Maps.reviews := [];
     Maps.close_raises := false |}.

(** The record of that page under a web that serves the six-address page,
    with contact enrichment. *)
Definition rated_record : Maps.record Samples.no_scores :=
  [("url", Maps.VStr "https://www.google.com/maps/place/A");
   ("placeId", Maps.VNone);
   ("title", Maps.VStr "Cafe");
   ("rating", @Maps.VFloat Samples.no_scores tt);
   ("reviewsCount", Maps.VInt 1234);
   ("website", Maps.VStr "https://acme.io");
   ("email", Maps.VStr "a1@acme.io");
   ("additionalEmails",
    Maps.VList [Maps.VStr "a2@acme.io"; Maps.VStr "a3@acme.io";
                Maps.VStr "a4@acme.io"; Maps.VStr "a5@acme.io"]);
   ("totalScore", @Maps.VFloat Samples.no_scores tt)].

(** A photo panel whose fourth image fails to give its source. *)
Definition failing_photos : Panels.PhotoPanel :=
  {| Panels.photos_button := Panels.ButtonFound false;
     Panels.img_elements :=
       Some [ Maps.AttrValue (Some "https://lh3.googleusercontent.com/a");
              Maps.AttrValue (Some "https://lh3.googleusercontent.com/a");
              Maps.AttrValue None;
              Maps.AttrRaises;
              Maps.AttrValue (Some "https://lh3.googleusercontent.com/b") ] |}.

(** A review panel with a full review, an element whose text cannot be
    read, and an element that shows nothing. *)
Definition three_reviews : Panels.ReviewPanel :=
  {| Panels.reviews_button := Panels.ButtonFound false;
     Panels.panel_scroll_raises := fun _ => false;
     Panels.review_elements :=
       Some [ {| Panels.name_probe := Panels.ProbeValue (Some "Ada");
                 Panels.rating_probe := Panels.ProbeValue (Some "5 stars");
                 Panels.text_probe := Panels.ProbeValue (Some "Good coffee");
                 Panels.date_probe := Panels.ProbeValue (Some "a week ago") |};
              {| Panels.name_probe := Panels.ProbeValue (Some "Bob");
                 Panels.rating_probe := Panels.ProbeValue (Some "4 stars");
                 Panels.text_probe := Panels.ProbeRaises;
                 Panels.date_probe := Panels.ProbeAbsent |};
              {| Panels.name_probe := Panels.ProbeAbsent;
                 Panels.rating_probe := Panels.ProbeValue (Some "no stars");
                 Panels.text_probe := Panels.ProbeAbsent;
                 Panels.date_probe := Panels.ProbeAbsent |} ] |}.

(** A document with a title, two links and an image, that knows the
    selector [h1]. *)
Definition home_document : Website.Document :=
  {| Website.doc_title := Some "Acme";
     Website.doc_text := "Acme Call 555-123-4567 today";
     Website.doc_links := ["/team"; "https://acme.io/shop"];
     Website.doc_images := ["/logo.png"];
     Website.doc_select := fun selector =>
       if String.eqb selector "h1" then inr [" Acme "]
       else inl "Invalid selector" |}.

End Scenes.

(** * Properties *)

(** ** The string primitives on sample inputs *)

Example lower_mixed : Py.lower "Sales@ACME.io" = "sales@acme.io".
Proof. reflexivity. Qed.

Example replace_mailto :
  Py.replace "mailto:bob@acme.io?subject=hi" "mailto:" "" = "bob@acme.io?subject=hi".
Proof. reflexivity. Qed.

Example split_query :
  Py.split_char "?" "bob@acme.io?subject=hi" = ["bob@acme.io"; "subject=hi"].
Proof. reflexivity. Qed.

Example strip_blank : Py.strip "  +1 555 0100 " = "+1 555 0100".
Proof. reflexivity. Qed.

Example words_join : Py.join " " (Py.words " 555   010  0199 ") = "555 010 0199".
Proof. reflexivity. Qed.

Example endswith_tld : Py.endswith "bob@free.tk" ".tk" = true.
Proof. reflexivity. Qed.

Example slice_negative : Py.slice_to [1; 2; 3; 4] (-1) = [1; 2; 3].
Proof. reflexivity. Qed.


(** ** The patterns on sample inputs

    The expected values are what Python's [re] returns for the same
    pattern and text. *)

Module ReFacts.
Import Enrich.

Example email_findall :
  Re.findall email_pattern
    "Contact: Sales@Acme.io, admin@company.com; x@y.z bob.smith+tag@mail.example.com. a@b.co." =
  ["Sales@Acme.io"; "admin@company.com"; "bob.smith+tag@mail.example.com"; "a@b.co"].
Proof. vm_compute. reflexivity. Qed.

Example phone_findall :
  map (fun p => Re.findall p "Call +1 (555) 123-4567 or 555.123.4567 now")
    phone_patterns =
  [["+1 (555) 123-4567"; "555.123.4567"]; ["(555) 123-4567"; "555.123.4567"];
   ["555.123.4567"]; []].
Proof. vm_compute. reflexivity. Qed.

(** With one group in the pattern, [findall] lists what the group
    captured, [search] finds the whole match. *)
Example linkedin_findall :
  Re.findall (snd (nth 3 social_patterns (EmptyString, Re.Eps)))
    "see HTTP://WWW.LINKEDIN.COM/company/acme-inc/ and linkedin.com/in/bob" =
  ["acme-inc"; "bob"].
Proof. vm_compute. reflexivity. Qed.

Example linkedin_search :
  option_map Re.whole
    (Re.search (snd (nth 3 social_patterns (EmptyString, Re.Eps)))
       "see HTTP://WWW.LINKEDIN.COM/company/acme-inc/ and linkedin.com/in/bob") =
  Some "HTTP://WWW.LINKEDIN.COM/company/acme-inc/".
Proof. vm_compute. reflexivity. Qed.

Example street_search :
  option_map Re.whole (Re.search street_pattern "Suite 5, 1234  Main St, Springfield 62704") =
  Some "1234  Main".
Proof. vm_compute. reflexivity. Qed.

Example place_id :
  Maps._extract_place_id "https://www.google.com/maps/place/X/data=!4m7!3m6!1s0x89c2:0xabc!8m2" =
  Some "0x89c2:0xabc".
Proof. vm_compute. reflexivity. Qed.

Example valid_emails :
  map _is_valid_email ["a@b.c"; "a@b"; "abcdef"; "ab@c.d@e"; "ab@cd@e.f"] =
  [true; false; false; true; false].
Proof. vm_compute. reflexivity. Qed.

End ReFacts.

(** ** Sets and dicts *)

Module CollFacts.
Import Coll.

Lemma mem_In (x : string) (s : list string) : mem x s = true <-> In x s.
Proof.
  unfold mem. rewrite existsb_exists. split.
  - intros [y [Hy Heq]]. apply String.eqb_eq in Heq. now subst.
  - intros H. exists x. split; [assumption | apply String.eqb_refl].
Qed.

Lemma mem_false (x : string) (s : list string) : mem x s = false <-> ~ In x s.
Proof.
  rewrite <- mem_In. destruct (mem x s); split; intros H; congruence.
Qed.

Lemma In_set_add (e x : string) (s : list string) :
  In e (set_add x s) <-> e = x \/ In e s.
Proof.
  unfold set_add. destruct (mem x s) eqn:Hm.
  - apply mem_In in Hm. split; [tauto | intros [-> | H]; assumption].
  - rewrite in_app_iff. simpl. split; intros H; intuition congruence.
Qed.

Lemma NoDup_set_add (x : string) (s : list string) : NoDup s -> NoDup (set_add x s).
Proof.
  intros Hs. unfold set_add. destruct (mem x s) eqn:Hm; [assumption |].
  apply mem_false in Hm. apply NoDup_app. split; [assumption |]. split.
  - intros y Hy Hx. apply list_elem_of_In in Hy. apply list_elem_of_In in Hx.
    simpl in Hx. destruct Hx as [<- | []]. contradiction.
  - apply NoDup_singleton.
Qed.


(** A scan that adds [g x] for the elements [x] that pass [P]: what it
    leaves in the set, and that the set stays one. *)
Section Scan.
Context {A : Type} (P : A -> bool) (g : A -> string).

Lemma In_scan (l : list A) (s : list string) (e : string) :
  In e (fold_left (scan_step P g) l s) <->
  In e s \/ exists x, In x l /\ P x = true /\ e = g x.
Proof.
  revert s. induction l as [| a l IH]; intros s; simpl.
  - split; [tauto | intros [H | [x [[] _]]]; assumption].
  - rewrite IH. unfold scan_step. destruct (P a) eqn:Ha.
    + rewrite In_set_add. split.
      * intros [[-> | H] | [x [Hx Hr]]]; [right; exists a | left | right; exists x]; tauto.
      * intros [H | [x [[<- | Hx] [Hp ->]]]]; [tauto | tauto | right; exists x; tauto].
    + split.
      * intros [H | [x [Hx Hr]]]; [left | right; exists x]; tauto.
      * intros [H | [x [[<- | Hx] [Hp ->]]]]; [tauto | congruence | right; exists x; tauto].
Qed.

Lemma NoDup_scan (l : list A) (s : list string) :
  NoDup s -> NoDup (fold_left (scan_step P g) l s).
Proof.
  revert s. induction l as [| a l IH]; intros s Hs; simpl; [assumption |].
  apply IH. unfold scan_step. destruct (P a); [now apply NoDup_set_add | assumption].
Qed.

End Scan.

Lemma set_of_list_scan (l : list string) :
  set_of_list l = fold_left (scan_step (fun _ => true) (fun x => x)) l [].
Proof. reflexivity. Qed.

Lemma In_set_of_list (l : list string) (e : string) : In e (set_of_list l) <-> In e l.
Proof.
  rewrite set_of_list_scan, In_scan. split.
  - intros [[] | [x [Hx [_ ->]]]]. assumption.
  - intros H. right. exists e. tauto.
Qed.

Lemma NoDup_set_of_list (l : list string) : NoDup (set_of_list l).
Proof. rewrite set_of_list_scan. apply NoDup_scan. constructor. Qed.

End CollFacts.

(** ** website_enrichment.py: the e-mail filters *)

Module EmailFacts.
Import Coll CollFacts Enrich.

Lemma fold_left_pointwise {A B} (f f' : A -> B -> A) (l : list B) (a : A) :
  (forall a b, f a b = f' a b) -> fold_left f l a = fold_left f' l a.
Proof.
  intros H. revert a. induction l as [| b l IH]; intros a; simpl; [reflexivity |].
  now rewrite H, IH.
Qed.

Lemma add_mailto_scan (emails : list string) (a_tag : Anchor) :
  add_mailto emails a_tag =
  scan_step (fun a => is_mailto a && _is_valid_email (mailto_address a))
    (fun a => Py.lower (mailto_address a)) emails a_tag.
Proof.
  unfold add_mailto, scan_step, is_mailto, mailto_address.
  destruct (Py.startswith (href a_tag) "mailto:"); reflexivity.
Qed.

Lemma add_found_emails_scan (emails found : list string) :
  add_found_emails emails found =
  fold_left (scan_step (fun e => _is_valid_email e && _is_business_email e) Py.lower)
    found emails.
Proof. reflexivity. Qed.

Lemma In_add_found_emails (emails found : list string) (e : string) :
  In e (add_found_emails emails found) <->
  In e emails \/
  exists c, In c found /\ _is_valid_email c = true /\ _is_business_email c = true
            /\ e = Py.lower c.
Proof.
  rewrite add_found_emails_scan, In_scan. split.
  - intros [H | [c [Hc [Hp ->]]]]; [now left |].
    apply andb_true_iff in Hp. right. exists c. tauto.
  - intros [H | [c [Hc [Hv [Hb ->]]]]]; [now left |].
    right. exists c. rewrite Hv, Hb. tauto.
Qed.

Lemma NoDup_add_found_emails (emails found : list string) :
  NoDup emails -> NoDup (add_found_emails emails found).
Proof. rewrite add_found_emails_scan. apply NoDup_scan. Qed.

Lemma In_section_emails (sections : list string) (emails : list string) (e : string) :
  In e (fold_left
          (fun emails section_text =>
             add_found_emails emails (Re.findall email_pattern section_text))
          sections emails) <->
  In e emails \/
  exists c, In c (flat_map (Re.findall email_pattern) sections)
            /\ _is_valid_email c = true /\ _is_business_email c = true
            /\ e = Py.lower c.
Proof.
  revert emails. induction sections as [| t sections IH]; intros emails; simpl.
  - split; [tauto | intros [H | [c [[] _]]]; assumption].
  - rewrite IH, In_add_found_emails. split.
    + intros [[H | [c [Hc Hr]]] | [c [Hc Hr]]].
      * now left.
      * right. exists c. rewrite in_app_iff. tauto.
      * right. exists c. rewrite in_app_iff. tauto.
    + intros [H | [c [Hc Hr]]]; [tauto |].
      apply in_app_iff in Hc. destruct Hc as [Hc | Hc].
      * left. right. exists c. tauto.
      * right. exists c. tauto.
Qed.

Lemma NoDup_section_emails (sections : list string) (emails : list string) :
  NoDup emails ->
  NoDup (fold_left
           (fun emails section_text =>
              add_found_emails emails (Re.findall email_pattern section_text))
           sections emails).
Proof.
  revert emails. induction sections as [| t sections IH]; intros emails H; simpl.
  - assumption.
  - apply IH. now apply NoDup_add_found_emails.
Qed.

(** What the e-mail scans leave in the set. *)
Lemma In_collected_emails (p : Page) (e : string) :
  In e (collected_emails p) <->
  (exists a, In a (anchors p) /\ is_mailto a = true
             /\ _is_valid_email (mailto_address a) = true
             /\ e = Py.lower (mailto_address a)) \/
  (exists c, In c (pattern_candidates p) /\ _is_valid_email c = true
             /\ _is_business_email c = true /\ e = Py.lower c).
Proof.
  unfold collected_emails, pattern_candidates.
  rewrite In_section_emails, !In_add_found_emails.
  rewrite (fold_left_pointwise _ _ _ _ add_mailto_scan), In_scan.
  split.
  - intros [[[[[] | [a [Ha [Hp ->]]]] | [c Hc]] | [c Hc]] | [c Hc]].
    + left. exists a. apply andb_true_iff in Hp. tauto.
    + right. exists c. rewrite !in_app_iff. tauto.
    + right. exists c. rewrite !in_app_iff. tauto.
    + right. exists c. rewrite !in_app_iff. tauto.
  - intros [[a [Ha [Hm [Hv ->]]]] | [c [Hc Hr]]].
    + left. left. left. right. exists a. rewrite Hm, Hv. tauto.
    + rewrite !in_app_iff in Hc. destruct Hc as [Hc | [Hc | Hc]].
      * left. left. right. exists c. tauto.
      * left. right. exists c. tauto.
      * right. exists c. tauto.
Qed.

Lemma NoDup_collected_emails (p : Page) : NoDup (collected_emails p).
Proof.
  unfold collected_emails.
  apply NoDup_section_emails, NoDup_add_found_emails, NoDup_add_found_emails.
  rewrite (fold_left_pointwise _ _ _ _ add_mailto_scan).
  apply NoDup_scan. constructor.
Qed.

Lemma In_set_iter (rt : Runtime) (l : list string) (e : string) :
  lawful rt -> NoDup l -> In e (set_iter rt l) <-> In e l.
Proof.
  intros Hrt Hl. specialize (Hrt l Hl).
  split; intros H.
  - eapply Permutation_in; eassumption.
  - eapply Permutation_in; [symmetry |]; eassumption.
Qed.

Lemma excluded_pattern_rejects (email pattern : string) :
  In pattern excluded_email_patterns ->
  Py.contains (Py.lower email) pattern = true ->
  _is_business_email email = false.
Proof.
  intros Hin Hc. unfold _is_business_email.
  replace (existsb _ excluded_email_patterns) with true; [reflexivity |].
  symmetry. apply existsb_exists. exists pattern. tauto.
Qed.

Lemma spam_tld_rejects (email tld : string) :
  In tld spam_tlds ->
  Py.endswith (Py.lower email) tld = true ->
  _is_business_email email = false.
Proof.
  intros Hin He. unfold _is_business_email.
  destruct (existsb _ excluded_email_patterns); [reflexivity |].
  replace (existsb _ spam_tlds) with true; [reflexivity |].
  symmetry. apply existsb_exists. exists tld. tauto.
Qed.

(** Lower-casing commutes with the tests of the filter, so an address
    that contains a listed pattern as it stands is rejected too. *)
Lemma prefix_lower (p s : string) :
  String.prefix p s = true -> String.prefix (Py.lower p) (Py.lower s) = true.
Proof.
  revert s. induction p as [| a p IH]; intros s; [now destruct s |].
  destruct s as [| b s]; simpl; [discriminate |].
  destruct (ascii_dec a b) as [-> | Hne]; [| discriminate].
  intros H. destruct (ascii_dec (Py.lower_ascii b) (Py.lower_ascii b)); [now apply IH | congruence].
Qed.

Lemma contains_lower (s p : string) :
  Py.contains s p = true -> Py.contains (Py.lower s) (Py.lower p) = true.
Proof.
  induction s as [| c s IH]; intros H.
  - destruct p; [reflexivity | discriminate].
  - cbn [Py.contains Py.lower] in *.
    apply orb_true_iff in H. apply orb_true_iff. destruct H as [H | H].
    + left. apply (prefix_lower p (String c s)). exact H.
    + right. now apply IH.
Qed.

Lemma lower_length (s : string) : String.length (Py.lower s) = String.length s.
Proof. induction s as [| c s IH]; simpl; [reflexivity | now rewrite IH]. Qed.

Lemma lower_drop_str (n : nat) (s : string) :
  Py.lower (Py.drop_str n s) = Py.drop_str n (Py.lower s).
Proof.
  revert s. induction n as [| n IH]; intros s; [reflexivity |].
  destruct s as [| c s]; simpl; [reflexivity | apply IH].
Qed.

Lemma endswith_lower (s suf : string) :
  Py.endswith s suf = true -> Py.endswith (Py.lower s) (Py.lower suf) = true.
Proof.
  unfold Py.endswith. rewrite !lower_length. intros H.
  apply andb_true_iff in H. destruct H as [Hlen Heq]. rewrite Hlen. simpl.
  apply String.eqb_eq in Heq. rewrite <- lower_drop_str, Heq. apply String.eqb_refl.
Qed.

Lemma listed_lower_case (x : string) :
  In x excluded_email_patterns \/ In x spam_tlds -> Py.lower x = x.
Proof.
  intros [H | H]; simpl in H;
    repeat (destruct H as [<- | H]; [reflexivity |]); destruct H.
Qed.

(** C7.  The business-email filter rejects [admin@company.com],
    [noreply@shop.io] and [test@example.com] and keeps [sales@acme.io]; it
    rejects every address that contains one of the listed patterns or
    ends in one of the five low-trust top-level domains, as it stands or
    lower-cased; and
    [_extract_emails] lists exactly the lower-cased valid [mailto:]
    addresses and the lower-cased candidates of the three pattern scans
    (visible text, raw markup, contact sections) that are valid and pass
    the filter. *)
Theorem business_email_filter (rt : Runtime) (Hrt : lawful rt) :
  _is_business_email "admin@company.com" = false /\
  _is_business_email "noreply@shop.io" = false /\
  _is_business_email "test@example.com" = false /\
  _is_business_email "sales@acme.io" = true /\
  length spam_tlds = 5 /\
  (forall email pattern,
      In pattern excluded_email_patterns ->
      Py.contains email pattern = true \/ Py.contains (Py.lower email) pattern = true ->
      _is_business_email email = false) /\
  (forall email tld,
      In tld spam_tlds ->
      Py.endswith email tld = true \/ Py.endswith (Py.lower email) tld = true ->
      _is_business_email email = false) /\
  (forall (p : Page) (e : string),
      In e (_extract_emails rt p) <->
      (exists a, In a (anchors p) /\ is_mailto a = true
                 /\ _is_valid_email (mailto_address a) = true
                 /\ e = Py.lower (mailto_address a)) \/
      (exists c, In c (pattern_candidates p) /\ _is_valid_email c = true
                 /\ _is_business_email c = true /\ e = Py.lower c)).
Proof.
  repeat split; try reflexivity.
  - intros email pattern Hin [H | H].
    + apply (excluded_pattern_rejects email pattern Hin).
      apply contains_lower in H. now rewrite (listed_lower_case pattern) in H by tauto.
    + now apply (excluded_pattern_rejects email pattern).
  - intros email tld Hin [H | H].
    + apply (spam_tld_rejects email tld Hin).
      apply endswith_lower in H. now rewrite (listed_lower_case tld) in H by tauto.
    + now apply (spam_tld_rejects email tld).
  - unfold _extract_emails.
    rewrite (In_set_iter rt _ e Hrt (NoDup_collected_emails p)).
    apply In_collected_emails.
  - unfold _extract_emails.
    rewrite (In_set_iter rt _ e Hrt (NoDup_collected_emails p)).
    apply In_collected_emails.
Qed.

Lemma business_email_filter_witness :
  lawful Samples.insertion_order /\
  _is_business_email "Info@Example.org" = false.
Proof.
  split.
  - intros l _. apply Permutation_refl.
  - refine (proj1 (proj2 (proj2 (proj2 (proj2 (proj2
              (business_email_filter Samples.insertion_order _))))))
              "Info@Example.org" "info@example" _ _).
    + intros l _. apply Permutation_refl.
    + simpl. tauto.
    + right. reflexivity.
Defined.

End EmailFacts.

(** ** website_enrichment.py: social links and merging *)

Module SocialFacts.
Import Coll CollFacts Enrich.

Lemma dict_mem_In (k : string) (d : dict) : dict_mem k d = true <-> In k (keys d).
Proof.
  unfold dict_mem, keys. rewrite existsb_exists, in_map_iff. split.
  - intros [kv [Hin Heq]]. apply String.eqb_eq in Heq. exists kv. split; congruence.
  - intros [kv [Heq Hin]]. exists kv. split; [assumption |].
    rewrite Heq. apply String.eqb_refl.
Qed.

Lemma dict_mem_false (k : string) (d : dict) : dict_mem k d = false <-> ~ In k (keys d).
Proof. rewrite <- dict_mem_In. destruct (dict_mem k d); split; intros H; congruence. Qed.

(** Setting a key the dict does not have appends the item. *)
Lemma dict_set_new (k v : string) (d : dict) :
  dict_mem k d = false -> dict_set k v d = d ++ [(k, v)].
Proof.
  induction d as [| [k' v'] d IH]; simpl; intros H; [reflexivity |].
  unfold dict_mem in H. simpl in H. apply orb_false_iff in H. destruct H as [Hk Hd].
  rewrite Hk. f_equal. now apply IH.
Qed.

Lemma dict_get_app_l (k v : string) (d d' : dict) :
  dict_get k d = Some v -> dict_get k (d ++ d') = Some v.
Proof.
  induction d as [| [k' v'] d IH]; simpl; [discriminate |].
  destruct (String.eqb k k'); [trivial | exact IH].
Qed.

(** The invariant of the dicts the extractor builds. *)
Lemma one_url_add (k v : string) (d : dict) :
  In k platforms -> dict_mem k d = false ->
  one_url_per_platform d -> one_url_per_platform (dict_set k v d).
Proof.
  intros Hk Hm [Hnd Hincl]. rewrite (dict_set_new _ _ _ Hm).
  apply dict_mem_false in Hm. unfold one_url_per_platform, keys in *.
  rewrite map_app. simpl. split.
  - apply NoDup_app. split; [assumption |]. split; [| apply NoDup_singleton].
    intros x Hx Hx'. apply list_elem_of_In in Hx. apply list_elem_of_In in Hx'.
    simpl in Hx'. destruct Hx' as [<- | []]. contradiction.
  - intros x Hx. apply in_app_iff in Hx. destruct Hx as [Hx | [<- | []]]; auto.
Qed.

Lemma one_url_empty : one_url_per_platform [].
Proof. split; [constructor | intros x []]. Qed.

Lemma scan_platforms_go_caps (entries : list (string * Re.re)) (href : string) (d : dict) :
  incl (map fst entries) platforms ->
  one_url_per_platform d ->
  one_url_per_platform
    (snd (fold_left
            (fun (st : string * dict) (entry : string * Re.re) =>
               let '(href, social_links) := st in
               let '(platform, pattern) := entry in
               if dict_mem platform social_links then st
               else match Re.search pattern href with
                    | Some _ =>
                        let href := if Py.startswith href "http" then href
                                    else "https://" +:+ href in
                        (href, dict_set platform href social_links)
                    | None => st
                    end)
            entries (href, d))).
Proof.
  revert href d. induction entries as [| [platform pattern] entries IH];
    intros href d Hincl Hd; simpl; [assumption |].
  assert (Hp : In platform platforms) by (apply Hincl; now left).
  assert (Hrest : incl (map fst entries) platforms)
    by (intros x Hx; apply Hincl; now right).
  destruct (dict_mem platform d) eqn:Hm; [now apply IH |].
  destruct (Re.search pattern href); [| now apply IH].
  apply IH; [assumption |]. now apply one_url_add.
Qed.

Lemma scan_platforms_caps (href : string) (d : dict) :
  one_url_per_platform d -> one_url_per_platform (scan_platforms href d).
Proof. apply scan_platforms_go_caps. intros x Hx. exact Hx. Qed.

Lemma scan_anchors_caps (rt : Runtime) (base_url : string) (a_tags : list Anchor)
    (d d' : dict) :
  one_url_per_platform d ->
  scan_anchors rt base_url a_tags d = Ok d' -> one_url_per_platform d'.
Proof.
  revert d. induction a_tags as [| a a_tags IH]; intros d Hd; simpl.
  - intros H. injection H as <-. assumption.
  - destruct (Py.startswith (href a) "/").
    + destruct (urljoin rt base_url (href a)); [| discriminate].
      apply IH. now apply scan_platforms_caps.
    + apply IH. now apply scan_platforms_caps.
Qed.

Lemma scan_markup_go_caps (entries : list (string * Re.re)) (html : string) (d : dict) :
  incl (map fst entries) platforms ->
  one_url_per_platform d ->
  one_url_per_platform
    (fold_left
       (fun social_links (entry : string * Re.re) =>
          let '(platform, pattern) := entry in
          if dict_mem platform social_links then social_links
          else match Re.findall pattern html with
               | m0 :: _ =>
                   let url := m0 in
                   let url := if Py.startswith url "http" then url
                              else "https://" +:+ url in
                   dict_set platform url social_links
               | [] => social_links
               end)
       entries d).
Proof.
  revert d. induction entries as [| [platform pattern] entries IH];
    intros d Hincl Hd; simpl; [assumption |].
  assert (Hp : In platform platforms) by (apply Hincl; now left).
  assert (Hrest : incl (map fst entries) platforms)
    by (intros x Hx; apply Hincl; now right).
  destruct (dict_mem platform d) eqn:Hm; [now apply IH |].
  destruct (Re.findall pattern html); [now apply IH |].
  apply IH; [assumption |]. now apply one_url_add.
Qed.

Lemma scan_markup_caps (html : string) (d : dict) :
  one_url_per_platform d -> one_url_per_platform (scan_markup html d).
Proof. apply scan_markup_go_caps. intros x Hx. exact Hx. Qed.

Lemma extract_social_media_caps (rt : Runtime) (p : Page) (base_url : string) (d : dict) :
  _extract_social_media rt p base_url = Ok d -> one_url_per_platform d.
Proof.
  unfold _extract_social_media.
  destruct (scan_anchors rt base_url (anchors p) []) as [d0 |] eqn:Ha; [| discriminate].
  intros H. injection H as <-. apply scan_markup_caps.
  eapply scan_anchors_caps; [apply one_url_empty | exact Ha].
Qed.

(** Merging keeps the invariant when the source has it. *)
Lemma merge_social_caps (target source : dict) :
  incl (keys source) platforms ->
  one_url_per_platform target -> one_url_per_platform (merge_social target source).
Proof.
  unfold merge_social. revert target.
  induction source as [| [platform url] source IH]; intros target Hincl Ht; simpl;
    [assumption |].
  assert (Hp : In platform platforms) by (apply Hincl; now left).
  assert (Hrest : incl (keys source) platforms)
    by (intros x Hx; apply Hincl; now right).
  destruct (dict_mem platform target) eqn:Hm; [now apply IH |].
  apply IH; [assumption |]. now apply one_url_add.
Qed.

End SocialFacts.

(** ** website_enrichment.py: the cardinality caps *)

Module CapFacts.
Import Coll CollFacts Enrich SocialFacts.

Lemma length_take_le {A} (n : nat) (l : list A) : length (take n l) <= n.
Proof. rewrite length_take. lia. Qed.

Lemma empty_page_bounds : page_bounds empty_page_data.
Proof. unfold page_bounds. simpl. repeat split; try lia; [constructor | intros x []]. Qed.

Lemma extract_page_data_bounds (rt : Runtime) (page : Page) (url : string) :
  page_bounds (extract_page_data rt page url).
Proof.
  unfold extract_page_data, page_bounds.
  destruct (_extract_social_media rt page url) as [d |] eqn:Hs; simpl.
  - split; [apply length_take_le |]. split; [apply length_take_le |].
    eapply extract_social_media_caps. exact Hs.
  - split; [apply length_take_le |]. split; [lia | apply one_url_empty].
Qed.

Lemma extract_from_page_bounds (rt : Runtime) (w : Web) (url : string) (log : list Request) :
  page_bounds (fst (_extract_from_page rt w url log)).
Proof.
  unfold _extract_from_page, bind, get, ret. simpl.
  destruct (http_get w log url) as [| status page]; [apply empty_page_bounds |].
  destruct (status =? 200)%nat; [apply extract_page_data_bounds | apply empty_page_bounds].
Qed.

(** What holds of the accumulator after any number of merges of page
    dicts: nothing about its lists, the platform invariant of its links. *)
Lemma merge_data_social (target : EnrichmentData) (source : PageData) :
  one_url_per_platform (socialMedia target) ->
  page_bounds source ->
  one_url_per_platform (socialMedia (_merge_data target source)).
Proof.
  intros Ht (_ & _ & Hs). simpl. apply merge_social_caps; [apply Hs | assumption].
Qed.

Lemma finalize_caps (rt : Runtime) (d : EnrichmentData) :
  one_url_per_platform (socialMedia d) -> result_caps (finalize rt d).
Proof.
  intros H. unfold result_caps, finalize, dedup_cap. simpl.
  repeat split; try apply length_take_le; apply H.
Qed.

Lemma find_contact_page_raises (rt : Runtime) (w : Web) (url : string) (log : list Request) :
  fst (_find_contact_page rt w url log) = Raise -> urlparse_base rt url = None.
Proof.
  unfold _find_contact_page. destruct (urlparse_base rt url) as [base |]; [| reflexivity].
  unfold bind, ret.
  destruct (probe_paths w base contact_paths log) as [[contact_url |] log1]; simpl.
  - discriminate.
  - destruct (get w url log1) as [r log2]. simpl. discriminate.
Qed.

(** C1, as the code has it.  The single-page extraction bounds the phones
    by 5 and the addresses by 3 and keeps one URL per platform, on every
    page and every path through it; it does not bound the e-mails.  Every
    result of [enrich_from_website] has at most 5 phones, at most 3
    addresses and one URL per platform, and at most 5 e-mails whenever its
    clean-and-deduplicate step is reached. *)
Theorem cardinality_caps (rt : Runtime) (w : Web) :
  (forall page url, page_bounds (extract_page_data rt page url)) /\
  (forall url log, page_bounds (fst (_extract_from_page rt w url log))) /\
  (forall website_url check_contact_page log,
      let r := fst (enrich_from_website rt w website_url check_contact_page log) in
      length (phones r) <= 5 /\ length (addresses r) <= 3 /\
      one_url_per_platform (socialMedia r) /\
      (finalized rt website_url check_contact_page -> result_caps r)).
Proof.
  split; [apply extract_page_data_bounds |].
  split; [apply extract_from_page_bounds |].
  intros website_url check log.
  assert (Hempty : result_caps empty_enrichment).
  { unfold result_caps. simpl. repeat split; try lia; [constructor | intros x []]. }
  assert (Hweak : forall d, result_caps d ->
            length (phones d) <= 5 /\ length (addresses d) <= 3 /\
            one_url_per_platform (socialMedia d) /\
            (finalized rt website_url check -> result_caps d)).
  { intros d Hd. pose proof Hd as (_ & Hp & Ha & Hs). tauto. }
  cbv zeta.
  remember (enrich_from_website rt w website_url check log) as res eqn:Hres.
  unfold enrich_from_website in Hres.
  destruct website_url as [url |];
    [| subst res; exact (Hweak empty_enrichment Hempty)].
  destruct (Py.truthy url); [| subst res; exact (Hweak empty_enrichment Hempty)].
  cbn [negb] in Hres. unfold bind at 1 in Hres.
  pose proof (extract_from_page_bounds rt w url log) as Hmain.
  destruct (_extract_from_page rt w url log) as [main log1]. cbn [fst] in Hmain.
  assert (Hacc : one_url_per_platform (socialMedia (_merge_data empty_enrichment main))).
  { apply merge_data_social; [apply one_url_empty | assumption]. }
  destruct check.
  - unfold bind at 1 in Hres.
    pose proof (find_contact_page_raises rt w url log1) as Hraise.
    destruct (_find_contact_page rt w url log1) as [[[contact_url |] |] log2];
      cbn [fst] in Hraise.
    + destruct (Py.truthy contact_url).
      * unfold bind, ret in Hres.
        pose proof (extract_from_page_bounds rt w contact_url log2) as Hcontact.
        destruct (_extract_from_page rt w contact_url log2) as [contact log3].
        cbn [fst] in Hcontact. subst res.
        refine (Hweak _ (finalize_caps rt _ _)).
        apply merge_data_social; assumption.
      * subst res. exact (Hweak _ (finalize_caps rt _ Hacc)).
    + subst res. exact (Hweak _ (finalize_caps rt _ Hacc)).
    + subst res. unfold ret. cbn [fst]. destruct Hmain as (Hp & Ha & _).
      split; [exact Hp |]. split; [exact Ha |]. split; [exact Hacc |].
      intros [Hcheck | Hparse]; [discriminate |].
      exfalso. apply (Hparse url eq_refl). now apply Hraise.
  - subst res. exact (Hweak _ (finalize_caps rt _ Hacc)).
Qed.

(** C1, witness: the full caps of a result whose final step is reached. *)
Lemma cardinality_caps_witness :
  finalized Samples.insertion_order (Some "https://acme.io") true /\
  result_caps
    (fst (enrich_from_website Samples.insertion_order
            (Samples.serving Samples.six_emails_page) (Some "https://acme.io") true [])).
Proof.
  assert (H : finalized Samples.insertion_order (Some "https://acme.io") true).
  { right. intros url _. discriminate. }
  split; [exact H |].
  exact (proj2 (proj2 (proj2 (proj2 (proj2
           (cardinality_caps Samples.insertion_order
              (Samples.serving Samples.six_emails_page)))
           (Some "https://acme.io") true []))) H).
Defined.

(** C1, as stated, fails: the single-page extraction of a page with six
    addresses returns all six. *)
Lemma six_emails_exceed_cap :
  ~ page_caps
      (fst (_extract_from_page Samples.insertion_order
              (Samples.serving Samples.six_emails_page) "https://acme.io" [])).
Proof.
  unfold page_caps. intros [H _]. vm_compute in H. lia.
Qed.

(** The six addresses, by name. *)
Example six_emails_listed :
  pd_emails
    (fst (_extract_from_page Samples.insertion_order
            (Samples.serving Samples.six_emails_page) "https://acme.io" [])) =
  ["a1@acme.io"; "a2@acme.io"; "a3@acme.io"; "a4@acme.io"; "a5@acme.io"; "a6@acme.io"].
Proof. vm_compute. reflexivity. Qed.

(** C10.  With a missing or an empty URL, [enrich_from_website] returns the
    empty result and leaves the request log as it found it: no [GET], no
    [HEAD]. *)
Theorem enrich_without_url (rt : Runtime) (w : Web) (check_contact_page : bool)
    (log : list Request) :
  enrich_from_website rt w None check_contact_page log =
    ({| emails := []; phones := []; socialMedia := []; contactPageUrl := None;
        addresses := [] |}, log) /\
  enrich_from_website rt w (Some "") check_contact_page log =
    ({| emails := []; phones := []; socialMedia := []; contactPageUrl := None;
        addresses := [] |}, log).
Proof. split; reflexivity. Qed.

End CapFacts.

(** ** website_enrichment.py: merging a page twice *)

Module MergeFacts.
Import Coll CollFacts Enrich SocialFacts.








Lemma dict_get_app (k : string) (d d' : dict) :
  dict_get k (d ++ d') =
  match dict_get k d with
  | Some v => Some v
  | None => dict_get k d'
  end.
Proof.
  induction d as [| [k0 v0] d IH]; simpl; [reflexivity |].
  destruct (String.eqb k k0); [reflexivity | exact IH].
Qed.

Lemma dict_get_none_mem (k : string) (d : dict) :
  dict_get k d = None <-> dict_mem k d = false.
Proof.
  unfold dict_mem. induction d as [| [k0 v0] d IH]; simpl; [tauto |].
  destruct (String.eqb k k0); simpl; [split; discriminate | exact IH].
Qed.



End MergeFacts.

(** ** website_enrichment.py: what the social scan stores *)

Module SocialValueFacts.
Import Coll CollFacts Enrich SocialFacts.

Lemma dict_set_keeps (k v k' v' : string) (d : dict) :
  dict_mem k' d = false -> dict_get k d = Some v ->
  dict_get k (dict_set k' v' d) = Some v.
Proof.
  intros Hm Hg. rewrite (dict_set_new _ _ _ Hm). now apply dict_get_app_l.
Qed.

(** The first match of a platform wins: neither scan changes an entry. *)
Lemma scan_platforms_keeps (href : string) (d : dict) (k v : string) :
  dict_get k d = Some v -> dict_get k (scan_platforms href d) = Some v.
Proof.
  unfold scan_platforms. generalize social_patterns as entries. intros entries.
  revert href d. induction entries as [| [platform pattern] entries IH];
    intros href d H; simpl; [assumption |].
  destruct (dict_mem platform d) eqn:Hm; [now apply IH |].
  destruct (Re.search pattern href); [| now apply IH].
  apply IH. now apply dict_set_keeps.
Qed.

Lemma scan_anchors_keeps (rt : Runtime) (base_url : string) (a_tags : list Anchor)
    (d d' : dict) (k v : string) :
  dict_get k d = Some v ->
  scan_anchors rt base_url a_tags d = Ok d' -> dict_get k d' = Some v.
Proof.
  revert d. induction a_tags as [| a a_tags IH]; intros d Hd; simpl.
  - intros H. injection H as <-. assumption.
  - destruct (Py.startswith (href a) "/").
    + destruct (urljoin rt base_url (href a)); [| discriminate].
      apply IH. now apply scan_platforms_keeps.
    + apply IH. now apply scan_platforms_keeps.
Qed.

Lemma scan_markup_keeps (html : string) (d : dict) (k v : string) :
  dict_get k d = Some v -> dict_get k (scan_markup html d) = Some v.
Proof.
  unfold scan_markup. generalize social_patterns as entries. intros entries.
  revert d. induction entries as [| [platform pattern] entries IH];
    intros d H; simpl; [assumption |].
  destruct (dict_mem platform d) eqn:Hm; [now apply IH |].
  destruct (Re.findall pattern html); [now apply IH |].
  apply IH. now apply dict_set_keeps.
Qed.

(** Of two anchors of one platform the first is stored, with the scheme
    put in front of it. *)
Example first_anchor_wins (rt : Runtime) :
  _extract_social_media rt Samples.two_anchor_page "https://acme.io" =
  Ok [("facebook", "https://facebook.com/first")].
Proof. vm_compute. reflexivity. Qed.

(** C8, where the code departs from it.  The markup of the sample page
    holds the profile URL [https://www.facebook.com/acme], which is what
    the Facebook pattern matches; the raw-markup scan stores
    [https://acme], the scheme put in front of the captured handle, and
    not the profile URL. *)
Theorem raw_markup_stores_handle (rt : Runtime) :
  option_map Re.whole
    (Re.search (snd (hd (EmptyString, Re.Eps) social_patterns))
       (html Samples.script_link_page)) = Some "https://www.facebook.com/acme" /\
  Re.findall (snd (hd (EmptyString, Re.Eps) social_patterns))
    (html Samples.script_link_page) = ["acme"] /\
  _extract_social_media rt Samples.script_link_page "https://acme.io" =
  Ok [("facebook", "https://acme")].
Proof. repeat split; vm_compute; reflexivity. Qed.

End SocialValueFacts.

(** ** google_maps_optimized.py: the scroll loop *)

Module DiscoveryFacts.
Import Coll CollFacts Maps.

Lemma loop_step_continues (sf : Surface) (m : Z) (st st' : LoopState) :
  loop_step sf m st = inr st' ->
  scroll_attempts st < max_scroll_attempts /\
  scroll_attempts st' = scroll_attempts st + 1 /\
  (Z.of_nat (length (place_urls st')) < m)%Z.
Proof.
  unfold loop_step.
  destruct (scroll_attempts st <? max_scroll_attempts)%nat eqn:Hlt; [| discriminate].
  apply Nat.ltb_lt in Hlt. cbn [negb].
  destruct (below_one_and_a_half (length (place_urls st)) m); [| discriminate].
  cbn [negb].
  destruct (query_links sf (scroll_attempts st)) as [links |]; [| discriminate].
  cbv zeta.
  destruct (m <=? Z.of_nat (length (fold_left add_link links (place_urls st))))%Z
    eqn:Hsat; [discriminate |].
  apply Z.leb_gt in Hsat.
  match goal with
  | |- context [if ?c then inl (Stalled, _) else _] => destruct c
  end; [discriminate |].
  destruct (scroll_raises sf (scroll_attempts st)); [discriminate |].
  intros H. injection H as <-. cbn [place_urls scroll_attempts]. auto.
Qed.

(** The loop returns: [max_scroll_attempts - scroll_attempts + 1] passes
    are enough, whatever the surface does. *)
Lemma scroll_loop_returns (sf : Surface) (m : Z) (fuel : nat) (st : LoopState) :
  max_scroll_attempts - scroll_attempts st < fuel ->
  exists out, scroll_loop fuel sf m st = Some out.
Proof.
  revert st. induction fuel as [| fuel IH]; intros st Hfuel; [lia |].
  simpl. destruct (loop_step sf m st) as [out | st'] eqn:Hstep.
  - now exists out.
  - apply loop_step_continues in Hstep. apply IH. lia.
Qed.

Lemma discovery_returns (sf : Surface) (m : Z) : exists out, discovery sf m = Some out.
Proof.
  unfold discovery. apply scroll_loop_returns. simpl. unfold max_scroll_attempts. lia.
Qed.

Lemma search_places_returns (rt : Runtime) (sf : Surface) (m : Z) :
  exists places, _search_places_optimized rt sf m = Some places.
Proof.
  unfold _search_places_optimized. destruct (goto_raises sf); [eauto |].
  destruct (discovery_returns sf m) as [[e st] H]. rewrite H. eauto.
Qed.

(** More fuel than needed changes nothing. *)
Lemma scroll_loop_more_fuel (sf : Surface) (m : Z) (fuel fuel' : nat) (st : LoopState)
    (out : Exit * LoopState) :
  scroll_loop fuel sf m st = Some out -> fuel <= fuel' ->
  scroll_loop fuel' sf m st = Some out.
Proof.
  revert fuel' st. induction fuel as [| fuel IH]; intros fuel' st H Hle; [discriminate |].
  destruct fuel' as [| fuel']; [lia |]. simpl in *.
  destruct (loop_step sf m st) as [o | st']; [assumption |].
  apply IH; [assumption | lia].
Qed.

(** The state at the [k]-th test: [k] scrolls have been made, and the run
    goes on from there. *)
Lemma state_at_run (sf : Surface) (m : Z) (k : nat) (st : LoopState) :
  state_at sf m k = Some st ->
  scroll_attempts st = k /\ k <= max_scroll_attempts /\
  forall fuel, scroll_loop (k + fuel) sf m initial_state = scroll_loop fuel sf m st.
Proof.
  revert st. induction k as [| k IH]; intros st H; simpl in H.
  - injection H as <-. simpl. split; [reflexivity |]. split; [lia | reflexivity].
  - destruct (state_at sf m k) as [st0 |]; [| discriminate].
    destruct (loop_step sf m st0) as [out | st1] eqn:Hstep; [discriminate |].
    injection H as <-. destruct (IH st0 eq_refl) as (Hk & Hle & Hrun).
    pose proof (loop_step_continues _ _ _ _ Hstep) as (Hlt & Hnext & _).
    split; [lia |]. split; [lia |]. intros fuel.
    replace (S k + fuel) with (k + S fuel) by lia.
    rewrite Hrun. simpl. now rewrite Hstep.
Qed.

(** A pass whose links add nothing leaves the loop with the set it had,
    or goes on with the same set and one more empty pass counted. *)
Lemma stalled_pass (sf : Surface) (m : Z) (st : LoopState) :
  adds_nothing sf (scroll_attempts st) (place_urls st) ->
  match loop_step sf m st with
  | inl (_, st') =>
      place_urls st' = place_urls st /\ scroll_attempts st' = scroll_attempts st
  | inr st' =>
      place_urls st' = place_urls st /\
      scroll_attempts st' = scroll_attempts st + 1 /\
      no_new_results_count st' = no_new_results_count st + 1 /\
      no_new_results_count st' < 3
  end.
Proof.
  intros Hstall. unfold loop_step.
  destruct (negb (scroll_attempts st <? max_scroll_attempts)%nat); [auto |].
  destruct (negb (below_one_and_a_half _ m)); [auto |].
  destruct (query_links sf (scroll_attempts st)) as [links |] eqn:Hq; [| auto].
  rewrite (Hstall links Hq), Nat.eqb_refl.
  destruct (m <=? _)%Z; [simpl; auto |].
  destruct (3 <=? no_new_results_count st + 1)%nat eqn:Hthree; [simpl; auto |].
  apply Nat.leb_gt in Hthree.
  destruct (scroll_raises sf (scroll_attempts st)); simpl; auto.
Qed.

(** [n] empty passes ahead, with [n] enough to bring the count to 3: the
    loop is left within them, with the set unchanged. *)
Lemma stalled_run (sf : Surface) (m : Z) (n : nat) :
  forall (fuel : nat) (st : LoopState),
    (forall j, j < n -> adds_nothing sf (scroll_attempts st + j) (place_urls st)) ->
    1 <= n -> 3 <= no_new_results_count st + n -> n <= fuel ->
    exists e st',
      scroll_loop fuel sf m st = Some (e, st') /\
      place_urls st' = place_urls st /\
      scroll_attempts st' < scroll_attempts st + n.
Proof.
  induction n as [| n IH]; intros fuel st Hstall Hn Hcount Hfuel; [lia |].
  destruct fuel as [| fuel]; [lia |]. simpl.
  assert (H0 : adds_nothing sf (scroll_attempts st) (place_urls st)).
  { specialize (Hstall 0). rewrite Nat.add_0_r in Hstall. apply Hstall. lia. }
  pose proof (stalled_pass sf m st H0) as Hpass.
  destruct (loop_step sf m st) as [[e st'] | st'].
  - exists e, st'. destruct Hpass as [Hu Ha]. split; [reflexivity |]. split; [assumption | lia].
  - destruct Hpass as (Hu & Ha & Hc & Hlt).
    destruct n as [| n]; [lia |].
    destruct (IH fuel st') as (e & st'' & Hrun & Hu' & Ha').
    + intros j Hj. rewrite Hu, Ha.
      replace (scroll_attempts st + 1 + j) with (scroll_attempts st + S j) by lia.
      apply Hstall. lia.
    + lia.
    + lia.
    + lia.
    + exists e, st''. split; [assumption |]. split; [congruence | lia].
Qed.

(** C4.  Let a discovery run come to its [k]-th test with the set [urls],
    and let the links shown in the passes [k], [k+1] and [k+2] add nothing
    to it.  Then, whatever [max_results] is, the run ends at the latest in
    the third of these passes, and what [_search_places_optimized] returns
    is the set as it was before them. *)
Theorem stall_terminates_unchanged (rt : Runtime) (sf : Surface) (max_results : Z)
    (k : nat) (st : LoopState) :
  goto_raises sf = false ->
  state_at sf max_results k = Some st ->
  (forall j, j < 3 -> adds_nothing sf (k + j) (place_urls st)) ->
  exists e st',
    discovery sf max_results = Some (e, st') /\
    place_urls st' = place_urls st /\
    scroll_attempts st' <= k + 2 /\
    _search_places_optimized rt sf max_results = Some (set_iter rt (place_urls st)).
Proof.
  intros Hgoto Hat Hstall.
  destruct (state_at_run sf max_results k st Hat) as (Hk & Hle & Hrun).
  destruct (stalled_run sf max_results 3 3 st) as (e & st' & Hloop & Hu & Ha).
  - intros j Hj. rewrite Hk. now apply Hstall.
  - lia.
  - lia.
  - lia.
  - assert (Hd : discovery sf max_results = Some (e, st')).
    { destruct (discovery_returns sf max_results) as [out Hout].
      rewrite Hout. f_equal.
      assert (H1 : scroll_loop (k + S max_scroll_attempts) sf max_results initial_state
                   = Some out).
      { eapply scroll_loop_more_fuel; [exact Hout | lia]. }
      rewrite Hrun in H1.
      assert (H2 : scroll_loop (S max_scroll_attempts) sf max_results st = Some (e, st')).
      { eapply scroll_loop_more_fuel; [exact Hloop | unfold max_scroll_attempts; lia]. }
      congruence. }
    exists e, st'. split; [exact Hd |]. split; [exact Hu |]. split; [lia |].
    unfold _search_places_optimized. now rewrite Hgoto, Hd, Hu.
Qed.

(** C4, witness: a surface that keeps showing the same two links, with a
    target of 10.  The first pass collects them; the passes 1, 2 and 3 add
    nothing. *)
Lemma stall_terminates_unchanged_witness :
  exists e st',
    discovery (Samples.showing Samples.two_places) 10 = Some (e, st') /\
    place_urls st' = Samples.two_places /\
    scroll_attempts st' <= 1 + 2 /\
    _search_places_optimized Samples.insertion_order
      (Samples.showing Samples.two_places) 10 = Some Samples.two_places.
Proof.
  apply (stall_terminates_unchanged Samples.insertion_order
           (Samples.showing Samples.two_places) 10 1
           {| place_urls := Samples.two_places; scroll_attempts := 1;
              no_new_results_count := 0 |}).
  - reflexivity.
  - reflexivity.
  - intros j Hj links Hq. injection Hq as <-. reflexivity.
Defined.

(** The [Satisfied] exit is taken as soon as the set has [max_results]
    elements. *)
Lemma satisfied_at_target (sf : Surface) (m : Z) (st st' : LoopState) :
  loop_step sf m st = inl (Satisfied, st') ->
  (m <= Z.of_nat (length (place_urls st')))%Z.
Proof.
  unfold loop_step.
  destruct (negb (scroll_attempts st <? max_scroll_attempts)%nat); [discriminate |].
  destruct (negb (below_one_and_a_half (length (place_urls st)) m)); [discriminate |].
  destruct (query_links sf (scroll_attempts st)) as [links |]; [| discriminate].
  cbv zeta.
  destruct (m <=? Z.of_nat (length (fold_left add_link links (place_urls st))))%Z
    eqn:Hsat.
  - intros H. injection H as <-. cbn [place_urls]. now apply Z.leb_le.
  - match goal with
    | |- context [if ?c then inl (Stalled, _) else _] => destruct c
    end; [discriminate |].
    destruct (scroll_raises sf (scroll_attempts st)); discriminate.
Qed.

(** When the loop comes back to its test, the set is below the target;
    so the 1.5 factor of the test never decides anything for a positive
    target. *)
Lemma below_target_at_test (sf : Surface) (m : Z) (k : nat) (st : LoopState) :
  state_at sf m k = Some st ->
  k = 0 /\ st = initial_state \/ (Z.of_nat (length (place_urls st)) < m)%Z.
Proof.
  destruct k as [| k]; simpl.
  - intros H. injection H as <-. now left.
  - destruct (state_at sf m k) as [st0 |]; [| discriminate].
    destruct (loop_step sf m st0) as [out | st1] eqn:Hstep; [discriminate |].
    intros H. injection H as <-. right.
    now apply loop_step_continues in Hstep.
Qed.

Lemma over_collected_needs_no_target (sf : Surface) (m : Z) (k : nat) (st st' : LoopState) :
  state_at sf m k = Some st ->
  loop_step sf m st = inl (OverCollected, st') -> (m <= 0)%Z.
Proof.
  intros Hat. apply below_target_at_test in Hat. unfold loop_step.
  destruct (negb (scroll_attempts st <? max_scroll_attempts)%nat); [discriminate |].
  destruct (below_one_and_a_half (length (place_urls st)) m) eqn:Hb; cbn [negb].
  - destruct (query_links sf (scroll_attempts st)) as [links |]; [| discriminate].
    cbv zeta.
    destruct (m <=? Z.of_nat (length (fold_left add_link links (place_urls st))))%Z;
      [discriminate |].
    match goal with
    | |- context [if ?c then inl (Stalled, _) else _] => destruct c
    end; [discriminate |].
    destruct (scroll_raises sf (scroll_attempts st)); discriminate.
  - intros _. unfold below_one_and_a_half in Hb. apply Z.ltb_ge in Hb.
    destruct Hat as [[_ ->] | Hlt]; [simpl in Hb |]; lia.
Qed.

(** C3, where the code departs from it.  With a target of 10 and a surface
    that shows ten links, the first pass collects the ten and the loop is
    left as [Satisfied] without a scroll, although 10 is below 1.5 times
    the target: the loop does not go on to 15. *)
Theorem satisfied_before_one_and_a_half :
  discovery (Samples.showing Samples.ten_places) 10 =
    Some (Satisfied,
          {| place_urls := Samples.ten_places; scroll_attempts := 0;
             no_new_results_count := 0 |}) /\
  length Samples.ten_places = 10 /\
  below_one_and_a_half (length Samples.ten_places) 10 = true.
Proof. repeat split; vm_compute; reflexivity. Qed.

End DiscoveryFacts.

(** ** google_maps_optimized.py: [gather] *)

Module GatherFacts.
Import Maps.

Section Futures.
Context {A : Type} (tasks : list (nat * A)).

Lemma settle_length (futures : list (option A)) (i : nat) :
  length (settle tasks futures i) = length futures.
Proof. unfold settle. destruct (tasks !! i); [apply length_insert | reflexivity]. Qed.

Lemma fold_settle_length (order : list nat) (futures : list (option A)) :
  length (fold_left (settle tasks) order futures) = length futures.
Proof.
  revert futures. induction order as [| j order IH]; intros futures; simpl;
    [reflexivity |].
  now rewrite IH, settle_length.
Qed.

(** A settled future stays as it is, whichever task settles next. *)
Lemma settle_keeps (futures : list (option A)) (i j : nat) (t : nat * A) :
  tasks !! i = Some t -> futures !! i = Some (Some (snd t)) ->
  settle tasks futures j !! i = Some (Some (snd t)).
Proof.
  intros Ht Hf. unfold settle. destruct (tasks !! j) as [t' |] eqn:Hj; [| assumption].
  destruct (decide (j = i)) as [-> | Hne].
  - assert (t' = t) by congruence. subst t'.
    apply list_lookup_insert_eq. eapply lookup_lt_Some. exact Hf.
  - now rewrite list_lookup_insert_ne.
Qed.

Lemma fold_settle_keeps (order : list nat) (futures : list (option A)) (i : nat)
    (t : nat * A) :
  tasks !! i = Some t -> futures !! i = Some (Some (snd t)) ->
  fold_left (settle tasks) order futures !! i = Some (Some (snd t)).
Proof.
  intros Ht. revert futures. induction order as [| j order IH]; intros futures Hf;
    simpl; [assumption |].
  apply IH. now apply settle_keeps.
Qed.

(** A task in the completion order has settled its future in the end. *)
Lemma fold_settle_sets (order : list nat) (futures : list (option A)) (i : nat)
    (t : nat * A) :
  tasks !! i = Some t -> In i order -> i < length futures ->
  fold_left (settle tasks) order futures !! i = Some (Some (snd t)).
Proof.
  intros Ht. revert futures. induction order as [| j order IH];
    intros futures Hin Hlen; simpl; [destruct Hin |].
  destruct (decide (j = i)) as [-> | Hne].
  - apply fold_settle_keeps; [assumption |].
    unfold settle. rewrite Ht. now apply list_lookup_insert_eq.
  - destruct Hin as [-> | Hin]; [congruence |].
    apply IH; [assumption |]. now rewrite settle_length.
Qed.

Lemma completion_order_all (i : nat) :
  i < length tasks -> In i (completion_order tasks).
Proof.
  intros Hi. apply list_elem_of_In. unfold completion_order.
  rewrite merge_sort_Permutation. apply elem_of_seq. lia.
Qed.

Lemma lookup_map {B C} (f : B -> C) (l : list B) (i : nat) :
  map f l !! i = option_map f (l !! i).
Proof.
  revert i. induction l as [| b l IH]; intros [| i]; simpl; try reflexivity. apply IH.
Qed.

Lemma mapM_id_map_Some {B C} (f : B -> C) (l : list B) :
  mapM id (map (fun b => Some (f b)) l) = Some (map f l).
Proof.
  apply mapM_Some. induction l as [| b l IH]; simpl; constructor; [reflexivity | exact IH].
Qed.

(** [gather] returns, and returns the results in the order of its
    arguments, whatever the times at which the tasks settle. *)
Lemma gather_in_argument_order : gather tasks = Some (map snd tasks).
Proof.
  unfold gather.
  replace (fold_left (settle tasks) (completion_order tasks)
             (replicate (length tasks) None))
    with (map (fun t => Some (snd t)) tasks); [apply mapM_id_map_Some |].
  apply list_eq. intros i. rewrite lookup_map.
  destruct (tasks !! i) as [t |] eqn:Ht; simpl.
  - symmetry. apply fold_settle_sets; [assumption | |].
    + apply completion_order_all. eapply lookup_lt_Some. exact Ht.
    + rewrite length_replicate. eapply lookup_lt_Some. exact Ht.
  - symmetry. apply lookup_ge_None. rewrite fold_settle_length, length_replicate.
    now apply lookup_ge_None.
Qed.

End Futures.

End GatherFacts.

(** ** google_maps_optimized.py: windows *)

Module BatchFacts.
Import Maps GatherFacts.

Section Windows.
Variable rt : Runtime.
Variable fo : FloatOps.
Variable web : Enrich.Web.
Variable br : Browser fo.
Variable cfg : Config.

Lemma omap_map {B C D} (f : B -> C) (g : C -> option D) (l : list B) :
  omap g (map f l) = omap (fun b => g (f b)) l.
Proof.
  induction l as [| b l IH]; [reflexivity |]. csimpl.
  destruct (g (f b)); now rewrite IH.
Qed.

(** A window yields the records of its tasks that returned one, in the
    order of the batch. *)
Lemma run_window_records (batch : list string) :
  run_window rt fo web br cfg batch = Some (omap (record_of rt fo web br cfg) batch).
Proof.
  unfold run_window. rewrite gather_in_argument_order, map_map, omap_map.
  reflexivity.
Qed.

Lemma run_windows_records (places : list string) (n : nat) :
  forall (a : nat) (all_results : list (record fo)),
    run_windows rt fo web br cfg places
      (map (fun k => k * batch_size) (seq a n)) all_results =
    Some (all_results ++
          omap (record_of rt fo web br cfg) (take (n * batch_size) (drop (a * batch_size) places))).
Proof.
  induction n as [| n IH]; intros a all_results; simpl.
  - now rewrite app_nil_r.
  - rewrite run_window_records, IH. f_equal. rewrite <- app_assoc. f_equal.
    rewrite <- omap_app. f_equal.
    replace (S a * batch_size) with (a * batch_size + batch_size) by lia.
    rewrite <- drop_drop. apply take_take_drop.
Qed.

Lemma windows_cover (n : nat) : n <= (n + batch_size - 1) / batch_size * batch_size.
Proof.
  unfold batch_size.
  pose proof (Nat.div_mod_eq (n + 15 - 1) 15) as Hd.
  pose proof (Nat.mod_upper_bound (n + 15 - 1) 15) as Hm. lia.
Qed.

(** The batch extraction yields the records of the places to process, in
    their order. *)
Lemma extract_all_records (places : list string) (all_results : list (record fo)) :
  extract_all rt fo web br cfg places all_results =
  Some (all_results ++ omap (record_of rt fo web br cfg) (Py.slice_to places (max_results cfg))).
Proof.
  unfold extract_all, py_range. rewrite run_windows_records. simpl drop.
  rewrite take_ge by apply windows_cover. reflexivity.
Qed.

(** A search term is dealt with to the end: the search returns a list of
    places, and the records of the first [max_results] of them are added to
    the results. *)
Lemma scrape_term_returns (term : string) (all_results : list (record fo)) :
  exists places,
    scrape_term rt fo web br cfg term all_results =
    Some (all_results ++
          omap (record_of rt fo web br cfg) (Py.slice_to places (max_results cfg))).
Proof.
  unfold scrape_term.
  destruct (DiscoveryFacts.search_places_returns rt
              (surface br (search_url
                 (if Py.truthy (location cfg) then term +:+ " " +:+ location cfg
                  else term)))
              (max_results cfg)) as [places Hp].
  exists places. rewrite Hp. apply extract_all_records.
Qed.

End Windows.

Section Records.
Variable rt : Runtime.
Variable fo : FloatOps.
Variable web : Enrich.Web.

Lemma field_put_other (k k' : string) (v : value fo) (d : record fo) :
  String.eqb k k' = false -> field k (put k' v d) = field k d.
Proof.
  intros Hne. induction d as [| [k0 v0] d IH]; simpl.
  - now rewrite Hne.
  - destruct (String.eqb k' k0) eqn:H0; simpl.
    + apply String.eqb_eq in H0. subst k0. now rewrite Hne.
    + destruct (String.eqb k k0); [reflexivity | exact IH].
Qed.

Ltac by_cases :=
  repeat match goal with
         | |- context [match ?x with _ => _ end] => destruct x
         end.

Ltac put_other := repeat (rewrite field_put_other by reflexivity); try reflexivity.

Lemma set_text_url (k : string) (elem : option (option string)) (d : record fo) :
  String.eqb "url" k = false -> field "url" (set_text fo k elem d) = field "url" d.
Proof. intros H. unfold set_text. destruct elem; [now apply field_put_other | reflexivity]. Qed.

Lemma set_cleaned_url (k : string) (f : string -> string) (elem : option (option string))
    (d : record fo) :
  String.eqb "url" k = false -> field "url" (set_cleaned fo k f elem d) = field "url" d.
Proof.
  intros H. unfold set_cleaned. destruct elem; [now apply field_put_other | reflexivity].
Qed.

Lemma step_phone_url (pg : DetailPage fo) (d : record fo) :
  field "url" (step_phone fo pg d) = field "url" d.
Proof. unfold step_phone. by_cases; put_other. Qed.

Lemma step_website_url (pg : DetailPage fo) (e : bool) (d : record fo) :
  field "url" (step_website rt fo web pg e d) = field "url" d.
Proof. unfold step_website, add_enrichment. by_cases; put_other. Qed.

Lemma step_rating_url (pg : DetailPage fo) (d d' : record fo) :
  step_rating fo pg d = Ok d' -> field "url" d' = field "url" d.
Proof.
  unfold step_rating. by_cases; intros H; try discriminate; injection H as <-; put_other.
Qed.

Lemma step_reviews_count_url (pg : DetailPage fo) (d d' : record fo) :
  step_reviews_count fo pg d = Ok d' -> field "url" d' = field "url" d.
Proof.
  unfold step_reviews_count.
  by_cases; intros H; try discriminate; injection H as <-; put_other.
Qed.

Lemma step_total_score_url (d d' : record fo) :
  step_total_score fo d = Ok d' -> field "url" d' = field "url" d.
Proof.
  unfold step_total_score.
  by_cases; intros H; try discriminate; injection H as <-; put_other.
Qed.

(** The record a task returns carries the URL the task was started with. *)
Lemma detail_body_url (pg : DetailPage fo) (url : string) (r i e : bool)
    (d : record fo) :
  detail_body rt fo web pg url r i e = Ok d -> field "url" d = Some (VStr url).
Proof.
  unfold detail_body.
  destruct (detail_goto_raises pg); [discriminate |].
  destruct (step_rating fo pg _) as [d1 |] eqn:H1; [| discriminate].
  destruct (step_reviews_count fo pg d1) as [d2 |] eqn:H2; [| discriminate].
  intros H. apply step_total_score_url in H. rewrite H.
  apply step_rating_url in H1. apply step_reviews_count_url in H2.
  assert (Himg : forall d0 : record fo,
             field "url" (if i then put "images" (VList (map VStr (images pg))) d0 else d0)
             = field "url" d0).
  { intros d0. destruct i; put_other. }
  assert (Hrev : forall d0 : record fo,
             field "url" (if r then put "reviews" (VList (map VDict (reviews pg))) d0 else d0)
             = field "url" d0).
  { intros d0. destruct r; put_other. }
  rewrite Hrev, Himg, !set_cleaned_url, step_website_url, step_phone_url,
    set_cleaned_url, H2, H1, !set_text_url by reflexivity.
  reflexivity.
Qed.

Lemma task_record_url (br : Browser fo) (cfg : Config) (u : string) (d : record fo) :
  record_of rt fo web br cfg u = Some d -> field "url" d = Some (VStr u).
Proof.
  unfold record_of, outcome_of, task, _extract_place_details_optimized. simpl.
  destruct (new_page_raises (detail br u)); [discriminate |].
  destruct (detail_body rt fo web (detail br u) u _ _ _) as [d' |] eqn:Hb.
  - destruct (close_raises (detail br u)); [discriminate |].
    simpl. intros H. injection H as <-. eapply detail_body_url. exact Hb.
  - destruct (close_raises (detail br u)); discriminate.
Qed.

(** A task whose navigation raises (a timeout is one way), whose page does
    not open or does not close yields no record. *)
Lemma failed_task_no_record (pg : DetailPage fo) (url : string) (r i e : bool) :
  detail_goto_raises pg = true \/ new_page_raises pg = true \/ close_raises pg = true ->
  as_dict fo (_extract_place_details_optimized rt fo web pg url r i e) = None.
Proof.
  unfold _extract_place_details_optimized.
  intros [H | [H | H]].
  - unfold detail_body. rewrite H.
    destruct (new_page_raises pg), (close_raises pg); reflexivity.
  - rewrite H. reflexivity.
  - rewrite H. destruct (new_page_raises pg); reflexivity.
Qed.

End Records.

Section Isolation.
Variable rt : Runtime.
Variable fo : FloatOps.
Variable web : Enrich.Web.

(** C2.  A window yields exactly the records of its tasks that returned
    one, in the order of the batch: a task that yields none (it raised, it
    timed out, it returned [None]) leaves the records of the tasks before
    and after it in place.  A task whose navigation raises or times out,
    or whose page fails to open or close, yields none.  In a window of five
    URLs of which the third fails and the others return records, the
    window yields these four records. *)
Theorem window_isolates_failures (br : Browser fo) (cfg : Config) :
  (forall batch,
      run_window rt fo web br cfg batch = Some (omap (record_of rt fo web br cfg) batch)) /\
  (forall before u after,
      record_of rt fo web br cfg u = None ->
      run_window rt fo web br cfg (before ++ u :: after) =
      Some (omap (record_of rt fo web br cfg) before ++
            omap (record_of rt fo web br cfg) after)) /\
  (forall pg url r i e,
      detail_goto_raises pg = true \/ new_page_raises pg = true \/ close_raises pg = true ->
      as_dict fo (_extract_place_details_optimized rt fo web pg url r i e) = None) /\
  (forall u1 u2 u3 u4 u5 d1 d2 d4 d5,
      outcome_of rt fo web br cfg u1 = RDict d1 ->
      outcome_of rt fo web br cfg u2 = RDict d2 ->
      record_of rt fo web br cfg u3 = None ->
      outcome_of rt fo web br cfg u4 = RDict d4 ->
      outcome_of rt fo web br cfg u5 = RDict d5 ->
      run_window rt fo web br cfg [u1; u2; u3; u4; u5] = Some [d1; d2; d4; d5] /\
      length [d1; d2; d4; d5] = 4).
Proof.
  split; [apply run_window_records |].
  split.
  { intros before u after Hu. rewrite run_window_records, omap_app. csimpl.
    now rewrite Hu. }
  split; [apply failed_task_no_record |].
  intros u1 u2 u3 u4 u5 d1 d2 d4 d5 H1 H2 H3 H4 H5.
  split; [| reflexivity].
  assert (R1 : record_of rt fo web br cfg u1 = Some d1)
    by (unfold record_of; now rewrite H1).
  assert (R2 : record_of rt fo web br cfg u2 = Some d2)
    by (unfold record_of; now rewrite H2).
  assert (R4 : record_of rt fo web br cfg u4 = Some d4)
    by (unfold record_of; now rewrite H4).
  assert (R5 : record_of rt fo web br cfg u5 = Some d5)
    by (unfold record_of; now rewrite H5).
  rewrite run_window_records. csimpl.
  rewrite R1. csimpl. rewrite R2. csimpl. rewrite H3. csimpl.
  rewrite R4. csimpl. rewrite R5. reflexivity.
Qed.

Lemma filter_sublist {B} (f : B -> bool) (l : list B) : sublist (List.filter f l) l.
Proof.
  induction l as [| b l IH]; simpl; [constructor |].
  destruct (f b); now constructor.
Qed.

Lemma record_urls (br : Browser fo) (cfg : Config) (l : list string) :
  map (field "url") (omap (record_of rt fo web br cfg) l) =
  map (fun u => Some (VStr u)) (List.filter (succeeds rt fo web br cfg) l).
Proof.
  induction l as [| u l IH]; [reflexivity |]. csimpl. unfold succeeds.
  destruct (record_of rt fo web br cfg u) as [d |] eqn:Hu; simpl.
  - f_equal; [| exact IH]. eapply task_record_url. exact Hu.
  - exact IH.
Qed.

(** C5.  For a non-negative [max_results], the batch extraction returns
    the records of the first [max_results] URLs of its input, in the order
    of the input, the URLs whose task yields no record left out: the URLs
    of the records are a sublist of these first URLs.  The times at which
    the concurrent tasks settle have no part in it. *)
Theorem extraction_follows_input_order (br : Browser fo) (cfg : Config)
    (places : list string) (Hm : (0 <= max_results cfg)%Z) :
  let first := take (Z.to_nat (max_results cfg)) places in
  let kept := List.filter (succeeds rt fo web br cfg) first in
  extract_all rt fo web br cfg places [] =
    Some (omap (record_of rt fo web br cfg) first) /\
  map (field "url") (omap (record_of rt fo web br cfg) first) =
    map (fun u => Some (VStr u)) kept /\
  sublist kept first /\
  (forall times,
      extract_all rt fo web (with_finish_time fo br times) cfg places [] =
      extract_all rt fo web br cfg places []).
Proof.
  cbv zeta.
  assert (Hslice : Py.slice_to places (max_results cfg)
                   = take (Z.to_nat (max_results cfg)) places).
  { unfold Py.slice_to. apply Z.leb_le in Hm. now rewrite Hm. }
  split; [| split; [| split]].
  - now rewrite extract_all_records, Hslice.
  - apply record_urls.
  - apply filter_sublist.
  - intros times. now rewrite !extract_all_records.
Qed.

End Isolation.

(** C2, witness: the third of five detail pages times out, and the tasks
    complete in the reverse of the order in which they were started. *)
Lemma window_isolates_failures_witness :
  run_window Samples.insertion_order Samples.no_scores
    (Samples.serving Samples.six_emails_page) Samples.third_fails
    (Samples.plain_config 10) Samples.five_places =
  Some (map Samples.place_record
          ["https://www.google.com/maps/place/A"; "https://www.google.com/maps/place/B";
           "https://www.google.com/maps/place/D"; "https://www.google.com/maps/place/E"]) /\
  length (map Samples.place_record
          ["https://www.google.com/maps/place/A"; "https://www.google.com/maps/place/B";
           "https://www.google.com/maps/place/D"; "https://www.google.com/maps/place/E"]) = 4.
Proof.
  apply (proj2 (proj2 (proj2
           (window_isolates_failures Samples.insertion_order Samples.no_scores
              (Samples.serving Samples.six_emails_page) Samples.third_fails
              (Samples.plain_config 10)))));
    reflexivity.
Defined.

(** C5, witness: a limit of four on the ten sample places, the third of
    which fails. *)
Lemma extraction_follows_input_order_witness :
  (0 <= Maps.max_results (Samples.plain_config 4))%Z /\
  extract_all Samples.insertion_order Samples.no_scores
    (Samples.serving Samples.six_emails_page) Samples.third_fails
    (Samples.plain_config 4) Samples.ten_places [] =
  Some (map Samples.place_record
          ["https://www.google.com/maps/place/A"; "https://www.google.com/maps/place/B";
           "https://www.google.com/maps/place/D"]).
Proof.
  assert (H : (0 <= Maps.max_results (Samples.plain_config 4))%Z) by (simpl; lia).
  split; [exact H |].
  exact (proj1 (extraction_follows_input_order Samples.insertion_order Samples.no_scores
                  (Samples.serving Samples.six_emails_page) Samples.third_fails
                  (Samples.plain_config 4) Samples.ten_places H)).
Defined.

End BatchFacts.

(** ** google_maps_optimized.py: the score field *)

Module ScoreFacts.
Import Maps.

Section Score.
Variable fo : FloatOps.

Lemma field_put_same (k : string) (v : value fo) (d : record fo) :
  field k (put k v d) = Some v.
Proof.
  induction d as [| [k0 v0] d IH]; simpl.
  - now rewrite String.eqb_refl.
  - destruct (String.eqb k k0) eqn:H0; simpl.
    + now rewrite String.eqb_refl.
    + now rewrite H0.
Qed.

(** The last step of the detail extraction, on a record that has no score
    yet: the score is set exactly when the record has both a rating and a
    review count, and then to [round(rating * math.log(reviewsCount + 1,
    10), 2)], in the float operations of the interpreter. *)
Lemma total_score_rule (d d' : record fo) :
  field "totalScore" d = None ->
  step_total_score fo d = Ok d' ->
  match field "rating" d, field "reviewsCount" d with
  | Some (VFloat rating), Some (VInt reviewsCount) =>
      field "totalScore" d' =
      Some (VFloat (py_round fo (fmul fo rating (math_log fo (reviewsCount + 1) 10)) 2))
  | Some _, Some _ => False
  | _, _ => field "totalScore" d' = None
  end.
Proof.
  intros Hnone. unfold step_total_score, has_key.
  destruct (field "rating" d) as [[| | | rating | |] |];
    destruct (field "reviewsCount" d) as [[| | reviewsCount | | |] |];
    simpl; intros H; try discriminate; try (injection H as <-; assumption).
  injection H as <-. apply field_put_same.
Qed.

End Score.

End ScoreFacts.

(** ** website_enrichment.py: what the extracted values look like *)

Module ContactFacts.
Import Coll CollFacts Enrich EmailFacts SocialFacts.

Lemma lower_ascii_idem (c : ascii) : Py.lower_ascii (Py.lower_ascii c) = Py.lower_ascii c.
Proof. destruct c as [[] [] [] [] [] [] [] []]; reflexivity. Qed.

Lemma lower_idem (s : string) : Py.lower (Py.lower s) = Py.lower s.
Proof.
  induction s as [| c s IH]; simpl; [reflexivity |].
  now rewrite lower_ascii_idem, IH.
Qed.

(** What [_is_valid_email] asks of an address. *)
Lemma valid_email_shape (email : string) :
  _is_valid_email email = true ->
  5 <= String.length email <= 100 /\ Py.contains email "@" = true /\
  Py.contains (nth 1 (Py.split_char "@" email) "") "." = true.
Proof.
  unfold _is_valid_email.
  destruct (negb (Py.truthy email)); [discriminate |]. cbn [orb].
  destruct (String.length email <? 5)%nat eqn:H5; [discriminate |].
  destruct (Py.contains email "@"); [| discriminate]. cbn [negb orb].
  destruct (Py.contains (nth 1 (Py.split_char "@" email) "") "."); [| discriminate].
  cbn [negb].
  destruct (100 <? String.length email)%nat eqn:H100; [discriminate |].
  apply Nat.ltb_ge in H5. apply Nat.ltb_ge in H100. intros _. auto.
Qed.

Lemma collected_emails_shape (p : Page) (e : string) :
  In e (collected_emails p) ->
  Py.lower e = e /\ Py.contains e "@" = true /\
  exists x, e = Py.lower x /\ _is_valid_email x = true /\ 5 <= String.length x <= 100.
Proof.
  intros He. apply In_collected_emails in He.
  assert (H : exists x, _is_valid_email x = true /\ e = Py.lower x).
  { destruct He as [(a & _ & _ & Hv & ->) | (c & _ & Hv & _ & ->)]; eauto. }
  destruct H as (x & Hv & ->).
  destruct (valid_email_shape x Hv) as (Hlen & Hat & _).
  split; [apply lower_idem |]. split.
  - apply (contains_lower x "@"). exact Hat.
  - exists x. auto.
Qed.

(** X1.  Every address [_extract_emails] returns is the lower-casing of an
    address that passes [_is_valid_email], which therefore has between 5
    and 100 characters; the address returned is in lower case and contains
    an [@], and no address is returned twice.  (The bound is on the address
    as found: lower-casing text outside ASCII can make it longer.) *)
Theorem extracted_emails_well_formed (rt : Runtime) (Hrt : lawful rt) (p : Page) :
  NoDup (_extract_emails rt p) /\
  forall e, In e (_extract_emails rt p) ->
    Py.lower e = e /\ Py.contains e "@" = true /\
    exists x, e = Py.lower x /\ _is_valid_email x = true /\ 5 <= String.length x <= 100.
Proof.
  unfold _extract_emails. split.
  - pose proof (Hrt _ (NoDup_collected_emails p)) as Hp. rewrite Hp.
    apply NoDup_collected_emails.
  - intros e He.
    apply (In_set_iter rt _ e Hrt (NoDup_collected_emails p)) in He.
    exact (collected_emails_shape p e He).
Qed.

Lemma extracted_emails_well_formed_witness :
  lawful Samples.insertion_order /\
  NoDup (_extract_emails Samples.insertion_order Samples.six_emails_page).
Proof.
  assert (H : lawful Samples.insertion_order) by (intros l _; apply Permutation_refl).
  split; [exact H |].
  exact (proj1 (extracted_emails_well_formed Samples.insertion_order H
                  Samples.six_emails_page)).
Defined.

End ContactFacts.

(** ** website_enrichment.py: phone numbers *)

Module PhoneFacts.
Import Coll CollFacts Enrich EmailFacts.

Lemma In_take {A} (x : A) (n : nat) (l : list A) : In x (take n l) -> In x l.
Proof.
  intros H. apply list_elem_of_In. apply list_elem_of_In in H.
  now apply (subseteq_take n l).
Qed.

Lemma NoDup_take_of {A} (n : nat) (l : list A) : NoDup l -> NoDup (take n l).
Proof. intros H. exact (sublist_NoDup _ _ H (sublist_take l n)). Qed.

(** Splitting into words does not see the blanks that [strip] removes. *)
Lemma words_go_lstrip (s : string) :
  Py.words_go [] (Py.lstrip_by Py.is_space s) = Py.words_go [] s.
Proof.
  induction s as [| c s IH]; simpl; [reflexivity |].
  destruct (Py.is_space c) eqn:Hc; simpl; [exact IH | now rewrite Hc].
Qed.

Lemma words_go_rstrip (s : string) :
  forall cur, Py.words_go cur (Py.rstrip_by Py.is_space s) = Py.words_go cur s.
Proof.
  induction s as [| c s IH]; intros cur; [reflexivity |].
  cbn [Py.rstrip_by].
  destruct (Py.rstrip_by Py.is_space s) as [| c' r] eqn:Hr.
  - destruct (Py.is_space c) eqn:Hc.
    + cbn [Py.words_go]. rewrite Hc, <- (IH []). cbn [Py.words_go].
      now rewrite app_nil_r.
    + cbn [Py.words_go]. rewrite Hc. now rewrite <- (IH (c :: cur)).
  - cbn [Py.words_go]. destruct (Py.is_space c); rewrite <- IH; reflexivity.
Qed.

Lemma words_strip (s : string) : Py.words (Py.strip s) = Py.words s.
Proof. unfold Py.words, Py.strip. now rewrite words_go_rstrip, words_go_lstrip. Qed.

(** Reading a run of non-blank characters pushes them on the current
    word. *)
Lemma words_go_run (w rest : string) :
  forall cur,
    forallb (fun c => negb (Py.is_space c)) (list_ascii_of_string w) = true ->
    Py.words_go cur (w +:+ rest) = Py.words_go (rev (list_ascii_of_string w) ++ cur) rest.
Proof.
  induction w as [| c w IH]; intros cur H; [reflexivity |].
  simpl in H. apply andb_true_iff in H. destruct H as [Hc Hw].
  apply negb_true_iff in Hc.
  change (String c w +:+ rest) with (String c (w +:+ rest)).
  cbn [Py.words_go list_ascii_of_string rev].
  rewrite Hc, IH by assumption. now rewrite <- app_assoc.
Qed.

Lemma flush_word (cur : list ascii) :
  forallb (fun c => negb (Py.is_space c)) cur = true ->
  Forall (fun w => Py.truthy w = true /\
                   forallb (fun c => negb (Py.is_space c)) (list_ascii_of_string w) = true)
    (match cur with
     | [] => []
     | _ => [string_of_list_ascii (rev cur)]
     end).
Proof.
  intros H. destruct cur as [| c cur]; constructor; [| constructor].
  split.
  - simpl. destruct (rev cur); reflexivity.
  - rewrite list_ascii_of_string_of_list_ascii. apply forallb_forall.
    intros x Hx. apply in_rev in Hx. revert x Hx. now apply forallb_forall.
Qed.

(** The words of a string are non-empty and hold no blank. *)
Lemma words_go_words (s : string) :
  forall cur,
    forallb (fun c => negb (Py.is_space c)) cur = true ->
    Forall (fun w => Py.truthy w = true /\
                     forallb (fun c => negb (Py.is_space c)) (list_ascii_of_string w) = true)
      (Py.words_go cur s).
Proof.
  induction s as [| c s IH]; intros cur H; cbn [Py.words_go].
  - now apply flush_word.
  - destruct (Py.is_space c) eqn:Hc.
    + apply Forall_app. split; [now apply flush_word | now apply IH].
    + apply IH. cbn [forallb]. rewrite Hc. exact H.
Qed.

Lemma append_empty_r (s : string) : s +:+ EmptyString = s.
Proof.
  induction s as [| c s IH]; [reflexivity |].
  change (String c (s +:+ EmptyString) = String c s). now rewrite IH.
Qed.

(** Joining words with single blanks and splitting again gives the words
    back. *)
Lemma words_of_join (ws : list string) :
  Forall (fun w => Py.truthy w = true /\
                   forallb (fun c => negb (Py.is_space c)) (list_ascii_of_string w) = true) ws ->
  Py.words (Py.join " " ws) = ws.
Proof.
  unfold Py.words. induction ws as [| w ws IH]; intros H; [reflexivity |].
  inversion H as [| ? ? [Ht Hw] Hrest]; subst.
  assert (Hflush : forall rest,
             match rev (list_ascii_of_string w) ++ [] with
             | [] => []
             | _ => [string_of_list_ascii (rev (rev (list_ascii_of_string w) ++ []))]
             end ++ rest = w :: rest).
  { intros rest. rewrite app_nil_r, rev_involutive, string_of_list_ascii_of_string.
    destruct w as [| c w]; [discriminate |]. simpl.
    destruct (rev (list_ascii_of_string w) ++ [c]) eqn:E; [| reflexivity].
    apply app_eq_nil in E. destruct E; discriminate. }
  destruct ws as [| w' ws].
  - cbn [Py.join].
    replace (Py.words_go [] w) with (Py.words_go [] (w +:+ EmptyString))
      by now rewrite append_empty_r.
    rewrite words_go_run by assumption. cbn [Py.words_go].
    exact (eq_trans (eq_sym (app_nil_r _)) (Hflush [])).
  - change (Py.join " " (w :: w' :: ws)) with (w +:+ " " +:+ Py.join " " (w' :: ws)).
    specialize (IH Hrest). remember (Py.join " " (w' :: ws)) as rest eqn:Hj.
    rewrite words_go_run by assumption.
    change (" " +:+ rest) with (String " " rest).
    cbn [Py.words_go]. change (Py.is_space " ") with true. cbn iota.
    rewrite IH. apply Hflush.
Qed.

Lemma words_clean_phone (phone : string) : Py.words (_clean_phone phone) = Py.words phone.
Proof.
  unfold _clean_phone. rewrite words_strip. apply words_of_join.
  apply words_go_words. reflexivity.
Qed.

Lemma clean_phone_fixed (phone : string) :
  _clean_phone (_clean_phone phone) = _clean_phone phone.
Proof.
  unfold _clean_phone at 1 3. now rewrite !words_strip, words_clean_phone.
Qed.

(** X2.  [_clean_phone] changes blanks only: the cleaned number has the words
    of the number it is given, in their order, and cleaning it again
    changes nothing. *)
Theorem clean_phone_keeps_words (phone : string) :
  Py.words (_clean_phone phone) = Py.words phone /\
  _clean_phone (_clean_phone phone) = _clean_phone phone.
Proof. split; [apply words_clean_phone | apply clean_phone_fixed]. Qed.

Lemma fold_left_invariant {A B} (I : A -> Prop) (f : A -> B -> A) (l : list B) (a : A) :
  I a -> (forall a b, I a -> I (f a b)) -> I (fold_left f l a).
Proof.
  intros Ha Hstep. revert a Ha. induction l as [| b l IH]; intros a Ha; simpl;
    [assumption |].
  apply IH. now apply Hstep.
Qed.

Lemma add_phone_kept (phones : list string) (phone : string) :
  (NoDup phones /\
   forall e, In e phones -> 10 <= String.length e /\ _clean_phone e = e) ->
  NoDup (add_phone phones phone) /\
  forall e, In e (add_phone phones phone) ->
    10 <= String.length e /\ _clean_phone e = e.
Proof.
  intros [Hnd Hall]. unfold add_phone.
  destruct (Py.truthy (_clean_phone phone)); cbn [andb]; [| now split].
  destruct (10 <=? String.length (_clean_phone phone))%nat eqn:Hlen; [| now split].
  apply Nat.leb_le in Hlen. split; [now apply NoDup_set_add |].
  intros e He. apply In_set_add in He. destruct He as [-> | He]; [| now apply Hall].
  split; [exact Hlen | apply clean_phone_fixed].
Qed.

Lemma collected_phones_kept (p : Page) :
  NoDup (collected_phones p) /\
  forall e, In e (collected_phones p) ->
    10 <= String.length e /\ _clean_phone e = e.
Proof.
  unfold collected_phones.
  apply (fold_left_invariant
           (fun s => NoDup s /\
                     forall e, In e s -> 10 <= String.length e /\ _clean_phone e = e)).
  - unfold add_text_phones.
    apply (fold_left_invariant
             (fun s => NoDup s /\
                       forall e, In e s -> 10 <= String.length e /\ _clean_phone e = e)).
    + apply (fold_left_invariant
               (fun s => NoDup s /\
                         forall e, In e s -> 10 <= String.length e /\ _clean_phone e = e)).
      * split; [constructor | intros e []].
      * intros s a Hs. unfold add_tel.
        destruct (Py.startswith (href a) "tel:"); [now apply add_phone_kept | exact Hs].
    + intros s pattern Hs. apply fold_left_invariant; [exact Hs |].
      intros s' ph Hs'. now apply add_phone_kept.
  - intros s text Hs. unfold add_text_phones.
    apply fold_left_invariant; [exact Hs |].
    intros s' pattern Hs'. apply fold_left_invariant; [exact Hs' |].
    intros s'' ph Hs''. now apply add_phone_kept.
Qed.

(** X3.  Every phone number [_extract_phones] returns has at least 10
    characters and is in the normal form of [_clean_phone] (cleaning it
    again changes nothing); no number is returned twice. *)
Theorem extracted_phones_normalised (rt : Runtime) (Hrt : lawful rt) (p : Page) :
  NoDup (_extract_phones rt p) /\
  forall ph, In ph (_extract_phones rt p) ->
    10 <= String.length ph /\ _clean_phone ph = ph.
Proof.
  destruct (collected_phones_kept p) as [Hnd Hall]. unfold _extract_phones. split.
  - apply NoDup_take_of. pose proof (Hrt _ Hnd) as Hp. now rewrite Hp.
  - intros ph Hph. apply In_take in Hph.
    apply (In_set_iter rt _ ph Hrt Hnd) in Hph. now apply Hall.
Qed.

Lemma extracted_phones_normalised_witness :
  lawful Samples.insertion_order /\
  10 <= String.length "+1 555 123 4567" /\
  _clean_phone "+1 555 123 4567" = "+1 555 123 4567".
Proof.
  assert (H : lawful Samples.insertion_order) by (intros l _; apply Permutation_refl).
  split; [exact H |].
  apply (proj2 (extracted_phones_normalised Samples.insertion_order H
                  Scenes.contact_details_page)).
  vm_compute. now left.
Defined.

End PhoneFacts.

(** ** website_enrichment.py: addresses *)

Module AddressFacts.
Import Coll CollFacts Enrich EmailFacts PhoneFacts.

Lemma take_str_length (n : nat) (s : string) : String.length (Py.take_str n s) <= n.
Proof.
  revert s. induction n as [| n IH]; intros s; [simpl; lia |].
  destruct s as [| c s]; simpl; [lia |]. specialize (IH s). lia.
Qed.

Lemma add_block_from (addresses : list string) (text : string) (a : string) :
  In a (add_block addresses text) ->
  In a addresses \/
  (a = Py.take_str 200 text /\ a <> EmptyString /\
   Re.search street_pattern text <> None /\ Re.search zip_pattern text <> None).
Proof.
  unfold add_block.
  destruct (Re.search street_pattern text) as [m |] eqn:Hs; [| tauto].
  destruct (Re.search zip_pattern text) as [m' |] eqn:Hz; [| tauto].
  intros H. apply In_set_add in H. destruct H as [-> | H]; [right | tauto].
  split; [reflexivity |]. split; [| split; discriminate].
  destruct text as [| c text]; [discriminate Hs | discriminate].
Qed.

Lemma add_ld_from (addresses : list string) (script : LdJson) (a : string) :
  In a (add_ld addresses script) ->
  In a addresses \/
  (a <> EmptyString /\
   exists street city state zip_code,
     script = LdAddress street city state zip_code /\
     a = Py.strip_chars
           (street +:+ ", " +:+ city +:+ ", " +:+ state +:+ " " +:+ zip_code) ", ").
Proof.
  unfold add_ld. destruct script as [| | street city state zip_code]; [tauto | tauto |].
  destruct (Py.truthy (Py.strip_chars _ ", ")) eqn:Ht; [| tauto].
  intros H. apply In_set_add in H. destruct H as [-> | H]; [right | tauto].
  split.
  - intros E. rewrite E in Ht. discriminate.
  - eauto 6.
Qed.

Lemma collected_addresses_from (p : Page) :
  NoDup (collected_addresses p) /\
  forall a, In a (collected_addresses p) ->
    a <> EmptyString /\
    ((exists text, In text (address_blocks p) /\ a = Py.take_str 200 text /\
                   Re.search street_pattern text <> None /\
                   Re.search zip_pattern text <> None) \/
     (exists street city state zip_code,
         In (LdAddress street city state zip_code) (ld_json p) /\
         a = Py.strip_chars
               (street +:+ ", " +:+ city +:+ ", " +:+ state +:+ " " +:+ zip_code) ", ")).
Proof.
  unfold collected_addresses.
  generalize (address_blocks p) as blocks, (ld_json p) as scripts.
  intros blocks scripts.
  assert (Hb : forall bs s,
             (NoDup s /\ forall a, In a s -> a <> EmptyString /\
                exists text, In text blocks /\ a = Py.take_str 200 text /\
                   Re.search street_pattern text <> None /\
                   Re.search zip_pattern text <> None) ->
             incl bs blocks ->
             let s' := fold_left add_block bs s in
             NoDup s' /\ forall a, In a s' -> a <> EmptyString /\
                exists text, In text blocks /\ a = Py.take_str 200 text /\
                   Re.search street_pattern text <> None /\
                   Re.search zip_pattern text <> None).
  { induction bs as [| t bs IH]; intros s Hs Hincl; [exact Hs |].
    simpl. apply IH; [| intros x Hx; apply Hincl; now right].
    destruct Hs as [Hnd Hall]. split.
    - unfold add_block. destruct (Re.search street_pattern t); [| assumption].
      destruct (Re.search zip_pattern t); [now apply NoDup_set_add | assumption].
    - intros a Ha. apply add_block_from in Ha.
      destruct Ha as [Ha | (-> & Hne & Hs & Hz)]; [now apply Hall |].
      split; [exact Hne |]. exists t. split; [apply Hincl; now left | tauto]. }
  specialize (Hb blocks [] (conj (NoDup_nil_2) (fun a (H : In a []) => match H with end))
                (fun x Hx => Hx)).
  cbv zeta in Hb. revert Hb. generalize (fold_left add_block blocks []) as s0.
  assert (Hl : forall ls s,
             incl ls scripts ->
             (NoDup s /\ forall a, In a s -> a <> EmptyString /\
                ((exists text, In text blocks /\ a = Py.take_str 200 text /\
                     Re.search street_pattern text <> None /\
                     Re.search zip_pattern text <> None) \/
                 (exists street city state zip_code,
                     In (LdAddress street city state zip_code) scripts /\
                     a = Py.strip_chars
                           (street +:+ ", " +:+ city +:+ ", " +:+ state +:+ " " +:+ zip_code)
                           ", "))) ->
             let s' := fold_left add_ld ls s in
             NoDup s' /\ forall a, In a s' -> a <> EmptyString /\
                ((exists text, In text blocks /\ a = Py.take_str 200 text /\
                     Re.search street_pattern text <> None /\
                     Re.search zip_pattern text <> None) \/
                 (exists street city state zip_code,
                     In (LdAddress street city state zip_code) scripts /\
                     a = Py.strip_chars
                           (street +:+ ", " +:+ city +:+ ", " +:+ state +:+ " " +:+ zip_code)
                           ", "))).
  { induction ls as [| sc ls IH]; intros s Hincl Hs; [exact Hs |].
    simpl. apply IH; [intros x Hx; apply Hincl; now right |].
    destruct Hs as [Hnd Hall]. split.
    - unfold add_ld. destruct sc; try assumption.
      destruct (Py.truthy _); [now apply NoDup_set_add | assumption].
    - intros a Ha. apply add_ld_from in Ha.
      destruct Ha as [Ha | (Hne & street & city & state & zip_code & -> & ->)];
        [now apply Hall |].
      split; [exact Hne |]. right. exists street, city, state, zip_code.
      split; [apply Hincl; now left | reflexivity]. }
  intros s0 [Hnd Hall]. apply Hl; [intros x Hx; exact Hx |].
  split; [exact Hnd |]. intros a Ha. destruct (Hall a Ha) as [Hne Hex]. tauto.
Qed.

(** X4.  Every address [_extract_addresses] returns is non-empty and is either
    the text of an address block cut to 200 characters, the text holding a
    street number with a word after it and a run of five digits, or the
    fields of a structured address joined and stripped of commas and
    blanks; no address is returned twice. *)
Theorem extracted_addresses_from (rt : Runtime) (Hrt : lawful rt) (p : Page) :
  NoDup (_extract_addresses rt p) /\
  forall a, In a (_extract_addresses rt p) ->
    a <> EmptyString /\
    ((exists text, In text (address_blocks p) /\ a = Py.take_str 200 text /\
                   String.length a <= 200 /\
                   Re.search street_pattern text <> None /\
                   Re.search zip_pattern text <> None) \/
     (exists street city state zip_code,
         In (LdAddress street city state zip_code) (ld_json p) /\
         a = Py.strip_chars
               (street +:+ ", " +:+ city +:+ ", " +:+ state +:+ " " +:+ zip_code) ", ")).
Proof.
  destruct (collected_addresses_from p) as [Hnd Hall]. unfold _extract_addresses. split.
  - apply NoDup_take_of. pose proof (Hrt _ Hnd) as Hp. now rewrite Hp.
  - intros a Ha. apply In_take in Ha. apply (In_set_iter rt _ a Hrt Hnd) in Ha.
    destruct (Hall a Ha) as [Hne [(text & Hin & -> & Hs & Hz) | Hld]].
    + split; [exact Hne |]. left. exists text.
      repeat split; try assumption. apply take_str_length.
    + split; [exact Hne | now right].
Qed.

Lemma extracted_addresses_from_witness :
  lawful Samples.insertion_order /\
  NoDup (_extract_addresses Samples.insertion_order Scenes.contact_details_page) /\
  "1 High St, Leeds" <> EmptyString.
Proof.
  assert (H : lawful Samples.insertion_order) by (intros l _; apply Permutation_refl).
  split; [exact H |].
  destruct (extracted_addresses_from Samples.insertion_order H
              Scenes.contact_details_page) as [Hnd Hall].
  split; [exact Hnd |].
  apply (Hall "1 High St, Leeds"). vm_compute. right. now left.
Defined.

End AddressFacts.

(** ** website_enrichment.py: more on the social links *)

Module SocialMoreFacts.
Import Coll CollFacts Enrich SocialFacts SocialValueFacts.

Lemma scan_anchors_app (rt : Runtime) (base_url : string) (pre post : list Anchor)
    (d : dict) :
  scan_anchors rt base_url (pre ++ post) d =
  match scan_anchors rt base_url pre d with
  | Ok d1 => scan_anchors rt base_url post d1
  | Raise => Raise
  end.
Proof.
  revert d. induction pre as [| a pre IH]; intros d; simpl; [reflexivity |].
  destruct (Py.startswith (href a) "/"); [| apply IH].
  destruct (urljoin rt base_url (href a)); [apply IH | reflexivity].
Qed.

(** X5.  The first match of a platform wins.  Once the scan of some first
    anchors of a page has stored a URL for a platform, that URL is the
    platform's URL in the result: neither a later anchor nor the scan of
    the raw markup replaces it. *)
Theorem social_first_match_wins (rt : Runtime) (p : Page) (base_url : string)
    (pre post : list Anchor) (d1 d : dict) (platform url : string) :
  anchors p = pre ++ post ->
  scan_anchors rt base_url pre [] = Ok d1 ->
  dict_get platform d1 = Some url ->
  _extract_social_media rt p base_url = Ok d ->
  dict_get platform d = Some url.
Proof.
  intros Hsplit Hpre Hget. unfold _extract_social_media.
  rewrite Hsplit, scan_anchors_app, Hpre.
  destruct (scan_anchors rt base_url post d1) as [d2 |] eqn:Hpost; [| discriminate].
  intros H. injection H as <-. apply scan_markup_keeps.
  eapply scan_anchors_keeps; [exact Hget | exact Hpost].
Qed.

Lemma social_first_match_wins_witness :
  dict_get "facebook" [("facebook", "https://facebook.com/first")] =
  Some "https://facebook.com/first".
Proof.
  exact (social_first_match_wins Samples.insertion_order Samples.two_anchor_page
           "https://acme.io"
           [ {| href := "facebook.com/first"; anchor_text := "f" |} ]
           [ {| href := "https://facebook.com/second"; anchor_text := "s" |} ]
           [("facebook", "https://facebook.com/first")]
           [("facebook", "https://facebook.com/first")]
           "facebook" "https://facebook.com/first"
           eq_refl eq_refl eq_refl eq_refl).
Defined.

(** Every URL in the mapping starts with [http]. *)
Lemma values_http_add (k v : string) (d : dict) :
  dict_mem k d = false -> Py.startswith v "http" = true ->
  (forall k' v', In (k', v') d -> Py.startswith v' "http" = true) ->
  forall k' v', In (k', v') (dict_set k v d) -> Py.startswith v' "http" = true.
Proof.
  intros Hm Hv Hd k' v' Hin. rewrite (dict_set_new _ _ _ Hm) in Hin.
  apply in_app_iff in Hin. destruct Hin as [Hin | [Heq | []]]; [eauto |].
  now injection Heq as <- <-.
Qed.

Lemma with_scheme_http (s : string) :
  Py.startswith (if Py.startswith s "http" then s else "https://" +:+ s) "http" = true.
Proof. destruct (Py.startswith s "http") eqn:H; [exact H | reflexivity]. Qed.

Lemma scan_platforms_http (href : string) (d : dict) :
  (forall k v, In (k, v) d -> Py.startswith v "http" = true) ->
  forall k v, In (k, v) (scan_platforms href d) -> Py.startswith v "http" = true.
Proof.
  unfold scan_platforms. generalize social_patterns as entries. intros entries.
  revert href d. induction entries as [| [platform pattern] entries IH];
    intros href d Hd; simpl; [assumption |].
  destruct (dict_mem platform d) eqn:Hm; [now apply IH |].
  destruct (Re.search pattern href); [| now apply IH].
  apply IH. apply values_http_add; [assumption | apply with_scheme_http | assumption].
Qed.

Lemma scan_anchors_http (rt : Runtime) (base_url : string) (a_tags : list Anchor)
    (d d' : dict) :
  (forall k v, In (k, v) d -> Py.startswith v "http" = true) ->
  scan_anchors rt base_url a_tags d = Ok d' ->
  forall k v, In (k, v) d' -> Py.startswith v "http" = true.
Proof.
  revert d. induction a_tags as [| a a_tags IH]; intros d Hd; simpl.
  - intros H. injection H as <-. assumption.
  - destruct (Py.startswith (href a) "/").
    + destruct (urljoin rt base_url (href a)); [| discriminate].
      apply IH. now apply scan_platforms_http.
    + apply IH. now apply scan_platforms_http.
Qed.

Lemma scan_markup_http (html : string) (d : dict) :
  (forall k v, In (k, v) d -> Py.startswith v "http" = true) ->
  forall k v, In (k, v) (scan_markup html d) -> Py.startswith v "http" = true.
Proof.
  unfold scan_markup. generalize social_patterns as entries. intros entries.
  revert d. induction entries as [| [platform pattern] entries IH];
    intros d Hd; simpl; [assumption |].
  destruct (dict_mem platform d) eqn:Hm; [now apply IH |].
  destruct (Re.findall pattern html); [now apply IH |].
  apply IH. apply values_http_add; [assumption | apply with_scheme_http | assumption].
Qed.

(** X6.  Whatever the page, every URL that [_extract_social_media] stores
    starts with [http], and its key is one of the ten platforms, each at
    most once. *)
Theorem social_values_have_scheme (rt : Runtime) (p : Page) (base_url : string) (d : dict) :
  _extract_social_media rt p base_url = Ok d ->
  (forall platform url, In (platform, url) d ->
     Py.startswith url "http" = true /\ In platform platforms) /\
  NoDup (keys d).
Proof.
  intros H. pose proof (extract_social_media_caps rt p base_url d H) as [Hnd Hincl].
  split; [| exact Hnd]. intros platform url Hin. split.
  - unfold _extract_social_media in H.
    destruct (scan_anchors rt base_url (anchors p) []) as [d0 |] eqn:Ha; [| discriminate].
    injection H as <-. revert platform url Hin. apply scan_markup_http.
    eapply scan_anchors_http; [| exact Ha]. intros k v [].
  - apply Hincl. unfold keys. apply in_map_iff. now exists (platform, url).
Qed.

Lemma social_values_have_scheme_witness :
  Py.startswith "https://acme" "http" = true /\ In "facebook" platforms.
Proof.
  refine (proj1 (social_values_have_scheme Samples.insertion_order
                   Samples.script_link_page "https://acme.io"
                   [("facebook", "https://acme")] _) "facebook" "https://acme" _).
  - vm_compute. reflexivity.
  - now left.
Defined.

End SocialMoreFacts.

(** ** website_enrichment.py: lookups after a merge *)

Module MergeMoreFacts.
Import Coll CollFacts Enrich SocialFacts MergeFacts.

(** X7.  The social merge is a union that prefers the target: after
    [_merge_data], a platform has the URL the target had for it, and
    otherwise the URL of the source. *)
Theorem merge_social_lookup (target source : dict) (platform : string) :
  dict_get platform (merge_social target source) =
  match dict_get platform target with
  | Some url => Some url
  | None => dict_get platform source
  end.
Proof.
  unfold merge_social. revert target.
  induction source as [| [p u] source IH]; intros target; simpl.
  - now destruct (dict_get platform target).
  - destruct (dict_mem p target) eqn:Hm.
    + rewrite IH. destruct (dict_get platform target) as [v |] eqn:Hg; [reflexivity |].
      destruct (String.eqb platform p) eqn:Hp; [| reflexivity].
      apply String.eqb_eq in Hp. subst p.
      apply dict_get_none_mem in Hg. congruence.
    + rewrite IH, (dict_set_new _ _ _ Hm), dict_get_app. simpl.
      destruct (dict_get platform target) as [v |] eqn:Hg; [reflexivity |].
      destruct (String.eqb platform p); reflexivity.
Qed.

End MergeMoreFacts.

(** ** website_enrichment.py: the requests of an enrichment *)

Module CrawlFacts.
Import Coll CollFacts Enrich EmailFacts SocialFacts CapFacts PhoneFacts.

Section Crawl.
Variable rt : Runtime.
Variable w : Web.

(** A page extraction makes one request, a [GET] of its URL. *)
Lemma extract_from_page_eq (url : string) (log : list Request) :
  _extract_from_page rt w url log =
  (fst (_extract_from_page rt w url log), log ++ [GET url]).
Proof. reflexivity. Qed.

Lemma probe_paths_sound (base : string) (paths : list string) :
  forall log u,
    fst (probe_paths w base paths log) = Some u ->
    exists path, In path paths /\ u = base +:+ path.
Proof.
  induction paths as [| q paths IH]; intros log u; cbn [probe_paths].
  - discriminate.
  - unfold bind, head.
    destruct (http_head w log (base +:+ q)) as [status |].
    + destruct (status =? 200)%nat.
      * cbn. intros H. injection H as <-. exists q. split; [now left | reflexivity].
      * intros H. apply IH in H. destruct H as (path & Hin & ->). exists path.
        split; [now right | reflexivity].
    + intros H. apply IH in H. destruct H as (path & Hin & ->). exists path.
      split; [now right | reflexivity].
Qed.

(** The probes are [HEAD] requests, made in the order of the paths, and
    stop at the first path that answers 200. *)
Lemma probe_paths_first_hit (base : string) (pre : list string) (path : string)
    (post : list string) :
  (forall lg q, In q pre -> http_head w lg (base +:+ q) <> Some 200) ->
  (forall lg, http_head w lg (base +:+ path) = Some 200) ->
  forall log,
    probe_paths w base (pre ++ path :: post) log =
    (Some (base +:+ path),
     log ++ map (fun q => HEAD (base +:+ q)) (pre ++ [path])).
Proof.
  intros Hpre Hpath. induction pre as [| q pre IH]; intros log.
  - cbn [probe_paths app]. unfold bind, head. rewrite Hpath. reflexivity.
  - cbn [probe_paths app]. unfold bind, head.
    assert (Hq : http_head w log (base +:+ q) <> Some 200) by (apply Hpre; now left).
    assert (Hrest : forall lg q', In q' pre -> http_head w lg (base +:+ q') <> Some 200)
      by (intros lg q' Hin; apply Hpre; now right).
    destruct (http_head w log (base +:+ q)) as [status |].
    + destruct (status =? 200)%nat eqn:Hs.
      * apply Nat.eqb_eq in Hs. congruence.
      * rewrite (IH Hrest). cbn [map]. now rewrite <- app_assoc.
    + rewrite (IH Hrest). cbn [map]. now rewrite <- app_assoc.
Qed.

Lemma probe_paths_no_hit (base : string) (paths : list string) :
  (forall lg q, In q paths -> http_head w lg (base +:+ q) <> Some 200) ->
  forall log,
    probe_paths w base paths log =
    (None, log ++ map (fun q => HEAD (base +:+ q)) paths).
Proof.
  induction paths as [| q paths IH]; intros Hno log.
  - cbn. now rewrite app_nil_r.
  - cbn [probe_paths]. unfold bind, head.
    assert (Hq : http_head w log (base +:+ q) <> Some 200) by (apply Hno; now left).
    assert (Hrest : forall lg q', In q' paths -> http_head w lg (base +:+ q') <> Some 200)
      by (intros lg q' Hin; apply Hno; now right).
    destruct (http_head w log (base +:+ q)) as [status |].
    + destruct (status =? 200)%nat eqn:Hs.
      * apply Nat.eqb_eq in Hs. congruence.
      * rewrite (IH Hrest). cbn [map]. now rewrite <- app_assoc.
    + rewrite (IH Hrest). cbn [map]. now rewrite <- app_assoc.
Qed.

Lemma probe_paths_log (base : string) (paths : list string) :
  forall log, exists reqs,
    snd (probe_paths w base paths log) = log ++ reqs /\ length reqs <= length paths.
Proof.
  induction paths as [| q paths IH]; intros log.
  - exists []. cbn. split; [now rewrite app_nil_r | lia].
  - cbn [probe_paths]. unfold bind, head.
    destruct (IH (log ++ [HEAD (base +:+ q)])) as (reqs & Hlog & Hlen).
    destruct (http_head w log (base +:+ q)) as [status |].
    + destruct (status =? 200)%nat.
      * exists [HEAD (base +:+ q)]. cbn. split; [reflexivity | lia].
      * exists (HEAD (base +:+ q) :: reqs). rewrite Hlog, <- app_assoc. cbn. split;
          [reflexivity | lia].
    + exists (HEAD (base +:+ q) :: reqs). rewrite Hlog, <- app_assoc. cbn. split;
        [reflexivity | lia].
Qed.

(** X8.  Path probing comes before anchor scanning.  When a conventional path
    answers 200 to its probe and the paths before it do not, the contact
    page is that path on the base domain; the requests made are the
    [HEAD]s of the paths up to it, and the home page is not fetched. *)
Theorem contact_page_probe_first (url base : string) (pre : list string) (path : string)
    (post : list string) (log : list Request) :
  urlparse_base rt url = Some base ->
  contact_paths = pre ++ path :: post ->
  (forall lg q, In q pre -> http_head w lg (base +:+ q) <> Some 200) ->
  (forall lg, http_head w lg (base +:+ path) = Some 200) ->
  _find_contact_page rt w url log =
  (Ok (Some (base +:+ path)),
   log ++ map (fun q => HEAD (base +:+ q)) (pre ++ [path])).
Proof.
  intros Hbase Hsplit Hpre Hpath. unfold _find_contact_page. rewrite Hbase, Hsplit.
  unfold bind at 1. now rewrite (probe_paths_first_hit base pre path post Hpre Hpath).
Qed.

Lemma scan_contact_links_sound (base_url : string) (a_tags : list Anchor) (u : string) :
  scan_contact_links rt base_url a_tags = Some u ->
  exists a, In a a_tags /\
    existsb (fun keyword => Py.contains (Py.lower (anchor_text a)) keyword)
      contact_keywords = true /\
    ((Py.startswith (href a) "/" = true /\ urljoin rt base_url (href a) = Some u) \/
     (Py.startswith (href a) "/" = false /\ Py.startswith (href a) "http" = true /\
      u = href a)).
Proof.
  induction a_tags as [| a a_tags IH]; cbn [scan_contact_links]; [discriminate |].
  destruct (existsb _ contact_keywords) eqn:Hk.
  - destruct (Py.startswith (href a) "/") eqn:Hs.
    + intros H. exists a. split; [now left |]. split; [exact Hk | now left].
    + destruct (Py.startswith (href a) "http") eqn:Hh.
      * intros H. injection H as <-. exists a. split; [now left |].
        split; [exact Hk | right; auto].
      * intros H. destruct (IH H) as (a' & Hin & Hr). exists a'. split; [now right | exact Hr].
  - intros H. destruct (IH H) as (a' & Hin & Hr). exists a'. split; [now right | exact Hr].
Qed.

(** X9.  A contact page is a conventional path on the base domain, or the
    target of an anchor of the home page whose text holds one of the
    keywords: the anchor's root-relative link joined to the page URL, or
    its link starting with [http]. *)
Theorem contact_page_origin (url : string) (log : list Request) (u : string) :
  fst (_find_contact_page rt w url log) = Ok (Some u) ->
  (exists base path,
      urlparse_base rt url = Some base /\ In path contact_paths /\ u = base +:+ path) \/
  (exists lg page a,
      http_get w lg url = GetStatus 200 page /\ In a (anchors page) /\
      existsb (fun keyword => Py.contains (Py.lower (anchor_text a)) keyword)
        contact_keywords = true /\
      ((Py.startswith (href a) "/" = true /\ urljoin rt url (href a) = Some u) \/
       (Py.startswith (href a) "/" = false /\ Py.startswith (href a) "http" = true /\
        u = href a))).
Proof.
  unfold _find_contact_page.
  destruct (urlparse_base rt url) as [base |] eqn:Hbase; [| discriminate].
  unfold bind at 1.
  pose proof (probe_paths_sound base contact_paths log) as Hprobe.
  destruct (probe_paths w base contact_paths log) as [[contact_url |] log1];
    cbn [fst] in Hprobe.
  - cbn. intros H. injection H as <-. destruct (Hprobe _ eq_refl) as (path & Hin & ->).
    left. exists base, path. auto.
  - unfold bind, get, ret. cbn [fst].
    destruct (http_get w log1 url) as [| status page] eqn:Hget; [discriminate |].
    destruct (status =? 200)%nat eqn:Hs; [| discriminate].
    apply Nat.eqb_eq in Hs. subst status. intros H. injection H as H.
    apply scan_contact_links_sound in H. destruct H as (a & Hin & Hk & Hr).
    right. exists log1, page, a. auto.
Qed.

(** The search for a contact page makes at most eleven requests, after
    the ones already made. *)
Lemma find_contact_page_log (url : string) (log : list Request) :
  exists reqs,
    snd (_find_contact_page rt w url log) = log ++ reqs /\ length reqs <= 11.
Proof.
  unfold _find_contact_page.
  destruct (urlparse_base rt url) as [base |].
  - unfold bind at 1.
    destruct (probe_paths_log base contact_paths log) as (reqs & Hlog & Hlen).
    destruct (probe_paths w base contact_paths log) as [[contact_url |] log1];
      cbn [snd] in Hlog; subst log1.
    + exists reqs. cbn. split; [reflexivity |]. simpl in Hlen. lia.
    + exists (reqs ++ [GET url]). unfold bind, get, ret. cbn [snd].
      rewrite <- app_assoc. split; [reflexivity |]. rewrite length_app. simpl in *. lia.
  - exists []. cbn. split; [now rewrite app_nil_r | lia].
Qed.

(** [enrich_from_website] on a URL that is there, step by step. *)
Lemma enrich_unfold (url : string) (check_contact_page : bool) (log : list Request) :
  Py.truthy url = true ->
  enrich_from_website rt w (Some url) check_contact_page log =
  let main := fst (_extract_from_page rt w url log) in
  let acc := _merge_data empty_enrichment main in
  if check_contact_page then
    match _find_contact_page rt w url (log ++ [GET url]) with
    | (Raise, log2) => (acc, log2)
    | (Ok None, log2) => (finalize rt acc, log2)
    | (Ok (Some contact_url), log2) =>
        if Py.truthy contact_url then
          (finalize rt
             (_merge_data (with_contact_page acc contact_url)
                (fst (_extract_from_page rt w contact_url log2))),
           log2 ++ [GET contact_url])
        else (finalize rt acc, log2)
    end
  else (finalize rt acc, log ++ [GET url]).
Proof.
  intros Ht. unfold enrich_from_website. rewrite Ht. cbn [negb].
  unfold bind at 1. rewrite extract_from_page_eq. cbv zeta.
  destruct check_contact_page; [| reflexivity].
  unfold bind at 1.
  destruct (_find_contact_page rt w url (log ++ [GET url])) as [[[cu |] |] log2];
    try reflexivity.
  destruct (Py.truthy cu); [| reflexivity].
  unfold bind, ret. now rewrite extract_from_page_eq.
Qed.

Lemma enrich_no_url (website_url : option string) (check_contact_page : bool)
    (log : list Request) :
  (forall url, website_url = Some url -> Py.truthy url = false) ->
  enrich_from_website rt w website_url check_contact_page log = (empty_enrichment, log).
Proof.
  intros H. unfold enrich_from_website. destruct website_url as [url |]; [| reflexivity].
  now rewrite (H url eq_refl).
Qed.

Lemma enrich_requests (website_url : option string)
    (check_contact_page : bool) (log : list Request) :
  exists reqs,
    snd (enrich_from_website rt w website_url check_contact_page log) = log ++ reqs /\
    length reqs <= 13 /\
    (forall url, website_url = Some url -> Py.truthy url = true ->
       exists rest, reqs = GET url :: rest /\
                    (check_contact_page = false -> rest = [])).
Proof.
  destruct website_url as [url |].
  - destruct (Py.truthy url) eqn:Ht.
    + rewrite (enrich_unfold url check_contact_page log Ht). cbv zeta.
      destruct check_contact_page.
      * destruct (find_contact_page_log url (log ++ [GET url])) as (reqs & Hlog & Hlen).
        destruct (_find_contact_page rt w url (log ++ [GET url]))
          as [[[cu |] |] log2]; cbn [snd] in Hlog; subst log2.
        -- destruct (Py.truthy cu); cbn [snd].
           ++ exists (GET url :: reqs ++ [GET cu]). rewrite <- !app_assoc. cbn.
              split; [reflexivity |]. split; [rewrite length_app; simpl; lia |].
              intros u Hu _. injection Hu as <-. exists (reqs ++ [GET cu]).
              split; [reflexivity | discriminate].
           ++ exists (GET url :: reqs). rewrite <- !app_assoc. cbn.
              split; [reflexivity |]. split; [lia |].
              intros u Hu _. injection Hu as <-. exists reqs.
              split; [reflexivity | discriminate].
        -- exists (GET url :: reqs). cbn [snd]. rewrite <- !app_assoc. cbn.
           split; [reflexivity |]. split; [lia |].
           intros u Hu _. injection Hu as <-. exists reqs.
           split; [reflexivity | discriminate].
        -- exists (GET url :: reqs). cbn [snd]. rewrite <- !app_assoc. cbn.
           split; [reflexivity |]. split; [lia |].
           intros u Hu _. injection Hu as <-. exists reqs.
           split; [reflexivity | discriminate].
      * exists [GET url]. cbn [snd]. split; [reflexivity |]. split; [simpl; lia |].
        intros u Hu _. injection Hu as <-. exists []. auto.
    + rewrite enrich_no_url by (intros u Hu; congruence).
      exists []. cbn. split; [now rewrite app_nil_r |]. split; [lia |].
      intros u Hu Ht'. congruence.
  - rewrite enrich_no_url by discriminate.
    exists []. cbn. split; [now rewrite app_nil_r |]. split; [lia |]. discriminate.
Qed.

(** X10.  The requests of an enrichment come after the ones already made and
    are at most 13: the page, at most ten probes, the home page again for
    its anchors, the contact page.  Without the search for a contact page
    there is one request, the [GET] of the URL. *)
Theorem enrichment_request_budget (website_url : option string)
    (check_contact_page : bool) (log : list Request) :
  exists reqs,
    snd (enrich_from_website rt w website_url check_contact_page log) = log ++ reqs /\
    length reqs <= 13 /\
    (forall url, website_url = Some url -> Py.truthy url = true ->
       exists rest, reqs = GET url :: rest /\
                    (check_contact_page = false -> rest = [])).
Proof. apply enrich_requests. Qed.

(** X11.  A result names a contact page only when one was looked for, and the
    page it names is the last page fetched. *)
Theorem contact_page_url_fetched (website_url : option string)
    (check_contact_page : bool) (log : list Request) (contact_url : string) :
  contactPageUrl (fst (enrich_from_website rt w website_url check_contact_page log)) =
    Some contact_url ->
  check_contact_page = true /\ Py.truthy contact_url = true /\
  exists reqs,
    snd (enrich_from_website rt w website_url check_contact_page log) =
    log ++ reqs ++ [GET contact_url].
Proof.
  destruct website_url as [url |].
  - destruct (Py.truthy url) eqn:Ht.
    + rewrite (enrich_unfold url check_contact_page log Ht). cbv zeta.
      destruct check_contact_page; [| discriminate].
      destruct (find_contact_page_log url (log ++ [GET url])) as (reqs & Hlog & _).
      destruct (_find_contact_page rt w url (log ++ [GET url]))
        as [[[cu |] |] log2]; cbn [snd] in Hlog; subst log2; try discriminate.
      destruct (Py.truthy cu) eqn:Hcu; [| discriminate].
      cbn. intros H. injection H as <-. split; [reflexivity |]. split; [exact Hcu |].
      exists (GET url :: reqs). now rewrite <- !app_assoc.
    + rewrite enrich_no_url by (intros u Hu; congruence). discriminate.
  - rewrite enrich_no_url by discriminate. discriminate.
Qed.

End Crawl.

Lemma contact_page_probe_first_witness :
  _find_contact_page Samples.insertion_order
    (Scenes.with_page_at "https://acme.io/contact-us" Scenes.contact_details_page)
    "https://acme.io" [] =
  (Ok (Some "https://acme.io/contact-us"),
   [HEAD "https://acme.io/contact"; HEAD "https://acme.io/contact-us"]).
Proof.
  apply (contact_page_probe_first Samples.insertion_order
           (Scenes.with_page_at "https://acme.io/contact-us" Scenes.contact_details_page)
           "https://acme.io" "https://acme.io" ["/contact"] "/contact-us"
           ["/contactus"; "/about"; "/about-us"; "/aboutus"; "/get-in-touch";
            "/reach-us"; "/support"; "/help"] []).
  - reflexivity.
  - reflexivity.
  - intros lg q [<- | []]. vm_compute. discriminate.
  - intros lg. reflexivity.
Defined.

Lemma contact_page_origin_witness :
  (exists base path,
      urlparse_base Samples.insertion_order "https://acme.io" = Some base /\
      In path contact_paths /\ "https://acme.io/team" = base +:+ path) \/
  (exists lg page a,
      http_get (Samples.serving Scenes.linking_page) lg "https://acme.io" =
      GetStatus 200 page /\ In a (anchors page) /\
      existsb (fun keyword => Py.contains (Py.lower (anchor_text a)) keyword)
        contact_keywords = true /\
      ((Py.startswith (href a) "/" = true /\
        urljoin Samples.insertion_order "https://acme.io" (href a) =
        Some "https://acme.io/team") \/
       (Py.startswith (href a) "/" = false /\ Py.startswith (href a) "http" = true /\
        "https://acme.io/team" = href a))).
Proof.
  apply (contact_page_origin Samples.insertion_order (Samples.serving Scenes.linking_page)
           "https://acme.io" [] "https://acme.io/team").
  vm_compute. reflexivity.
Defined.

Lemma contact_page_url_fetched_witness :
  snd (enrich_from_website Samples.insertion_order
         (Scenes.with_page_at "https://acme.io/contact-us" Scenes.contact_details_page)
         (Some "https://acme.io") true []) =
  [GET "https://acme.io"; HEAD "https://acme.io/contact";
   HEAD "https://acme.io/contact-us"; GET "https://acme.io/contact-us"] /\
  Py.truthy "https://acme.io/contact-us" = true.
Proof.
  destruct (contact_page_url_fetched Samples.insertion_order
              (Scenes.with_page_at "https://acme.io/contact-us"
                 Scenes.contact_details_page)
              (Some "https://acme.io") true [] "https://acme.io/contact-us")
    as (_ & Ht & _).
  - vm_compute. reflexivity.
  - split; [vm_compute; reflexivity | exact Ht].
Defined.

End CrawlFacts.

(** ** website_enrichment.py: what an enrichment result holds *)

Module ResultFacts.
Import Coll CollFacts Enrich EmailFacts SocialFacts CapFacts PhoneFacts ContactFacts
  CrawlFacts.

Section Result.
Variable rt : Runtime.
Variable w : Web.
Hypothesis Hrt : lawful rt.

Lemma set_iter_nil : set_iter rt [] = [].
Proof using Hrt. apply Permutation_nil. symmetry. apply Hrt. constructor. Qed.

Lemma dedup_cap_In (n : nat) (xs : list string) (x : string) :
  In x (dedup_cap rt n xs) -> In x xs.
Proof using Hrt.
  unfold dedup_cap. intros H. apply In_take in H.
  apply (In_set_iter rt _ x Hrt (NoDup_set_of_list xs)) in H.
  now apply In_set_of_list.
Qed.

Lemma dedup_cap_NoDup (n : nat) (xs : list string) : NoDup (dedup_cap rt n xs).
Proof using Hrt.
  unfold dedup_cap. apply NoDup_take_of.
  pose proof (Hrt _ (NoDup_set_of_list xs)) as Hp. rewrite Hp. apply NoDup_set_of_list.
Qed.

Lemma dedup_cap_nil (n : nat) : dedup_cap rt n [] = [].
Proof using Hrt. unfold dedup_cap. cbn. rewrite set_iter_nil. now destruct n. Qed.

Lemma page_values (url : string) (log : list Request) :
  (forall e, In e (pd_emails (fst (_extract_from_page rt w url log))) ->
     Py.lower e = e /\ Py.contains e "@" = true /\
     exists x, e = Py.lower x /\ _is_valid_email x = true /\ 5 <= String.length x <= 100) /\
  (forall ph, In ph (pd_phones (fst (_extract_from_page rt w url log))) ->
     10 <= String.length ph /\ _clean_phone ph = ph).
Proof using Hrt.
  unfold _extract_from_page, bind, get, ret. cbn [fst].
  destruct (http_get w log url) as [| status page]; [split; intros ? [] |].
  destruct (status =? 200)%nat; [| split; intros ? []].
  unfold extract_page_data.
  assert (He : forall e, In e (_extract_emails rt page) ->
             Py.lower e = e /\ Py.contains e "@" = true /\
             exists x, e = Py.lower x /\ _is_valid_email x = true /\ 5 <= String.length x <= 100).
  { intros e Hin. unfold _extract_emails in Hin.
    apply (In_set_iter rt _ e Hrt (NoDup_collected_emails page)) in Hin.
    exact (collected_emails_shape page e Hin). }
  assert (Hp : forall ph, In ph (_extract_phones rt page) ->
             10 <= String.length ph /\ _clean_phone ph = ph).
  { intros ph Hin. destruct (collected_phones_kept page) as [Hnd Hall].
    unfold _extract_phones in Hin. apply In_take in Hin.
    apply (In_set_iter rt _ ph Hrt Hnd) in Hin. now apply Hall. }
  destruct (_extract_social_media rt page url); cbn [pd_emails pd_phones]; now split.
Qed.

(** X12.  The values of a result are well formed.  Every e-mail address is in
    lower case, holds an [@] and is the lower-casing of an address that
    passes [_is_valid_email], which has 5 to 100 characters; every phone
    number has at least 10 characters and is in the normal form of
    [_clean_phone]; and when the final step is reached, no e-mail, phone or
    address occurs twice. *)
Theorem enrichment_values_well_formed (website_url : option string)
    (check_contact_page : bool) (log : list Request) :
  let r := fst (enrich_from_website rt w website_url check_contact_page log) in
  (forall e, In e (emails r) ->
     Py.lower e = e /\ Py.contains e "@" = true /\
     exists x, e = Py.lower x /\ _is_valid_email x = true /\ 5 <= String.length x <= 100) /\
  (forall ph, In ph (phones r) -> 10 <= String.length ph /\ _clean_phone ph = ph) /\
  (finalized rt website_url check_contact_page ->
     NoDup (emails r) /\ NoDup (phones r) /\ NoDup (addresses r)).
Proof using Hrt.
  cbv zeta.
  assert (Hfin : forall acc,
             (forall e, In e (emails acc) ->
                Py.lower e = e /\ Py.contains e "@" = true /\
                exists x, e = Py.lower x /\ _is_valid_email x = true /\
                          5 <= String.length x <= 100) ->
             (forall ph, In ph (phones acc) ->
                10 <= String.length ph /\ _clean_phone ph = ph) ->
             (forall e, In e (emails (finalize rt acc)) ->
                Py.lower e = e /\ Py.contains e "@" = true /\
                exists x, e = Py.lower x /\ _is_valid_email x = true /\
                          5 <= String.length x <= 100) /\
             (forall ph, In ph (phones (finalize rt acc)) ->
                10 <= String.length ph /\ _clean_phone ph = ph) /\
             (finalized rt website_url check_contact_page ->
                NoDup (emails (finalize rt acc)) /\ NoDup (phones (finalize rt acc)) /\
                NoDup (addresses (finalize rt acc)))).
  { intros acc He Hp. cbn [finalize emails phones addresses]. split; [| split].
    - intros e Hin. apply He. eapply dedup_cap_In. exact Hin.
    - intros ph Hin. apply Hp. eapply dedup_cap_In. exact Hin.
    - intros _. repeat split; apply dedup_cap_NoDup. }
  destruct website_url as [url |].
  - destruct (Py.truthy url) eqn:Ht.
    + rewrite (enrich_unfold rt w url check_contact_page log Ht). cbv zeta.
      pose proof (page_values url log) as [Hme Hmp].
      assert (Hacc_e : forall e,
                 In e (emails (_merge_data empty_enrichment
                                 (fst (_extract_from_page rt w url log)))) ->
                 Py.lower e = e /\ Py.contains e "@" = true /\
                 exists x, e = Py.lower x /\ _is_valid_email x = true /\
                           5 <= String.length x <= 100)
        by (intros e Hin; now apply Hme).
      assert (Hacc_p : forall ph,
                 In ph (phones (_merge_data empty_enrichment
                                  (fst (_extract_from_page rt w url log)))) ->
                 10 <= String.length ph /\ _clean_phone ph = ph)
        by (intros ph Hin; now apply Hmp).
      destruct check_contact_page; [| now apply Hfin].
      pose proof (find_contact_page_raises rt w url (log ++ [GET url])) as Hraise.
      destruct (_find_contact_page rt w url (log ++ [GET url]))
        as [[[cu |] |] log2]; cbn [fst] in Hraise.
      * destruct (Py.truthy cu); [| now apply Hfin]. cbn [fst].
        pose proof (page_values cu log2) as [Hce Hcp].
        apply Hfin.
        -- cbn [_merge_data with_contact_page emails]. intros e Hin.
           apply in_app_iff in Hin. destruct Hin as [Hin | Hin]; [now apply Hme | now apply Hce].
        -- cbn [_merge_data with_contact_page phones]. intros ph Hin.
           apply in_app_iff in Hin. destruct Hin as [Hin | Hin]; [now apply Hmp | now apply Hcp].
      * now apply Hfin.
      * cbn [fst]. split; [exact Hacc_e |]. split; [exact Hacc_p |].
        intros [Hc | Hparse]; [discriminate |].
        exfalso. apply (Hparse url eq_refl). now apply Hraise.
    + rewrite enrich_no_url by (intros u Hu; congruence). cbn.
      split; [intros e [] | split; [intros ph [] | intros _; repeat split; constructor]].
  - rewrite enrich_no_url by discriminate. cbn.
    split; [intros e [] | split; [intros ph [] | intros _; repeat split; constructor]].
Qed.

(** X13.  Failed fetches are absorbed.  On a web where no [GET] answers 200, an
    enrichment returns no e-mail, no phone, no address and no social
    link, whatever URL it is given and whether or not a contact page is
    looked for. *)
Theorem failed_fetches_give_empty (website_url : option string)
    (check_contact_page : bool) (log : list Request) :
  (forall lg url page, http_get w lg url <> GetStatus 200 page) ->
  let r := fst (enrich_from_website rt w website_url check_contact_page log) in
  emails r = [] /\ phones r = [] /\ addresses r = [] /\ socialMedia r = [].
Proof using Hrt.
  intros Hfail. cbv zeta.
  assert (Hpage : forall url lg, fst (_extract_from_page rt w url lg) = empty_page_data).
  { intros url lg. unfold _extract_from_page, bind, get, ret. cbn [fst].
    pose proof (Hfail lg url) as Hne.
    destruct (http_get w lg url) as [| status page]; [reflexivity |].
    destruct (status =? 200)%nat eqn:Hs; [| reflexivity].
    apply Nat.eqb_eq in Hs. subst status. now destruct (Hne page). }
  destruct website_url as [url |].
  - destruct (Py.truthy url) eqn:Ht.
    + rewrite (enrich_unfold rt w url check_contact_page log Ht). cbv zeta.
      rewrite Hpage.
      destruct check_contact_page.
      * destruct (_find_contact_page rt w url (log ++ [GET url]))
          as [[[cu |] |] log2]; [destruct (Py.truthy cu) | |];
          try rewrite Hpage; cbn; rewrite ?dedup_cap_nil; auto.
      * cbn. rewrite !dedup_cap_nil. auto.
    + rewrite enrich_no_url by (intros u Hu; congruence). cbn. auto.
  - rewrite enrich_no_url by discriminate. cbn. auto.
Qed.

End Result.

Lemma enrichment_values_well_formed_witness :
  lawful Samples.insertion_order /\
  NoDup (emails (fst (enrich_from_website Samples.insertion_order
                        (Samples.serving Samples.six_emails_page)
                        (Some "https://acme.io") false []))).
Proof.
  assert (H : lawful Samples.insertion_order) by (intros l _; apply Permutation_refl).
  split; [exact H |].
  destruct (enrichment_values_well_formed Samples.insertion_order
              (Samples.serving Samples.six_emails_page) H
              (Some "https://acme.io") false []) as (_ & _ & Hnd).
  apply Hnd. now left.
Defined.

Lemma failed_fetches_give_empty_witness :
  lawful Samples.insertion_order /\
  (forall lg url page, http_get Scenes.unreachable lg url <> GetStatus 200 page) /\
  phones (fst (enrich_from_website Samples.insertion_order Scenes.unreachable
                 (Some "https://acme.io") true [])) = [].
Proof.
  assert (H : lawful Samples.insertion_order) by (intros l _; apply Permutation_refl).
  assert (Hfail : forall lg url page,
             http_get Scenes.unreachable lg url <> GetStatus 200 page)
    by (intros lg url page; discriminate).
  split; [exact H |]. split; [exact Hfail |].
  exact (proj1 (proj2 (failed_fetches_give_empty Samples.insertion_order
                         Scenes.unreachable H (Some "https://acme.io") true [] Hfail))).
Defined.

End ResultFacts.

(** ** google_maps_optimized.py: more on the scroll loop *)

Module DiscoveryMoreFacts.
Import Coll CollFacts Maps DiscoveryFacts PhoneFacts EmailFacts.

(** What one pass does to the set: it adds the usable links shown. *)
Lemma loop_step_urls (sf : Surface) (m : Z) (st : LoopState) :
  match loop_step sf m st with
  | inl (_, st') | inr st' =>
      place_urls st' = place_urls st \/
      exists links, query_links sf (scroll_attempts st) = Some links /\
                    place_urls st' = fold_left add_link links (place_urls st)
  end.
Proof.
  unfold loop_step.
  destruct (negb (scroll_attempts st <? max_scroll_attempts)%nat); [now left |].
  destruct (negb (below_one_and_a_half (length (place_urls st)) m)); [now left |].
  destruct (query_links sf (scroll_attempts st)) as [links |]; [| now left].
  cbv zeta.
  destruct (m <=? Z.of_nat (length (fold_left add_link links (place_urls st))))%Z;
    [right; exists links; auto |].
  match goal with
  | |- context [if ?c then inl (Stalled, _) else _] => destruct c
  end; [right; exists links; auto |].
  destruct (scroll_raises sf (scroll_attempts st)); right; exists links; auto.
Qed.

Lemma add_link_kept (urls : list string) (link : LinkAttr) :
  (NoDup urls /\ forall u, In u urls -> Py.contains u "/maps/place/" = true) ->
  NoDup (add_link urls link) /\
  forall u, In u (add_link urls link) -> Py.contains u "/maps/place/" = true.
Proof.
  intros [Hnd Hall]. unfold add_link. destruct link as [| [href |]]; try now split.
  destruct (Py.truthy href); cbn [andb]; [| now split].
  destruct (Py.contains href "/maps/place/") eqn:Hc; [| now split].
  split; [now apply NoDup_set_add |].
  intros u Hu. apply In_set_add in Hu. destruct Hu as [-> | Hu]; [exact Hc | now apply Hall].
Qed.

Lemma add_link_grows (urls : list string) (link : LinkAttr) (u : string) :
  In u urls -> In u (add_link urls link).
Proof.
  intros H. unfold add_link. destruct link as [| [href |]]; try assumption.
  destruct (Py.truthy href && Py.contains href "/maps/place/"); [| assumption].
  apply In_set_add. now right.
Qed.

Lemma add_links_grow (links : list LinkAttr) (urls : list string) (u : string) :
  In u urls -> In u (fold_left add_link links urls).
Proof.
  revert urls. induction links as [| l links IH]; intros urls H; simpl; [assumption |].
  apply IH. now apply add_link_grows.
Qed.

(** The invariant of the set, and its growth, pass by pass. *)
Lemma loop_step_kept (sf : Surface) (m : Z) (st : LoopState) :
  (NoDup (place_urls st) /\
   forall u, In u (place_urls st) -> Py.contains u "/maps/place/" = true) ->
  match loop_step sf m st with
  | inl (_, st') | inr st' =>
      (NoDup (place_urls st') /\
       forall u, In u (place_urls st') -> Py.contains u "/maps/place/" = true) /\
      (forall u, In u (place_urls st) -> In u (place_urls st'))
  end.
Proof.
  intros Hst. pose proof (loop_step_urls sf m st) as H.
  assert (Hcase : forall st',
             (place_urls st' = place_urls st \/
              exists links, query_links sf (scroll_attempts st) = Some links /\
                            place_urls st' = fold_left add_link links (place_urls st)) ->
             (NoDup (place_urls st') /\
              forall u, In u (place_urls st') -> Py.contains u "/maps/place/" = true) /\
             (forall u, In u (place_urls st) -> In u (place_urls st'))).
  { intros st' [-> | (links & _ & ->)]; [now split |]. split.
    - now apply (fold_left_invariant
                   (fun s => NoDup s /\
                             forall u, In u s -> Py.contains u "/maps/place/" = true));
        [| intros s l; apply add_link_kept].
    - intros u. apply add_links_grow. }
  destruct (loop_step sf m st) as [[e st'] | st']; now apply Hcase.
Qed.

Lemma scroll_loop_kept (sf : Surface) (m : Z) (fuel : nat) :
  forall st e st',
    (NoDup (place_urls st) /\
     forall u, In u (place_urls st) -> Py.contains u "/maps/place/" = true) ->
    scroll_attempts st <= max_scroll_attempts ->
    scroll_loop fuel sf m st = Some (e, st') ->
    (NoDup (place_urls st') /\
     forall u, In u (place_urls st') -> Py.contains u "/maps/place/" = true) /\
    (forall u, In u (place_urls st) -> In u (place_urls st')) /\
    scroll_attempts st' <= max_scroll_attempts.
Proof.
  induction fuel as [| fuel IH]; intros st e st' Hst Hle; [discriminate |].
  cbn [scroll_loop].
  pose proof (loop_step_kept sf m st Hst) as Hk.
  pose proof (stalled_pass sf m st) as _.
  destruct (loop_step sf m st) as [[e1 st1] | st1] eqn:Hstep.
  - intros H. injection H as <- <-. destruct Hk as [Hk Hgrow].
    split; [exact Hk |]. split; [exact Hgrow |].
    clear - Hstep Hle. unfold loop_step in Hstep.
    destruct (negb (scroll_attempts st <? max_scroll_attempts)%nat);
      [injection Hstep as _ <-; exact Hle |].
    destruct (negb (below_one_and_a_half (length (place_urls st)) m));
      [injection Hstep as _ <-; exact Hle |].
    destruct (query_links sf (scroll_attempts st)) as [links |];
      [| injection Hstep as _ <-; exact Hle].
    cbv zeta in Hstep.
    destruct (m <=? Z.of_nat (length (fold_left add_link links (place_urls st))))%Z;
      [injection Hstep as _ <-; exact Hle |].
    match type of Hstep with
    | context [if ?c then inl (Stalled, _) else _] => destruct c
    end; [injection Hstep as _ <-; exact Hle |].
    destruct (scroll_raises sf (scroll_attempts st)); [| discriminate].
    injection Hstep as _ <-. exact Hle.
  - intros H. destruct Hk as [Hk Hgrow].
    pose proof (loop_step_continues _ _ _ _ Hstep) as (Hlt & Hnext & _).
    destruct (IH st1 e st' Hk ltac:(lia) H) as (Hk' & Hgrow' & Hle').
    split; [exact Hk' |]. split; [| exact Hle'].
    intros u Hu. apply Hgrow', Hgrow, Hu.
Qed.

Lemma search_places_urls (rt : Runtime) (Hrt : lawful rt) (sf : Surface) (max_results : Z) :
  exists places,
    _search_places_optimized rt sf max_results = Some places /\
    NoDup places /\
    forall u, In u places -> Py.contains u "/maps/place/" = true.
Proof.
  assert (Hinit : NoDup (place_urls initial_state) /\
                  forall u, In u (place_urls initial_state) ->
                            Py.contains u "/maps/place/" = true).
  { split; [constructor | intros u []]. }
  destruct (discovery_returns sf max_results) as [[e st] Hd].
  destruct (scroll_loop_kept sf max_results _ _ _ _ Hinit ltac:(simpl; lia) Hd)
    as ([Hnd Hall] & _ & Hle).
  unfold _search_places_optimized. destruct (goto_raises sf).
  - exists (set_iter rt []). split; [reflexivity |].
    assert (Hnil : set_iter rt [] = []).
    { apply Permutation_nil. symmetry. apply Hrt. constructor. }
    rewrite Hnil. split; [constructor | intros u []].
  - rewrite Hd. exists (set_iter rt (place_urls st)). split; [reflexivity |]. split.
    + pose proof (Hrt _ Hnd) as Hp. now rewrite Hp.
    + intros u Hu. apply (In_set_iter rt _ u Hrt Hnd) in Hu. now apply Hall.
Qed.

(** X14.  The scroll loop always ends, after at most 30 scrolls, and the place
    URLs it returns each contain [/maps/place/], none of them twice. *)
Theorem discovery_bounded (rt : Runtime) (Hrt : lawful rt) (sf : Surface) (max_results : Z) :
  (exists e st,
      discovery sf max_results = Some (e, st) /\
      scroll_attempts st <= max_scroll_attempts) /\
  exists places,
    _search_places_optimized rt sf max_results = Some places /\
    NoDup places /\
    forall u, In u places -> Py.contains u "/maps/place/" = true.
Proof.
  split; [| now apply search_places_urls].
  destruct (discovery_returns sf max_results) as [[e st] Hd].
  assert (Hinit : NoDup (place_urls initial_state) /\
                  forall u, In u (place_urls initial_state) ->
                            Py.contains u "/maps/place/" = true).
  { split; [constructor | intros u []]. }
  destruct (scroll_loop_kept sf max_results _ _ _ _ Hinit ltac:(simpl; lia) Hd)
    as (_ & _ & Hle).
  exists e, st. auto.
Qed.

Lemma discovery_bounded_witness :
  lawful Samples.insertion_order /\
  exists places,
    _search_places_optimized Samples.insertion_order
      (Samples.showing Samples.ten_places) 10 = Some places /\
    NoDup places /\
    forall u, In u places -> Py.contains u "/maps/place/" = true.
Proof.
  assert (H : lawful Samples.insertion_order) by (intros l _; apply Permutation_refl).
  split; [exact H |].
  exact (proj2 (discovery_bounded Samples.insertion_order H
                  (Samples.showing Samples.ten_places) 10)).
Defined.

(** X15.  The set only grows: a URL that is in the set when the loop comes to
    one of its tests is in the set the loop ends with. *)
Theorem discovered_urls_stay (sf : Surface) (max_results : Z) (k : nat)
    (st : LoopState) (e : Exit) (st' : LoopState) (u : string) :
  state_at sf max_results k = Some st ->
  discovery sf max_results = Some (e, st') ->
  In u (place_urls st) -> In u (place_urls st').
Proof.
  intros Hat Hd Hu.
  destruct (state_at_run sf max_results k st Hat) as (Hk & Hle & Hrun).
  assert (H1 : scroll_loop (k + S max_scroll_attempts) sf max_results initial_state
               = Some (e, st')).
  { eapply scroll_loop_more_fuel; [exact Hd | lia]. }
  rewrite Hrun in H1.
  assert (Hinv : forall n s, state_at sf max_results n = Some s ->
             NoDup (place_urls s) /\
             forall x, In x (place_urls s) -> Py.contains x "/maps/place/" = true).
  { induction n as [| n IHn]; intros s Hs; simpl in Hs.
    - injection Hs as <-. split; [constructor | intros x []].
    - destruct (state_at sf max_results n) as [s0 |]; [| discriminate].
      pose proof (loop_step_kept sf max_results s0 (IHn s0 eq_refl)) as Hk0.
      destruct (loop_step sf max_results s0) as [out | s1]; [discriminate |].
      injection Hs as <-. apply Hk0. }
  destruct (scroll_loop_kept sf max_results _ _ _ _ (Hinv k st Hat) ltac:(lia) H1)
    as (_ & Hgrow & _).
  now apply Hgrow.
Qed.

(** Why the loop ended, for a positive target.  The loop ends as
    [Satisfied] exactly when it has collected at least [max_results] URLs;
    it never ends on the 1.5 factor of its test. *)
Lemma exit_below_target (sf : Surface) (m : Z) (fuel : nat) :
  (0 < m)%Z ->
  forall st e st',
    (Z.of_nat (length (place_urls st)) < m)%Z ->
    scroll_loop fuel sf m st = Some (e, st') ->
    (e = Satisfied /\ (m <= Z.of_nat (length (place_urls st')))%Z) \/
    (e <> Satisfied /\ e <> OverCollected /\
     (Z.of_nat (length (place_urls st')) < m)%Z).
Proof.
  intros Hm. induction fuel as [| fuel IH]; intros st e st' Hlt; [discriminate |].
  cbn [scroll_loop].
  destruct (loop_step sf m st) as [[e1 st1] | st1] eqn:Hstep.
  - intros H. injection H as <- <-. revert Hstep. unfold loop_step.
    destruct (negb (scroll_attempts st <? max_scroll_attempts)%nat).
    { intros H. injection H as <- <-. right. repeat split; [discriminate .. | exact Hlt]. }
    destruct (negb (below_one_and_a_half (length (place_urls st)) m)) eqn:Hb.
    { exfalso. apply negb_true_iff in Hb. unfold below_one_and_a_half in Hb.
      apply Z.ltb_ge in Hb. lia. }
    destruct (query_links sf (scroll_attempts st)) as [links |].
    2: { intros H. injection H as <- <-. right. repeat split; [discriminate .. | exact Hlt]. }
    cbv zeta.
    destruct (m <=? Z.of_nat (length (fold_left add_link links (place_urls st))))%Z
      eqn:Hsat.
    { intros H. injection H as <- <-. left. split; [reflexivity |].
      cbn [place_urls]. now apply Z.leb_le. }
    apply Z.leb_gt in Hsat.
    match goal with
    | |- context [if ?c then inl (Stalled, _) else _] => destruct c
    end.
    { intros H. injection H as <- <-. right. repeat split; [discriminate .. | exact Hsat]. }
    destruct (scroll_raises sf (scroll_attempts st)); [| discriminate].
    intros H. injection H as <- <-. right. repeat split; [discriminate .. | exact Hsat].
  - apply IH. now apply loop_step_continues in Hstep.
Qed.

(** X16.  For a positive target, the scroll loop ends as [Satisfied] exactly
    when the set it ends with holds at least [max_results] URLs, and it
    never ends because the test [len(place_urls) < max_results * 1.5] of
    the [while] fails. *)
Theorem satisfied_iff_target_met (sf : Surface) (max_results : Z) (e : Exit)
    (st : LoopState) :
  (0 < max_results)%Z ->
  discovery sf max_results = Some (e, st) ->
  (e = Satisfied <-> (max_results <= Z.of_nat (length (place_urls st)))%Z) /\
  e <> OverCollected.
Proof.
  intros Hm Hd.
  destruct (exit_below_target sf max_results _ Hm initial_state e st
              ltac:(simpl; lia) Hd) as [[-> Hle] | (Hs & Ho & Hlt)].
  - split; [tauto | discriminate].
  - split; [split; [tauto | lia] | exact Ho].
Qed.

(** X17.  For a target of zero or less the loop body never runs: no link is
    asked for, and the search returns the empty list. *)
Theorem nothing_collected_without_target (rt : Runtime) (Hrt : lawful rt) (sf : Surface)
    (max_results : Z) :
  (max_results <= 0)%Z ->
  discovery sf max_results = Some (OverCollected, initial_state) /\
  _search_places_optimized rt sf max_results = Some [].
Proof.
  intros Hm.
  assert (Hd : discovery sf max_results = Some (OverCollected, initial_state)).
  { unfold discovery. cbn [scroll_loop]. unfold loop_step.
    change (scroll_attempts initial_state <? max_scroll_attempts)%nat with true.
    cbn [negb]. unfold below_one_and_a_half.
    change (length (place_urls initial_state)) with 0.
    destruct (2 * Z.of_nat 0 <? 3 * max_results)%Z eqn:Hb; [| reflexivity].
    apply Z.ltb_lt in Hb. lia. }
  split; [exact Hd |].
  assert (Hnil : set_iter rt [] = []).
  { apply Permutation_nil. symmetry. apply Hrt. constructor. }
  unfold _search_places_optimized. rewrite Hd.
  destruct (goto_raises sf); cbn [place_urls initial_state]; now rewrite Hnil.
Qed.

Lemma discovered_urls_stay_witness :
  In "https://www.google.com/maps/place/A"
    (place_urls {| place_urls := Samples.two_places; scroll_attempts := 3;
                   no_new_results_count := 3 |}).
Proof.
  apply (discovered_urls_stay (Samples.showing Samples.two_places) 5 1
           {| place_urls := Samples.two_places; scroll_attempts := 1;
              no_new_results_count := 0 |}
           Stalled
           {| place_urls := Samples.two_places; scroll_attempts := 3;
              no_new_results_count := 3 |}
           "https://www.google.com/maps/place/A").
  - vm_compute. reflexivity.
  - vm_compute. reflexivity.
  - now left.
Defined.

Lemma satisfied_iff_target_met_witness :
  (0 < 10)%Z /\ (10 <= Z.of_nat (length Samples.ten_places))%Z.
Proof.
  split; [lia |].
  destruct (satisfied_iff_target_met (Samples.showing Samples.ten_places) 10 Satisfied
              {| place_urls := Samples.ten_places; scroll_attempts := 0;
                 no_new_results_count := 0 |}) as [Hiff _].
  - lia.
  - vm_compute. reflexivity.
  - now apply Hiff.
Defined.

Lemma nothing_collected_without_target_witness :
  lawful Samples.insertion_order /\ (0 <= 0)%Z /\
  _search_places_optimized Samples.insertion_order
    (Samples.showing Samples.ten_places) 0 = Some [].
Proof.
  assert (H : lawful Samples.insertion_order) by (intros l _; apply Permutation_refl).
  split; [exact H |]. split; [lia |].
  exact (proj2 (nothing_collected_without_target Samples.insertion_order H
                  (Samples.showing Samples.ten_places) 0 ltac:(lia))).
Defined.

End DiscoveryMoreFacts.

(** ** google_maps_optimized.py: the fields of a record *)

Module RecordFacts.
Import Coll CollFacts Enrich Maps BatchFacts ScoreFacts PhoneFacts.

Section Fields.
Variable rt : Runtime.
Variable fo : FloatOps.
Variable web : Enrich.Web.

Ltac cases :=
  repeat match goal with
         | |- context [match ?x with _ => _ end] => destruct x
         end.

Ltac others := repeat (rewrite field_put_other by assumption); try reflexivity.

Lemma set_text_other (k0 k : string) (elem : option (option string)) (d : record fo) :
  String.eqb k0 k = false -> field k0 (set_text fo k elem d) = field k0 d.
Proof. intros H. unfold set_text. destruct elem; [now apply field_put_other | reflexivity]. Qed.

Lemma set_cleaned_other (k0 k : string) (f : string -> string)
    (elem : option (option string)) (d : record fo) :
  String.eqb k0 k = false -> field k0 (set_cleaned fo k f elem d) = field k0 d.
Proof.
  intros H. unfold set_cleaned. destruct elem; [now apply field_put_other | reflexivity].
Qed.

Lemma step_phone_other (k0 : string) (pg : DetailPage fo) (d : record fo) :
  String.eqb k0 "phone" = false -> field k0 (step_phone fo pg d) = field k0 d.
Proof. intros H. unfold step_phone. cases; others. Qed.

Lemma step_website_other (k0 : string) (pg : DetailPage fo) (e : bool) (d : record fo) :
  String.eqb k0 "website" = false -> String.eqb k0 "email" = false ->
  String.eqb k0 "additionalEmails" = false -> String.eqb k0 "socialMedia" = false ->
  field k0 (step_website rt fo web pg e d) = field k0 d.
Proof. intros H1 H2 H3 H4. unfold step_website, add_enrichment. cases; others. Qed.

Lemma step_rating_other (k0 : string) (pg : DetailPage fo) (d d' : record fo) :
  String.eqb k0 "rating" = false ->
  step_rating fo pg d = Ok d' -> field k0 d' = field k0 d.
Proof.
  intros H. unfold step_rating.
  cases; intros E; try discriminate; injection E as <-; others.
Qed.

Lemma step_reviews_count_other (k0 : string) (pg : DetailPage fo) (d d' : record fo) :
  String.eqb k0 "reviewsCount" = false ->
  step_reviews_count fo pg d = Ok d' -> field k0 d' = field k0 d.
Proof.
  intros H. unfold step_reviews_count.
  cases; intros E; try discriminate; injection E as <-; others.
Qed.

Lemma step_total_score_other (k0 : string) (d d' : record fo) :
  String.eqb k0 "totalScore" = false ->
  step_total_score fo d = Ok d' -> field k0 d' = field k0 d.
Proof.
  intros H. unfold step_total_score.
  cases; intros E; try discriminate; injection E as <-; others.
Qed.

Lemma step_rating_sets (pg : DetailPage fo) (d d' : record fo) :
  step_rating fo pg d = Ok d' ->
  field "rating" d' = field "rating" d \/ exists x, field "rating" d' = Some (VFloat x).
Proof.
  unfold step_rating.
  cases; intros E; try discriminate; injection E as <-; try (now left).
  right. eexists. apply field_put_same.
Qed.

Lemma digits_value_nonneg (s : string) :
  forall acc n, (0 <= acc)%Z -> digits_value acc s = Some n -> (0 <= n)%Z.
Proof.
  induction s as [| c s IH]; intros acc n Hacc; cbn [digits_value].
  - intros H. injection H as <-. exact Hacc.
  - destruct (Py.is_digit c); [| discriminate]. apply IH. lia.
Qed.

Lemma py_int_nonneg (s : string) (n : Z) : py_int s = Some n -> (0 <= n)%Z.
Proof.
  unfold py_int. destruct (Py.truthy s); [| discriminate].
  apply digits_value_nonneg. lia.
Qed.

Lemma step_reviews_count_sets (pg : DetailPage fo) (d d' : record fo) :
  step_reviews_count fo pg d = Ok d' ->
  field "reviewsCount" d' = field "reviewsCount" d \/
  exists n, field "reviewsCount" d' = Some (VInt n) /\ (0 <= n)%Z.
Proof.
  unfold step_reviews_count.
  destruct (reviews_label pg) as [[reviews_text |] |]; try (intros E; injection E as <-; now left).
  destruct (Py.truthy reviews_text); [| intros E; injection E as <-; now left].
  destruct (Re.search reviews_pattern reviews_text) as [m |];
    [| intros E; injection E as <-; now left].
  destruct (py_int (Py.replace (group_1 m) "," "")) as [n |] eqn:Hn; [| discriminate].
  intros E. injection E as <-. right. exists n.
  split; [apply field_put_same | now apply py_int_nonneg in Hn].
Qed.

(** The record before the score is computed, field by field. *)
Lemma detail_body_stages (pg : DetailPage fo) (url : string) (r i e : bool)
    (d : record fo) :
  detail_body rt fo web pg url r i e = Ok d ->
  exists d6,
    step_total_score fo d6 = Ok d /\
    field "totalScore" d6 = None /\
    (field "rating" d6 = None \/ exists x, field "rating" d6 = Some (VFloat x)) /\
    (field "reviewsCount" d6 = None \/
     exists n, field "reviewsCount" d6 = Some (VInt n) /\ (0 <= n)%Z).
Proof.
  unfold detail_body.
  destruct (detail_goto_raises pg); [discriminate |].
  destruct (step_rating fo pg _) as [d1 |] eqn:H1; [| discriminate].
  destruct (step_reviews_count fo pg d1) as [d2 |] eqn:H2; [| discriminate].
  intros H.
  set (d3 := set_cleaned fo "priceLevel" Py.strip (price_elem pg)
               (set_cleaned fo "openingHours" (fun s => s) (hours_label pg)
                  (step_website rt fo web pg e
                     (step_phone fo pg
                        (set_cleaned fo "address" Py.strip (address_elem pg) d2))))) in H.
  set (d4 := if i then put "images" (VList (map VStr (images pg))) d3 else d3) in H.
  set (d5 := if r then put "reviews" (VList (map VDict (reviews pg))) d4 else d4) in H.
  exists d5. split; [exact H |].
  assert (Hlate : forall k0,
             String.eqb k0 "reviews" = false -> String.eqb k0 "images" = false ->
             String.eqb k0 "priceLevel" = false -> String.eqb k0 "openingHours" = false ->
             String.eqb k0 "website" = false -> String.eqb k0 "email" = false ->
             String.eqb k0 "additionalEmails" = false -> String.eqb k0 "socialMedia" = false ->
             String.eqb k0 "phone" = false -> String.eqb k0 "address" = false ->
             field k0 d5 = field k0 d2).
  { intros k0 K1 K2 K3 K4 K5 K6 K7 K8 K9 K10. unfold d5, d4, d3.
    destruct r, i;
      rewrite ?field_put_other, !set_cleaned_other, step_website_other, step_phone_other,
        set_cleaned_other by assumption; reflexivity. }
  split; [| split].
  - rewrite Hlate by reflexivity.
    rewrite (step_reviews_count_other "totalScore" pg d1 d2 eq_refl H2).
    rewrite (step_rating_other "totalScore" pg _ d1 eq_refl H1).
    rewrite !set_text_other by reflexivity. reflexivity.
  - assert (E : field "rating" d2 = field "rating" d1)
      by exact (step_reviews_count_other "rating" pg d1 d2 eq_refl H2).
    rewrite Hlate, E by reflexivity.
    destruct (step_rating_sets pg _ d1 H1) as [E1 | [x E1]].
    + left. rewrite E1, !set_text_other by reflexivity. reflexivity.
    + right. now exists x.
  - rewrite Hlate by reflexivity.
    destruct (step_reviews_count_sets pg d1 d2 H2) as [E2 | (n & E2 & Hn)].
    + left. rewrite E2, (step_rating_other "reviewsCount" pg _ d1 eq_refl H1).
      rewrite !set_text_other by reflexivity. reflexivity.
    + right. exists n. auto.
Qed.

(** X18.  The review count of a record is a non-negative integer, and its
    rating a float: the logarithm in the score is taken of a number that
    is at least 1. *)
Theorem review_count_nonnegative (pg : DetailPage fo) (url : string) (r i e : bool)
    (d : record fo) :
  detail_body rt fo web pg url r i e = Ok d ->
  (forall v, field "reviewsCount" d = Some v -> exists n, v = VInt n /\ (0 <= n)%Z) /\
  (forall v, field "rating" d = Some v -> exists x, v = VFloat x).
Proof.
  intros H. destruct (detail_body_stages pg url r i e d H) as (d6 & Hs & _ & Hr & Hc).
  rewrite (step_total_score_other "reviewsCount" d6 d eq_refl Hs).
  rewrite (step_total_score_other "rating" d6 d eq_refl Hs).
  split; intros v Hv.
  - destruct Hc as [Hc | (n & Hc & Hn)]; [congruence |].
    exists n. split; [congruence | exact Hn].
  - destruct Hr as [Hr | (x & Hr)]; [congruence |]. exists x. congruence.
Qed.

(** X19.  A record has a [totalScore] exactly when it has both a rating and a
    review count, and then the score is [round(rating *
    math.log(reviewsCount + 1, 10), 2)], in the float operations of the
    interpreter. *)
Theorem total_score_iff_both (pg : DetailPage fo) (url : string) (r i e : bool)
    (d : record fo) :
  detail_body rt fo web pg url r i e = Ok d ->
  (field "totalScore" d <> None <->
   field "rating" d <> None /\ field "reviewsCount" d <> None) /\
  (forall rating reviewsCount,
      field "rating" d = Some (VFloat rating) ->
      field "reviewsCount" d = Some (VInt reviewsCount) ->
      field "totalScore" d =
      Some (VFloat (py_round fo (fmul fo rating (math_log fo (reviewsCount + 1) 10)) 2))).
Proof.
  intros H. destruct (detail_body_stages pg url r i e d H) as (d6 & Hs & Hnone & Hr & Hc).
  pose proof (total_score_rule fo d6 d Hnone Hs) as Hrule.
  rewrite (step_total_score_other "reviewsCount" d6 d eq_refl Hs).
  rewrite (step_total_score_other "rating" d6 d eq_refl Hs).
  destruct Hr as [Hr | (x & Hr)]; rewrite Hr in *.
  - split; [split; [congruence | intros [Hf _]; congruence] | discriminate].
  - destruct Hc as [Hc | (n & Hc & _)]; rewrite Hc in *.
    + split; [split; [congruence | intros [_ Hf]; congruence] | discriminate].
    + split; [split; [intros _; split; discriminate | intros _; congruence] |].
      intros rating reviewsCount E1 E2. injection E1 as <-. injection E2 as <-.
      exact Hrule.
Qed.

Lemma detail_body_contacts (pg : DetailPage fo) (url : string) (r i e : bool)
    (d : record fo) :
  detail_body rt fo web pg url r i e = Ok d ->
  exists d0,
    field "email" d0 = None /\ field "additionalEmails" d0 = None /\
    field "socialMedia" d0 = None /\
    forall k0,
      String.eqb k0 "reviews" = false -> String.eqb k0 "images" = false ->
      String.eqb k0 "priceLevel" = false -> String.eqb k0 "openingHours" = false ->
      String.eqb k0 "totalScore" = false ->
      field k0 d = field k0 (step_website rt fo web pg e d0).
Proof.
  unfold detail_body.
  destruct (detail_goto_raises pg); [discriminate |].
  destruct (step_rating fo pg _) as [d1 |] eqn:H1; [| discriminate].
  destruct (step_reviews_count fo pg d1) as [d2 |] eqn:H2; [| discriminate].
  intros H.
  exists (step_phone fo pg (set_cleaned fo "address" Py.strip (address_elem pg) d2)).
  assert (Hearly : forall k0,
             String.eqb k0 "phone" = false -> String.eqb k0 "address" = false ->
             String.eqb k0 "reviewsCount" = false -> String.eqb k0 "rating" = false ->
             String.eqb k0 "category" = false -> String.eqb k0 "title" = false ->
             String.eqb k0 "url" = false -> String.eqb k0 "placeId" = false ->
             field k0 (step_phone fo pg
                         (set_cleaned fo "address" Py.strip (address_elem pg) d2)) = None).
  { intros k0 K1 K2 K3 K4 K5 K6 K7 K8.
    rewrite step_phone_other, set_cleaned_other by assumption.
    rewrite (step_reviews_count_other k0 pg d1 d2 K3 H2).
    rewrite (step_rating_other k0 pg _ d1 K4 H1).
    rewrite !set_text_other by assumption.
    unfold field. cbn [find fst]. now rewrite K7, K8. }
  split; [now apply Hearly |]. split; [now apply Hearly |]. split; [now apply Hearly |].
  intros k0 K1 K2 K3 K4 K5.
  rewrite (step_total_score_other k0 _ d K5 H).
  destruct r, i;
    rewrite ?field_put_other, !set_cleaned_other by assumption; reflexivity.
Qed.

(** X20.  The contact fields of a record.  Without [enrich_contacts] a record
    has no [email], [additionalEmails] or [socialMedia]; and
    [additionalEmails], when present, is a list of one to four addresses
    that does not repeat the primary [email]. *)
Theorem record_contact_fields (Hrt : lawful rt) (pg : DetailPage fo) (url : string)
    (r i e : bool) (d : record fo) :
  detail_body rt fo web pg url r i e = Ok d ->
  (e = false ->
   field "email" d = None /\ field "additionalEmails" d = None /\
   field "socialMedia" d = None) /\
  (forall v, field "additionalEmails" d = Some v ->
     exists email additional,
       field "email" d = Some (VStr email) /\ v = VList (map VStr additional) /\
       1 <= length additional <= 4 /\ ~ In email additional).
Proof.
  intros H.
  destruct (detail_body_contacts pg url r i e d H) as (d0 & He & Ha & Hs & Hd).
  rewrite (Hd "email"), (Hd "additionalEmails"), (Hd "socialMedia") by reflexivity.
  unfold step_website.
  destruct (website_href pg) as [[u |] |];
    rewrite ?field_put_other by reflexivity;
    try (split; [intros _; auto | intros v Hv; congruence]).
  destruct (e && Py.truthy u) eqn:Hrun;
    rewrite ?field_put_other by reflexivity;
    try (split; [intros _; auto | intros v Hv; congruence]).
  apply andb_true_iff in Hrun as [-> Hu].
  split; [discriminate |].
  unfold add_enrichment.
  rewrite (CrawlFacts.enrich_unfold rt web u false [] Hu). cbv zeta. cbn [fst].
  set (acc := _merge_data _ _).
  pose proof (ResultFacts.dedup_cap_NoDup rt Hrt 5 (Enrich.emails acc)) as Hnd.
  pose proof (CapFacts.length_take_le 5
                (set_iter rt (set_of_list (Enrich.emails acc)))) as Hlen.
  cbn [finalize Enrich.emails Enrich.socialMedia].
  fold (dedup_cap rt 5 (Enrich.emails acc)) in Hlen.
  destruct (dedup_cap rt 5 (Enrich.emails acc)) as [| email [| a additional]].
  - intros v. destruct (Enrich.socialMedia acc);
      rewrite ?field_put_other by reflexivity; rewrite ?field_put_other by reflexivity;
      congruence.
  - intros v. destruct (Enrich.socialMedia acc);
      rewrite ?field_put_other by reflexivity; rewrite ?field_put_other by reflexivity;
      congruence.
  - intros v Hv. exists email, (a :: additional).
    destruct (Enrich.socialMedia acc);
      rewrite ?field_put_other in Hv by reflexivity;
      rewrite field_put_same in Hv; injection Hv as <-;
      rewrite ?field_put_other by reflexivity;
      (split; [apply field_put_same |]); (split; [reflexivity |]);
      (split; [cbn [length] in *; lia |]);
      apply NoDup_cons_1_1 in Hnd; intros Hin; apply Hnd; now apply list_elem_of_In.
Qed.

End Fields.

Lemma review_count_nonnegative_witness :
  detail_body Samples.insertion_order Samples.no_scores
    (Samples.serving Samples.six_emails_page) Scenes.rated
    "https://www.google.com/maps/place/A" false false true = Ok Scenes.rated_record /\
  exists n, VInt 1234 = @VInt Samples.no_scores n /\ (0 <= n)%Z.
Proof.
  assert (H : detail_body Samples.insertion_order Samples.no_scores
                (Samples.serving Samples.six_emails_page) Scenes.rated
                "https://www.google.com/maps/place/A" false false true =
              Ok Scenes.rated_record) by (vm_compute; reflexivity).
  split; [exact H |].
  apply (proj1 (review_count_nonnegative Samples.insertion_order Samples.no_scores
                  (Samples.serving Samples.six_emails_page) Scenes.rated
                  "https://www.google.com/maps/place/A" false false true
                  Scenes.rated_record H)).
  reflexivity.
Defined.

Lemma total_score_iff_both_witness :
  detail_body Samples.insertion_order Samples.no_scores
    (Samples.serving Samples.six_emails_page) Scenes.rated
    "https://www.google.com/maps/place/A" false false true = Ok Scenes.rated_record /\
  field "totalScore" Scenes.rated_record =
  Some (VFloat (py_round Samples.no_scores
                  (fmul Samples.no_scores tt (math_log Samples.no_scores (1234 + 1) 10)) 2)).
Proof.
  assert (H : detail_body Samples.insertion_order Samples.no_scores
                (Samples.serving Samples.six_emails_page) Scenes.rated
                "https://www.google.com/maps/place/A" false false true =
              Ok Scenes.rated_record) by (vm_compute; reflexivity).
  split; [exact H |].
  apply (proj2 (total_score_iff_both Samples.insertion_order Samples.no_scores
                  (Samples.serving Samples.six_emails_page) Scenes.rated
                  "https://www.google.com/maps/place/A" false false true
                  Scenes.rated_record H)); reflexivity.
Defined.

Lemma record_contact_fields_witness :
  lawful Samples.insertion_order /\
  detail_body Samples.insertion_order Samples.no_scores
    (Samples.serving Samples.six_emails_page) Scenes.rated
    "https://www.google.com/maps/place/A" false false true = Ok Scenes.rated_record /\
  exists email additional,
    field "email" Scenes.rated_record = Some (VStr email) /\
    @VList Samples.no_scores
      [VStr "a2@acme.io"; VStr "a3@acme.io"; VStr "a4@acme.io"; VStr "a5@acme.io"] =
    VList (map VStr additional) /\
    1 <= length additional <= 4 /\ ~ In email additional.
Proof.
  assert (Hrt : lawful Samples.insertion_order) by (intros l _; apply Permutation_refl).
  assert (H : detail_body Samples.insertion_order Samples.no_scores
                (Samples.serving Samples.six_emails_page) Scenes.rated
                "https://www.google.com/maps/place/A" false false true =
              Ok Scenes.rated_record) by (vm_compute; reflexivity).
  split; [exact Hrt |]. split; [exact H |].
  apply (proj2 (record_contact_fields Samples.insertion_order Samples.no_scores
                  (Samples.serving Samples.six_emails_page) Hrt Scenes.rated
                  "https://www.google.com/maps/place/A" false false true
                  Scenes.rated_record H)).
  reflexivity.
Defined.

End RecordFacts.

(** ** google_maps_optimized.py: what [scrape] returns *)

Module ScrapeFacts.
Import Coll CollFacts Maps DiscoveryFacts DiscoveryMoreFacts BatchFacts PhoneFacts.

Section Scrape.
Variable rt : Runtime.
Variable fo : FloatOps.
Variable web : Enrich.Web.
Variable br : Browser fo.
Variable cfg : Config.
Hypothesis Hrt : lawful rt.

Lemma length_omap_le {B C} (f : B -> option C) (l : list B) : length (omap f l) <= length l.
Proof.
  induction l as [| x l IH]; [reflexivity |]. csimpl.
  destruct (f x); simpl; lia.
Qed.

Lemma In_omap {B C} (f : B -> option C) (l : list B) (y : C) :
  In y (omap f l) -> exists x, In x l /\ f x = Some y.
Proof.
  induction l as [| x l IH]; csimpl; [intros [] |].
  destruct (f x) as [y' |] eqn:E.
  - intros [<- | H]; [exists x; auto |].
    destruct (IH H) as (x' & Hin & Hx'). exists x'. auto.
  - intros H. destruct (IH H) as (x' & Hin & Hx'). exists x'. auto.
Qed.

Lemma In_slice_to {B} (x : B) (l : list B) (n : Z) : In x (Py.slice_to l n) -> In x l.
Proof. unfold Py.slice_to. destruct (0 <=? n)%Z; apply In_take. Qed.

Lemma length_slice_to {B} (l : list B) (n : Z) :
  (0 <= n)%Z -> length (Py.slice_to l n) <= Z.to_nat n.
Proof.
  intros H. unfold Py.slice_to. apply Z.leb_le in H. rewrite H.
  rewrite length_take. lia.
Qed.

(** One search term adds the records of at most [max_results] places. *)
Lemma scrape_term_adds (term : string) (all_results : list (record fo)) :
  exists added,
    scrape_term rt fo web br cfg term all_results = Some (all_results ++ added) /\
    (forall d, In d added -> (exists url, field "url" d = Some (VStr url) /\
                   Py.contains url "/maps/place/" = true)) /\
    ((0 <= max_results cfg)%Z -> length added <= Z.to_nat (max_results cfg)).
Proof using Hrt.
  unfold scrape_term.
  destruct (search_places_urls rt Hrt
              (surface br (search_url
                 (if Py.truthy (location cfg) then term +:+ " " +:+ location cfg
                  else term)))
              (max_results cfg)) as (places & Hp & _ & Hall).
  rewrite Hp, extract_all_records.
  exists (omap (record_of rt fo web br cfg) (Py.slice_to places (max_results cfg))).
  split; [reflexivity |]. split.
  - intros d Hd. apply In_omap in Hd. destruct Hd as (u & Hu & Hrec).
    exists u. split; [now apply (task_record_url rt fo web br cfg) |].
    apply Hall. now apply In_slice_to in Hu.
  - intros Hm. etransitivity; [apply length_omap_le |]. now apply length_slice_to.
Qed.

Lemma scrape_terms_add (terms : list string) :
  forall all_results,
    (forall d, In d all_results -> (exists url, field "url" d = Some (VStr url) /\
                   Py.contains url "/maps/place/" = true)) ->
    exists added,
      fold_left
        (fun acc term =>
           match acc with
           | Some all_results => scrape_term rt fo web br cfg term all_results
           | None => None
           end)
        terms (Some all_results) = Some (all_results ++ added) /\
      (forall d, In d added -> (exists url, field "url" d = Some (VStr url) /\
                   Py.contains url "/maps/place/" = true)) /\
      ((0 <= max_results cfg)%Z ->
       length added <= length terms * Z.to_nat (max_results cfg)).
Proof using Hrt.
  induction terms as [| term terms IH]; intros all_results Hall; cbn [fold_left].
  - exists []. rewrite app_nil_r. split; [reflexivity |].
    split; [intros d [] | intros _; simpl; lia].
  - destruct (scrape_term_adds term all_results) as (a1 & -> & Ha1 & Hl1).
    destruct (IH (all_results ++ a1)) as (a2 & -> & Ha2 & Hl2).
    { intros d Hd. apply in_app_iff in Hd. destruct Hd; auto. }
    exists (a1 ++ a2). rewrite app_assoc. split; [reflexivity |]. split.
    + intros d Hd. apply in_app_iff in Hd. destruct Hd; auto.
    + intros Hm. specialize (Hl1 Hm). specialize (Hl2 Hm).
      rewrite length_app. simpl. lia.
Qed.

(** X21.  The list that [scrape] returns.  Every record in it is that of a
    place page: its [url] field holds a URL that contains [/maps/place/].
    For a non-negative [max_results] the list holds at most [max_results]
    records for each search term. *)
Theorem scrape_bounded (all_results : list (record fo)) :
  scrape rt fo web br cfg = Some all_results ->
  (forall d, In d all_results ->
     exists url, field "url" d = Some (VStr url) /\
                 Py.contains url "/maps/place/" = true) /\
  ((0 <= max_results cfg)%Z ->
   length all_results <= length (search_terms cfg) * Z.to_nat (max_results cfg)).
Proof using Hrt.
  unfold scrape.
  destruct (scrape_terms_add (search_terms cfg) []) as (added & -> & Ha & Hl);
    [intros d [] |].
  intros E. injection E as <-. auto.
Qed.

End Scrape.

Lemma scrape_bounded_witness :
  lawful Samples.insertion_order /\
  scrape Samples.insertion_order Samples.no_scores (Samples.serving Samples.six_emails_page)
    Samples.third_fails (Samples.plain_config 5) =
  Some (map Samples.place_record
          ["https://www.google.com/maps/place/A"; "https://www.google.com/maps/place/B";
           "https://www.google.com/maps/place/D"; "https://www.google.com/maps/place/E"]) /\
  ((0 <= max_results (Samples.plain_config 5))%Z ->
   length (map Samples.place_record
             ["https://www.google.com/maps/place/A"; "https://www.google.com/maps/place/B";
              "https://www.google.com/maps/place/D"; "https://www.google.com/maps/place/E"]) <=
   length (search_terms (Samples.plain_config 5)) *
   Z.to_nat (max_results (Samples.plain_config 5))).
Proof.
  assert (H : lawful Samples.insertion_order) by (intros l _; apply Permutation_refl).
  assert (E : scrape Samples.insertion_order Samples.no_scores
                (Samples.serving Samples.six_emails_page) Samples.third_fails
                (Samples.plain_config 5) =
              Some (map Samples.place_record
                      ["https://www.google.com/maps/place/A";
                       "https://www.google.com/maps/place/B";
                       "https://www.google.com/maps/place/D";
                       "https://www.google.com/maps/place/E"]))
    by (vm_compute; reflexivity).
  split; [exact H |]. split; [exact E |].
  exact (proj2 (scrape_bounded Samples.insertion_order Samples.no_scores
                  (Samples.serving Samples.six_emails_page) Samples.third_fails
                  (Samples.plain_config 5) H _ E)).
Defined.

End ScrapeFacts.

(** ** google_maps_optimized.py: the place id of a URL *)

Module PlaceIdFacts.
Import Maps.

Lemma search_go_found (r : Re.re) (s : string) :
  forall prev f,
    Re.search_go r prev s = Some f ->
    exists before rest prev',
      s = before +:+ rest /\ Re.found_at r prev' rest = Some f.
Proof.
  induction s as [| a s IH]; intros prev f; cbn [Re.search_go].
  - destruct (Re.found_at r prev EmptyString) as [f0 |] eqn:E; [| discriminate].
    intros H. injection H as <-. exists EmptyString, EmptyString, prev. auto.
  - destruct (Re.found_at r prev (String a s)) as [f0 |] eqn:E.
    + intros H. injection H as <-. exists EmptyString, (String a s), prev. auto.
    + intros H. destruct (IH _ _ H) as (before & rest & prev' & -> & Hf).
      exists (String a before), rest, prev'. auto.
Qed.

(** A greedy repetition whose continuation accepts whatever is left. *)
Lemma rep_go_zero (c : Re.cls) (k0 : string -> Re.result) (s : string) :
  forall hi prev g,
    Re.rep_go c 0 hi prev s g (fun _ s' _ => Some (k0 s')) <> None.
Proof.
  induction s as [| a s IH]; intros hi prev g; cbn [Re.rep_go].
  - destruct hi; discriminate.
  - destruct hi as [| hi]; [discriminate |].
    destruct (c a); [| discriminate].
    specialize (IH hi (Some a) g). cbn [pred].
    destruct (Re.rep_go c 0 hi (Some a) s g (fun _ s' _ => Some (k0 s')));
      [discriminate | contradiction].
Qed.

Lemma rep_go_greedy (c : Re.cls) (k0 : string -> Re.result) (s : string) :
  forall lo hi prev g r,
    Re.rep_go c lo hi prev s g (fun _ s' _ => Some (k0 s')) = Some r ->
    exists pre post,
      s = pre +:+ post /\ forallb c (list_ascii_of_string pre) = true /\
      lo <= String.length pre /\ r = k0 post /\
      (String.length pre = hi \/ post = EmptyString \/
       exists a post', post = String a post' /\ c a = false).
Proof.
  induction s as [| a s IH]; intros lo hi prev g r; cbn [Re.rep_go].
  - intros H. assert (Hlo : lo = 0 /\ r = k0 EmptyString).
    { destruct lo; destruct hi; try discriminate; injection H as <-; auto. }
    destruct Hlo as [-> ->]. exists EmptyString, EmptyString.
    repeat split; auto.
  - destruct hi as [| hi].
    + destruct lo; [| discriminate]. intros H. injection H as <-.
      exists EmptyString, (String a s). repeat split; auto.
    + destruct (c a) eqn:Hc.
      * destruct (Re.rep_go c (pred lo) hi (Some a) s g (fun _ s' _ => Some (k0 s')))
          as [r' |] eqn:Hrec.
        -- intros H. injection H as <-.
           destruct (IH _ _ _ _ _ Hrec) as (pre & post & -> & Hall & Hlo & -> & Hg).
           exists (String a pre), post. split; [reflexivity |]. split.
           { cbn. now rewrite Hc. }
           split; [simpl; lia |]. split; [reflexivity |].
           destruct Hg as [Hg | Hg]; [left; simpl; lia | now right].
        -- destruct lo as [| lo]; [| discriminate].
           exfalso. exact (rep_go_zero c k0 s hi (Some a) g Hrec).
      * destruct lo; [| discriminate]. intros H. injection H as <-.
        exists EmptyString, (String a s). repeat split; auto.
        right. right. exists a, s. auto.
Qed.

Lemma rep_go_one_none (c : Re.cls) (k0 : string -> Re.result) (s : string)
    (prev : option ascii) (g : option string) :
  Re.rep_go c 1 (String.length s) prev s g (fun _ s' _ => Some (k0 s')) = None ->
  s = EmptyString \/ exists a s', s = String a s' /\ c a = false.
Proof.
  intros H. destruct s as [| a s]; [now left |].
  right. exists a, s. split; [reflexivity |].
  cbn [Re.rep_go String.length] in H. destruct (c a); [| reflexivity].
  cbn [pred] in H. exfalso.
  pose proof (rep_go_zero c k0 s (String.length s) (Some a) g) as Hz.
  destruct (Re.rep_go c 0 (String.length s) (Some a) s g (fun _ s' _ => Some (k0 s')));
    [discriminate | contradiction].
Qed.

Lemma startswith_bang (post : string) : Py.startswith (String "!" post) "!" = true.
Proof.
  unfold Py.startswith. cbn [String.prefix].
  destruct (ascii_dec "!" "!") as [_ | Hd]; [now destruct post | contradiction].
Qed.

Lemma length_append (pre post : string) :
  String.length (pre +:+ post) = String.length pre + String.length post.
Proof.
  induction pre as [| c pre IH]; [reflexivity |].
  change (String c pre +:+ post) with (String c (pre +:+ post)).
  cbn [String.length]. now rewrite IH.
Qed.

Lemma take_str_append (pre post : string) :
  Py.take_str (String.length (pre +:+ post) - String.length post) (pre +:+ post) = pre.
Proof.
  rewrite length_append.
  replace (String.length pre + String.length post - String.length post)
    with (String.length pre) by lia.
  induction pre as [| c pre IH]; [now destruct post |].
  change (String c pre +:+ post) with (String c (pre +:+ post)).
  cbn [String.length Py.take_str]. now rewrite IH.
Qed.

(** A match of [!1s([^!]+)] at the head of a string: the string starts with
    [!1s], group 1 is the run of characters other than [!] that follows,
    which is not empty, and the run ends at the end of the string or at
    a [!]. *)
Lemma found_at_place_id (prev : option ascii) (rest : string) (f : Re.found) :
  Re.found_at place_id_pattern prev rest = Some f ->
  exists id after,
    rest = "!1s" +:+ id +:+ after /\ Re.group1 f = Some id /\
    id <> EmptyString /\
    forallb (fun c => negb (Ascii.eqb c "!")) (list_ascii_of_string id) = true /\
    (after = EmptyString \/ Py.startswith after "!" = true).
Proof.
  unfold Re.found_at, Re.match_at, place_id_pattern.
  cbn [Re.run Re.lit Re.lit_with Re.chr Re.plus].
  destruct rest as [| a0 rest]; [discriminate |].
  destruct (Ascii.eqb "!" a0) eqn:E0; [| discriminate].
  destruct rest as [| a1 rest]; [discriminate |].
  destruct (Ascii.eqb "1" a1) eqn:E1; [| discriminate].
  destruct rest as [| a2 rest]; [discriminate |].
  destruct (Ascii.eqb "s" a2) eqn:E2; [| discriminate].
  apply Ascii.eqb_eq in E0, E1, E2. subst a0 a1 a2.
  destruct (Re.rep_go _ 1 (String.length rest) (Some "s"%char) rest None _)
    as [[s' g] |] eqn:Hrep; [| discriminate].
  apply (rep_go_greedy _
           (fun s' => (s', Some (Py.take_str (String.length rest - String.length s') rest))))
    in Hrep.
  destruct Hrep as (pre & post & -> & Hall & Hlo & Hr & Hg).
  injection Hr as -> ->. intros H. injection H as <-. cbn [Re.group1].
  exists pre, post. split; [reflexivity |]. split; [now rewrite take_str_append |].
  split; [intros ->; cbn in Hlo; lia |]. split; [exact Hall |].
  destruct Hg as [Hg | [Hg | (a & post' & -> & Hc)]]; [| now left |].
  - left. rewrite length_append in Hg. destruct post; [reflexivity |].
    cbn [String.length] in Hg. lia.
  - right. apply negb_false_iff, Ascii.eqb_eq in Hc. subst a. apply startswith_bang.
Qed.

(** X22.  The place id of a URL.  When [_extract_place_id] returns an id, the
    URL holds [!1s] followed by the id; the id is not empty, holds no [!],
    and runs to the end of the URL or to the next [!].  When it returns
    [None], every [!1s] in the URL is at its end or is followed by a
    [!]. *)
Theorem place_id_follows_marker (url : string) :
  match _extract_place_id url with
  | Some id =>
      id <> EmptyString /\ Py.contains id "!" = false /\
      exists before after,
        url = before +:+ "!1s" +:+ id +:+ after /\
        (after = EmptyString \/ Py.startswith after "!" = true)
  | None =>
      forall before after,
        url = before +:+ "!1s" +:+ after ->
        after = EmptyString \/ Py.startswith after "!" = true
  end.
Proof.
  unfold _extract_place_id, Re.search.
  destruct (Re.search_go place_id_pattern None url) as [m |] eqn:Hs.
  - destruct (search_go_found _ _ _ _ Hs) as (before & rest & prev' & -> & Hf).
    destruct (found_at_place_id _ _ _ Hf) as (id & after & -> & Hg & Hne & Hall & Hafter).
    unfold group_1. rewrite Hg. split; [exact Hne |]. split.
    + clear - Hall. induction id as [| c id IH]; [reflexivity |].
      cbn [list_ascii_of_string forallb] in Hall. apply andb_true_iff in Hall.
      destruct Hall as [Hc Hall]. cbn [Py.contains].
      rewrite (IH Hall), orb_false_r.
      apply negb_true_iff in Hc. cbn [String.prefix].
      destruct (ascii_dec "!" c) as [<- | Hd]; [| reflexivity].
      discriminate.
    + exists before, after. auto.
  - intros before after ->. revert Hs. generalize (@None ascii) as prev.
    induction before as [| c before IH]; intros prev.
    + change (EmptyString +:+ "!1s" +:+ after) with (String "!" (String "1" (String "s" after))).
      cbn [Re.search_go].
      destruct (Re.found_at place_id_pattern prev _) as [f |] eqn:Hf; [discriminate |].
      intros _. revert Hf. unfold Re.found_at, Re.match_at, place_id_pattern.
      cbn [Re.run Re.lit Re.lit_with Re.chr Re.plus].
      change (Ascii.eqb "!" "!") with true. change (Ascii.eqb "1" "1") with true.
      change (Ascii.eqb "s" "s") with true. cbn iota.
      destruct (Re.rep_go _ 1 (String.length after) (Some "s"%char) after None _)
        as [[s' g] |] eqn:Hrep; [discriminate |].
      intros _.
      apply (rep_go_one_none _
               (fun s' => (s', Some (Py.take_str (String.length after - String.length s')
                                       after)))) in Hrep.
      destruct Hrep as [-> | (a & s' & -> & Hc)]; [now left |].
      right. apply negb_false_iff, Ascii.eqb_eq in Hc. subst a. apply startswith_bang.
    + change (String c before +:+ "!1s" +:+ after)
        with (String c (before +:+ "!1s" +:+ after)).
      cbn [Re.search_go].
      destruct (Re.found_at place_id_pattern prev _); [discriminate |].
      apply IH.
Qed.

End PlaceIdFacts.

(** ** google_maps_optimized.py: images and reviews *)

Module MediaFacts.
Import Coll CollFacts Maps Panels BatchFacts ScoreFacts PhoneFacts ScrapeFacts PlaceIdFacts.

Lemma collect_images_kept (img_elements : list LinkAttr) :
  forall images,
    NoDup images ->
    NoDup (collect_images img_elements images) /\
    length (collect_images img_elements images) <= length images + length img_elements /\
    forall src, In src (collect_images img_elements images) ->
      In src images \/
      (Py.truthy src = true /\ In (AttrValue (Some src)) img_elements).
Proof.
  induction img_elements as [| [| [src |]] rest IH]; intros images Hnd;
    cbn [collect_images length].
  - split; [exact Hnd |]. split; [lia | auto].
  - split; [exact Hnd |]. split; [lia | auto].
  - destruct (Py.truthy src && negb (mem src images)) eqn:Hadd.
    + apply andb_true_iff in Hadd. destruct Hadd as [Ht Hm].
      apply negb_true_iff in Hm.
      assert (Hnd' : NoDup (images ++ [src])).
      { pose proof (NoDup_set_add src images Hnd) as H. unfold set_add in H.
        now rewrite Hm in H. }
      destruct (IH _ Hnd') as (H1 & H2 & H3). split; [exact H1 |].
      split; [rewrite length_app in H2; simpl in H2; lia |].
      intros s Hs. destruct (H3 s Hs) as [Hin | [Hts Hin]].
      * apply in_app_iff in Hin. destruct Hin as [Hin | [<- | []]]; [now left |].
        right. split; [exact Ht | now left].
      * right. split; [exact Hts | now right].
    + destruct (IH _ Hnd) as (H1 & H2 & H3). split; [exact H1 |]. split; [lia |].
      intros s Hs. destruct (H3 s Hs) as [Hin | [Hts Hin]]; [now left |].
      right. split; [exact Hts | now right].
  - destruct (IH _ Hnd) as (H1 & H2 & H3). split; [exact H1 |]. split; [lia |].
    intros s Hs. destruct (H3 s Hs) as [Hin | [Hts Hin]]; [now left |].
    right. split; [exact Hts | now right].
Qed.

(** X23.  [_extract_images] returns at most 10 sources, none of them twice and
    none of them empty, each the [src] of one of the first 10 images that
    the page lists. *)
Theorem images_distinct_capped (panel : PhotoPanel) :
  NoDup (_extract_images panel) /\
  length (_extract_images panel) <= 10 /\
  forall src, In src (_extract_images panel) ->
    Py.truthy src = true /\
    exists shown, img_elements panel = Some shown /\
                  In (AttrValue (Some src)) (take 10 shown).
Proof.
  unfold _extract_images.
  destruct (photos_button panel) as [| | []];
    try (split; [constructor | split; [simpl; lia | intros src []]]).
  destruct (img_elements panel) as [shown |];
    [| split; [constructor | split; [simpl; lia | intros src []]]].
  destruct (collect_images_kept (take 10 shown) [] ltac:(constructor)) as (H1 & H2 & H3).
  split; [exact H1 |]. split.
  - rewrite length_take in H2. cbn [length] in H2. lia.
  - intros src Hs. destruct (H3 src Hs) as [[] | [Ht Hin]].
    split; [exact Ht |]. exists shown. auto.
Qed.

Lemma collect_images_stops (pre post : list LinkAttr) :
  forall images,
    collect_images (pre ++ AttrRaises :: post) images = collect_images pre images.
Proof.
  induction pre as [| [| [src |]] pre IH]; intros images; cbn [app collect_images];
    try reflexivity; apply IH.
Qed.

(** X24.  A [get_attribute] that raises ends the collection and keeps what was
    collected: the images are those of the page that lists only the
    elements before the failing one. *)
Theorem images_kept_on_failure (panel : PhotoPanel) (pre post : list LinkAttr) :
  img_elements panel = Some (pre ++ AttrRaises :: post) ->
  length pre < 10 ->
  _extract_images panel =
  _extract_images {| photos_button := photos_button panel; img_elements := Some pre |}.
Proof.
  intros Himg Hlen. unfold _extract_images. cbn [photos_button img_elements].
  rewrite Himg. destruct (photos_button panel) as [| | []]; try reflexivity.
  rewrite take_app_ge by lia.
  replace (10 - length pre) with (S (9 - length pre)) by lia.
  cbn [take]. rewrite (collect_images_stops pre _).
  now rewrite take_ge by lia.
Qed.

Lemma images_kept_on_failure_witness :
  _extract_images Scenes.failing_photos =
  _extract_images
    {| photos_button := ButtonFound false;
       img_elements :=
         Some [ AttrValue (Some "https://lh3.googleusercontent.com/a");
                AttrValue (Some "https://lh3.googleusercontent.com/a");
                AttrValue None ] |}.
Proof.
  apply (images_kept_on_failure Scenes.failing_photos
           [ AttrValue (Some "https://lh3.googleusercontent.com/a");
             AttrValue (Some "https://lh3.googleusercontent.com/a");
             AttrValue None ]
           [ AttrValue (Some "https://lh3.googleusercontent.com/b") ]).
  - reflexivity.
  - simpl. lia.
Defined.

Example images_of_failing_photos :
  _extract_images Scenes.failing_photos = ["https://lh3.googleusercontent.com/a"].
Proof. reflexivity. Qed.

Section Reviews.
Variable fo : FloatOps.

Lemma one_digit_found (s : string) (m : Re.found) :
  Re.search one_digit_pattern s = Some m ->
  exists c, Py.is_digit c = true /\ group_1 m = String c EmptyString.
Proof.
  unfold Re.search. intros H.
  destruct (search_go_found _ _ _ _ H) as (before & rest & prev & _ & Hf).
  revert Hf. unfold Re.found_at, Re.match_at, one_digit_pattern. cbn [Re.run].
  destruct rest as [| c rest]; [discriminate |].
  destruct (Py.is_digit c) eqn:Hc; [| discriminate].
  intros E. injection E as <-. exists c. split; [exact Hc |].
  unfold group_1. cbn [Re.group1 String.length].
  replace (S (String.length rest) - String.length rest) with 1 by lia.
  reflexivity.
Qed.

Lemma py_int_digit (c : ascii) :
  Py.is_digit c = true ->
  exists n, py_int (String c EmptyString) = Some n /\ (0 <= n <= 9)%Z.
Proof.
  intros Hc. unfold py_int. cbn [Py.truthy String.eqb negb digits_value].
  rewrite Hc. eexists. split; [reflexivity |].
  unfold Py.is_digit in Hc. cbv zeta in Hc. apply andb_true_iff in Hc.
  destruct Hc as [H1 H2]. apply Nat.leb_le in H1, H2. lia.
Qed.

Lemma In_put (k : string) (v : value fo) (d : record fo) (k' : string) (v' : value fo) :
  In (k', v') (put k v d) -> (k' = k /\ v' = v) \/ In (k', v') d.
Proof.
  induction d as [| [k0 v0] d IH]; cbn [put].
  - intros [E | []]. injection E as <- <-. now left.
  - destruct (String.eqb k k0).
    + intros [E | H]; [injection E as <- <-; now left | right; now right].
    + intros [E | H]; [right; now left |].
      destruct (IH H) as [Hk | Hin]; [now left | right; now right].
Qed.

(** What holds of [review_data] all along: its keys are among the four,
    and its rating, when set, is a digit. *)
Lemma put_probe_kept (k : string) (p : Probe) (d d' : record fo) :
  In k ["reviewerName"; "rating"; "text"; "date"] ->
  String.eqb "rating" k = false ->
  ((forall k0 v0, In (k0, v0) d -> In k0 ["reviewerName"; "rating"; "text"; "date"]) /\
   (field "rating" d = None \/
    exists n, field "rating" d = Some (VInt n) /\ (0 <= n <= 9)%Z)) ->
  put_probe fo k p d = Ok d' ->
  (forall k0 v0, In (k0, v0) d' -> In k0 ["reviewerName"; "rating"; "text"; "date"]) /\
  (field "rating" d' = None \/
   exists n, field "rating" d' = Some (VInt n) /\ (0 <= n <= 9)%Z).
Proof.
  intros Hk Hne [Hkeys Hrating]. unfold put_probe.
  destruct p as [| | v]; [discriminate | intros E; injection E as <-; auto |].
  intros E. injection E as <-. split.
  - intros k0 v0 Hin. apply In_put in Hin.
    destruct Hin as [[-> _] | Hin]; [exact Hk | eapply Hkeys; exact Hin].
  - now rewrite field_put_other.
Qed.

Lemma put_rating_kept (p : Probe) (d d' : record fo) :
  ((forall k0 v0, In (k0, v0) d -> In k0 ["reviewerName"; "rating"; "text"; "date"]) /\
   (field "rating" d = None \/
    exists n, field "rating" d = Some (VInt n) /\ (0 <= n <= 9)%Z)) ->
  put_rating fo p d = Ok d' ->
  (forall k0 v0, In (k0, v0) d' -> In k0 ["reviewerName"; "rating"; "text"; "date"]) /\
  (field "rating" d' = None \/
   exists n, field "rating" d' = Some (VInt n) /\ (0 <= n <= 9)%Z).
Proof.
  intros [Hkeys Hrating]. unfold put_rating.
  destruct p as [| | [rating_text |]]; try discriminate;
    try (intros E; injection E as <-; auto).
  destruct (Py.truthy rating_text); [| intros E; injection E as <-; auto].
  destruct (Re.search one_digit_pattern rating_text) as [m |] eqn:Hm;
    [| intros E; injection E as <-; auto].
  destruct (one_digit_found _ _ Hm) as (c & Hc & ->).
  destruct (py_int_digit c Hc) as (n & -> & Hn).
  intros E. injection E as <-. split.
  - intros k0 v0 Hin. apply In_put in Hin.
    destruct Hin as [[-> _] | Hin]; [right; now left | eapply Hkeys; exact Hin].
  - right. exists n. split; [apply field_put_same | exact Hn].
Qed.

Lemma review_of_kept (elem : ReviewElem) (d : record fo) :
  review_of fo elem = Some d ->
  d <> [] /\
  (forall k0 v0, In (k0, v0) d -> In k0 ["reviewerName"; "rating"; "text"; "date"]) /\
  (field "rating" d = None \/
   exists n, field "rating" d = Some (VInt n) /\ (0 <= n <= 9)%Z).
Proof.
  unfold review_of.
  destruct (put_probe fo "reviewerName" (name_probe elem) []) as [d1 |] eqn:H1;
    [| discriminate].
  destruct (put_rating fo (rating_probe elem) d1) as [d2 |] eqn:H2; [| discriminate].
  destruct (put_probe fo "text" (text_probe elem) d2) as [d3 |] eqn:H3; [| discriminate].
  destruct (put_probe fo "date" (date_probe elem) d3) as [d4 |] eqn:H4; [| discriminate].
  assert (I4 : (forall k0 v0, In (k0, v0) d4 ->
                  In k0 ["reviewerName"; "rating"; "text"; "date"]) /\
               (field "rating" d4 = None \/
                exists n, field "rating" d4 = Some (VInt n) /\ (0 <= n <= 9)%Z)).
  { apply (put_probe_kept "date" (date_probe elem) d3 d4);
      [simpl; tauto | reflexivity | | exact H4].
    apply (put_probe_kept "text" (text_probe elem) d2 d3);
      [simpl; tauto | reflexivity | | exact H3].
    apply (put_rating_kept (rating_probe elem) d1 d2); [| exact H2].
    apply (put_probe_kept "reviewerName" (name_probe elem) [] d1);
      [simpl; tauto | reflexivity | | exact H1].
    split; [intros k0 v0 [] | now left]. }
  destruct d4 as [| kv d4]; [discriminate |].
  intros E. injection E as <-. split; [discriminate | exact I4].
Qed.

(** X25.  [_extract_reviews] returns, for a non-negative [max_reviews], at
    most [max_reviews] reviews.  No review is an empty dict; the keys of a
    review are among [reviewerName], [rating], [text] and [date]; and a
    rating is an integer from 0 to 9. *)
Theorem reviews_capped_nonempty (panel : ReviewPanel) (max_reviews : Z) :
  ((0 <= max_reviews)%Z ->
   length (_extract_reviews fo panel max_reviews) <= Z.to_nat max_reviews) /\
  forall d, In d (_extract_reviews fo panel max_reviews) ->
    d <> [] /\
    (forall k v, In (k, v) d -> In k ["reviewerName"; "rating"; "text"; "date"]) /\
    (forall v, field "rating" d = Some v -> exists n, v = VInt n /\ (0 <= n <= 9)%Z).
Proof.
  unfold _extract_reviews.
  destruct (reviews_button panel) as [| | []];
    try (split; [intros _; simpl; lia | intros d []]).
  destruct (panel_scroll_raises panel 0 || panel_scroll_raises panel 1);
    [split; [intros _; simpl; lia | intros d []] |].
  destruct (review_elements panel) as [elems |];
    [| split; [intros _; simpl; lia | intros d []]].
  split.
  - intros Hm. etransitivity; [apply length_omap_le |]. now apply length_slice_to.
  - intros d Hd. apply In_omap in Hd. destruct Hd as (elem & _ & Hrev).
    destruct (review_of_kept elem d Hrev) as (Hne & Hkeys & Hrating).
    split; [exact Hne |]. split; [exact Hkeys |].
    intros v Hv. destruct Hrating as [Hr | (n & Hr & Hn)]; [congruence |].
    exists n. split; [congruence | exact Hn].
Qed.

End Reviews.

Example reviews_of_three :
  _extract_reviews Samples.no_scores Scenes.three_reviews 10 =
  [[("reviewerName", VStr "Ada"); ("rating", VInt 5); ("text", VStr "Good coffee");
    ("date", VStr "a week ago")]].
Proof. vm_compute. reflexivity. Qed.

End MediaFacts.

(** ** scrapers/website.py *)

Module WebsiteFacts.
Import Coll CollFacts Enrich Website CrawlFacts AddressFacts.

Lemma result_put_other (k k' : string) (v : value) (d : record) :
  String.eqb k k' = false -> field k (put k' v d) = field k d.
Proof.
  intros Hne. induction d as [| [k0 v0] d IH]; simpl.
  - now rewrite Hne.
  - destruct (String.eqb k' k0) eqn:H0; simpl.
    + apply String.eqb_eq in H0. subst k0. now rewrite Hne.
    + destruct (String.eqb k k0); [reflexivity | exact IH].
Qed.

Section Scrape.
Variable rt : Runtime.
Variable fetch : list Request -> string -> Fetched.
Variable w : Web.
Variable scraped_at : string.
Variable print_enriched : EnrichmentData -> option string.
Variable print_warning : string -> option string.

(** The contact fields are added to the result; no other field changes. *)
Lemma add_contacts_other (enrichment_data : EnrichmentData) (result : record) (k : string) :
  String.eqb k "emails" = false -> String.eqb k "phones" = false ->
  String.eqb k "socialMedia" = false -> String.eqb k "contactPageUrl" = false ->
  String.eqb k "addresses" = false ->
  field k (add_contacts enrichment_data result) = field k result.
Proof.
  intros K1 K2 K3 K4 K5. unfold add_contacts.
  repeat match goal with
         | |- context [match ?x with _ => _ end] => destruct x
         end;
    repeat (rewrite result_put_other by assumption); reflexivity.
Qed.

(** The three ways a scrape can go, whatever [extractContacts] is: the
    URL is missing, the fetch or a selector fails, or the page dict is
    built, to which the contact fields are then added or not. *)
Lemma scrape_website_cases (u0 : option string) (sel : list (string * string))
    (log : list Request) :
  (exists u message,
     u0 = Some u /\ Py.truthy u = true /\
     forall extract,
       scrape_website rt fetch w scraped_at print_enriched print_warning
         {| url := u0; selectors := sel; extractContacts := extract |} log =
       (failed message u, log ++ [GET u])) \/
  (exists u doc result,
     u0 = Some u /\ Py.truthy u = true /\
     fetch log u = FetchOk doc /\
     field "error" result = None /\
     field "url" result = Some (VStr u) /\
     field "scrapedAt" result = Some (VStr scraped_at) /\
     field "text" result = Some (VStr (Py.take_str 5000 (doc_text doc))) /\
     field "links" result = Some (VList (take 50 (doc_links doc))) /\
     field "images" result = Some (VList (take 20 (doc_images doc))) /\
     field "emails" result = None /\ field "phones" result = None /\
     field "socialMedia" result = None /\ field "contactPageUrl" result = None /\
     field "addresses" result = None /\
     forall extract,
       scrape_website rt fetch w scraped_at print_enriched print_warning
         {| url := u0; selectors := sel; extractContacts := extract |} log =
       if extract then
         let enrichment_data :=
           fst (enrich_from_website rt w (Some u) true (log ++ [GET u])) in
         (match print_enriched enrichment_data with
          | None => add_contacts enrichment_data result
          | Some message =>
              match print_warning message with
              | None => add_contacts enrichment_data result
              | Some message => failed message u
              end
          end,
          snd (enrich_from_website rt w (Some u) true (log ++ [GET u])))
       else (result, log ++ [GET u])) \/
  ((u0 = None \/ u0 = Some EmptyString) /\
   forall extract,
     scrape_website rt fetch w scraped_at print_enriched print_warning
       {| url := u0; selectors := sel; extractContacts := extract |} log =
     ([("error", VStr "URL is required")], log)).
Proof.
  unfold scrape_website. cbn [url selectors extractContacts].
  destruct u0 as [u |]; [| right; right; auto].
  destruct (Py.truthy u) eqn:Hu; cbn [negb].
  2: { right. right. split; [| reflexivity]. right. f_equal.
       unfold Py.truthy in Hu. apply negb_false_iff, String.eqb_eq in Hu. exact Hu. }
  destruct (fetch log u) as [message | doc] eqn:Hf.
  { left. exists u, message. auto. }
  cbv zeta.
  destruct sel as [| s0 sel0].
  - right. left.
    match goal with
    | |- context [if _ then _ else (?r, _)] => exists u, doc, r
    end.
    repeat split; try reflexivity; try assumption.
    intros [|]; [| reflexivity].
    destruct (enrich_from_website rt w (Some u) true (log ++ [GET u])) as [data lg].
    cbv zeta. cbn [fst snd].
    destruct (print_enriched data) as [m1 |]; [| reflexivity].
    now destruct (print_warning m1).
  - destruct (custom_data doc (s0 :: sel0) []) as [message | table].
    + left. exists u, message. auto.
    + right. left.
      match goal with
      | |- context [if _ then _ else (?r, _)] => exists u, doc, r
      end.
      repeat split; try reflexivity; try assumption.
      intros [|]; [| reflexivity].
      destruct (enrich_from_website rt w (Some u) true (log ++ [GET u])) as [data lg].
      cbv zeta. cbn [fst snd].
      destruct (print_enriched data) as [m1 |]; [| reflexivity].
      now destruct (print_warning m1).
Qed.

(** X26.  Without a URL nothing is fetched.  For a missing or empty [url] the
    result is the dict [{'error': 'URL is required'}] and no request is
    made; for any other the first request made is the [GET] of the URL,
    and at most 13 requests follow it. *)
Theorem scrape_website_needs_url (input_data : Input) (log : list Request) :
  (url input_data = None \/ url input_data = Some EmptyString ->
   scrape_website rt fetch w scraped_at print_enriched print_warning input_data log =
   ([("error", VStr "URL is required")], log)) /\
  (forall u, url input_data = Some u -> u <> EmptyString ->
     exists reqs,
       snd (scrape_website rt fetch w scraped_at print_enriched print_warning input_data log) = log ++ GET u :: reqs /\
       length reqs <= 13).
Proof.
  destruct input_data as [u0 sel extract]. cbn [url].
  destruct (scrape_website_cases u0 sel log)
    as [(u & message & Hu & Ht & H) |
        [(u & doc & result & Hu & Ht & _ & _ & _ & _ & _ & _ & _ & _ & _ & _ & _ & _ & H) |
         (Hu & H)]];
    rewrite H.
  - split; [intros [E | E]; rewrite E in Hu; [discriminate | injection Hu as <-; discriminate Ht] |].
    intros u' E Hne. rewrite Hu in E. injection E as <-. exists []. cbn [snd].
    split; [reflexivity | simpl; lia].
  - split; [intros [E | E]; rewrite E in Hu; [discriminate | injection Hu as <-; discriminate Ht] |].
    intros u' E Hne. rewrite Hu in E. injection E as <-.
    destruct extract; cbv zeta; cbn [snd]; [| exists []; split; [reflexivity | simpl; lia]].
    destruct (enrich_requests rt w (Some u) true (log ++ [GET u]))
      as (reqs & Hlog & Hlen & _).
    exists reqs. rewrite Hlog, <- app_assoc. split; [reflexivity | exact Hlen].
  - split; [reflexivity |]. intros u E Hne. destruct Hu as [-> | ->]; congruence.
Qed.

(** X27.  What [scrape_website] returns is an error dict or a page dict.  An
    error dict has the key [error], with [url] beside it or alone; a page
    dict has no [error], names the URL asked for, and holds at most 5000
    characters of text, 50 links and 20 images. *)
Theorem scrape_website_shape (input_data : Input) (log : list Request) :
  let result := fst (scrape_website rt fetch w scraped_at print_enriched print_warning input_data log) in
  match field "error" result with
  | Some _ => forall k v, In (k, v) result -> k = "error" \/ k = "url"
  | None =>
      exists u text links images,
        url input_data = Some u /\
        field "url" result = Some (VStr u) /\
        field "scrapedAt" result = Some (VStr scraped_at) /\
        field "text" result = Some (VStr text) /\ String.length text <= 5000 /\
        field "links" result = Some (VList links) /\ length links <= 50 /\
        field "images" result = Some (VList images) /\ length images <= 20
  end.
Proof.
  cbv zeta. destruct input_data as [u0 sel extract]. cbn [url].
  destruct (scrape_website_cases u0 sel log)
    as [(u & message & Hu & Ht & ->) |
        [(u & doc & result & Hu & Ht & Hf & He & H1 & H2 & H3 & H4 & H5 & _ & _ & _ & _ & _ & ->) |
         (_ & ->)]].
  - cbn. intros k v [E | [E | []]]; injection E as <- _; auto.
  - assert (Hshape : forall r : record,
               (forall k, String.eqb k "emails" = false -> String.eqb k "phones" = false ->
                          String.eqb k "socialMedia" = false ->
                          String.eqb k "contactPageUrl" = false ->
                          String.eqb k "addresses" = false -> field k r = field k result) ->
               match field "error" r with
               | Some _ => forall k v, In (k, v) r -> k = "error" \/ k = "url"
               | None =>
                   exists u text links images,
                     u0 = Some u /\
                     field "url" r = Some (VStr u) /\
                     field "scrapedAt" r = Some (VStr scraped_at) /\
                     field "text" r = Some (VStr text) /\ String.length text <= 5000 /\
                     field "links" r = Some (VList links) /\ length links <= 50 /\
                     field "images" r = Some (VList images) /\ length images <= 20
               end).
    { intros r Hr. rewrite (Hr "error"), He by reflexivity.
      exists u, (Py.take_str 5000 (doc_text doc)), (take 50 (doc_links doc)),
        (take 20 (doc_images doc)).
      rewrite (Hr "url"), (Hr "scrapedAt"), (Hr "text"), (Hr "links"), (Hr "images")
        by reflexivity.
      repeat split; try assumption.
      - apply take_str_length.
      - rewrite length_take. lia.
      - rewrite length_take. lia. }
    assert (Hfailed : forall message,
               match field "error" (failed message u) with
               | Some _ =>
                   forall k v, In (k, v) (failed message u) -> k = "error" \/ k = "url"
               | None =>
                   exists u text links images,
                     u0 = Some u /\
                     field "url" (failed message u) = Some (VStr u) /\
                     field "scrapedAt" (failed message u) = Some (VStr scraped_at) /\
                     field "text" (failed message u) = Some (VStr text) /\
                     String.length text <= 5000 /\
                     field "links" (failed message u) = Some (VList links) /\
                     length links <= 50 /\
                     field "images" (failed message u) = Some (VList images) /\
                     length images <= 20
               end).
    { intros message. cbn. intros k v [E | [E | []]]; injection E as <- _; auto. }
    destruct extract; cbv zeta; cbn [fst]; [| now apply Hshape].
    destruct (print_enriched _) as [m1 |]; [destruct (print_warning m1) as [m2 |] |];
      try apply Hfailed;
      apply Hshape; intros k K1 K2 K3 K4 K5; now apply add_contacts_other.
  - cbn. intros k v [E | []]. injection E as <- _. auto.
Qed.


End Scrape.

Example scrape_of_home :
  Website.scrape_website Samples.insertion_order
    (fun _ _ => FetchOk Scenes.home_document) Scenes.unreachable "2024-01-01T00:00:00Z"
    (fun _ => None) (fun _ => None)
    {| url := Some "https://acme.io"; selectors := [("heading", "h1")];
       extractContacts := true |} [] =
  ([("url", VStr "https://acme.io"); ("title", VStr "Acme");
    ("scrapedAt", VStr "2024-01-01T00:00:00Z");
    ("text", VStr "Acme Call 555-123-4567 today");
    ("links", VList ["/team"; "https://acme.io/shop"]);
    ("images", VList ["/logo.png"]);
    ("customData", VTable [("heading", ["Acme"])])],
   [GET "https://acme.io"; GET "https://acme.io"; HEAD "https://acme.io/contact";
    HEAD "https://acme.io/contact-us"; HEAD "https://acme.io/contactus";
    HEAD "https://acme.io/about"; HEAD "https://acme.io/about-us";
    HEAD "https://acme.io/aboutus"; HEAD "https://acme.io/get-in-touch";
    HEAD "https://acme.io/reach-us"; HEAD "https://acme.io/support";
    HEAD "https://acme.io/help"; GET "https://acme.io"]).
Proof. vm_compute. reflexivity. Qed.

(** The same scrape on a standard output that takes neither [print]: the
    page dict is lost. *)
Example scrape_of_home_unprintable :
  fst (Website.scrape_website Samples.insertion_order
         (fun _ _ => FetchOk Scenes.home_document) Scenes.unreachable
         "2024-01-01T00:00:00Z"
         (fun _ => Some "'ascii' codec can't encode character")
         (fun _ => Some "'ascii' codec can't encode characters")
         {| url := Some "https://acme.io"; selectors := [("heading", "h1")];
            extractContacts := true |} []) =
  [("error", VStr "Scraping failed: 'ascii' codec can't encode characters");
   ("url", VStr "https://acme.io")].
Proof. vm_compute. reflexivity. Qed.

End WebsiteFacts.

(** ** google_maps_optimized.py: the windows of a batch extraction *)

Module WindowFacts.
Import Maps BatchFacts.

Lemma windows_concat {A} (places : list A) (n : nat) :
  forall a,
    concat (map (fun i => take batch_size (drop i places))
              (map (fun k => k * batch_size) (seq a n))) =
    take (n * batch_size) (drop (a * batch_size) places).
Proof.
  induction n as [| n IH]; intros a; [reflexivity |].
  cbn [seq map concat]. rewrite IH.
  replace (S a * batch_size) with (a * batch_size + batch_size) by lia.
  rewrite <- drop_drop. apply take_take_drop.
Qed.

(** X29.  The windows of [scrape] partition the places to process: the batches
    [places_to_process[i:i+batch_size]], taken in order, make up the list
    again, and each holds at least one place and at most 15. *)
Theorem windows_partition {A} (places_to_process : list A) :
  let batches :=
    map (fun i => take batch_size (drop i places_to_process))
      (py_range (length places_to_process) batch_size) in
  concat batches = places_to_process /\
  Forall (fun batch => 1 <= length batch <= batch_size) batches.
Proof.
  cbv zeta. unfold py_range. split.
  - rewrite windows_concat. simpl drop. apply take_ge, windows_cover.
  - apply List.Forall_forall. intros batch Hb.
    apply in_map_iff in Hb. destruct Hb as (i & <- & Hi).
    apply in_map_iff in Hi. destruct Hi as (k & <- & Hk).
    apply in_seq in Hk. rewrite length_take, length_drop.
    unfold batch_size in *.
    pose proof (Nat.div_mod_eq (length places_to_process + 15 - 1) 15) as Hd.
    pose proof (Nat.mod_upper_bound (length places_to_process + 15 - 1) 15) as Hm.
    lia.
Qed.

End WindowFacts.

(** ** website_enrichment.py: where the contacts of a result come from *)

Module ProvenanceFacts.
Import Coll CollFacts Enrich EmailFacts CapFacts PhoneFacts CrawlFacts ResultFacts.

Section Provenance.
Variable rt : Runtime.
Variable w : Web.
Hypothesis Hrt : lawful rt.

(** What a page dict holds was extracted from the page that the [GET] of
    its URL returned with status 200. *)
Lemma page_data_from (u : string) (lg : list Request) :
  let data := fst (_extract_from_page rt w u lg) in
  forall x,
    (In x (pd_emails data) ->
     exists page, http_get w lg u = GetStatus 200 page /\ In x (_extract_emails rt page)) /\
    (In x (pd_phones data) ->
     exists page, http_get w lg u = GetStatus 200 page /\ In x (_extract_phones rt page)) /\
    (In x (pd_addresses data) ->
     exists page, http_get w lg u = GetStatus 200 page /\
                  In x (_extract_addresses rt page)).
Proof.
  cbv zeta. intros x. unfold _extract_from_page, bind, get, ret. cbn [fst].
  destruct (http_get w lg u) as [| status page]; [repeat split; intros [] |].
  destruct (status =? 200)%nat eqn:Hs; [| repeat split; intros []].
  apply Nat.eqb_eq in Hs. subst status. unfold extract_page_data.
  destruct (_extract_social_media rt page u);
    cbn [pd_emails pd_phones pd_addresses]; repeat split; intros Hin;
    try (exists page; auto); destruct Hin.
Qed.

(** X30.  Nothing in a result is made up.  Every e-mail address, phone number
    and address of a result was extracted from a page that answered 200:
    the page at the URL given, or the page at the contact page URL that the
    result names. *)
Theorem contacts_come_from_pages (website_url : option string)
    (check_contact_page : bool) (log : list Request) :
  let r := fst (enrich_from_website rt w website_url check_contact_page log) in
  forall x,
    (In x (emails r) ->
     exists u lg page,
       (website_url = Some u \/ contactPageUrl r = Some u) /\
       http_get w lg u = GetStatus 200 page /\ In x (_extract_emails rt page)) /\
    (In x (phones r) ->
     exists u lg page,
       (website_url = Some u \/ contactPageUrl r = Some u) /\
       http_get w lg u = GetStatus 200 page /\ In x (_extract_phones rt page)) /\
    (In x (addresses r) ->
     exists u lg page,
       (website_url = Some u \/ contactPageUrl r = Some u) /\
       http_get w lg u = GetStatus 200 page /\ In x (_extract_addresses rt page)).
Proof using Hrt.
  cbv zeta. intros x.
  destruct website_url as [url |].
  2: { rewrite enrich_no_url by discriminate. cbn. repeat split; intros []. }
  destruct (Py.truthy url) eqn:Ht.
  2: { rewrite enrich_no_url by (intros u0 Hu0; congruence). cbn.
       repeat split; intros []. }
  rewrite (enrich_unfold rt w url check_contact_page log Ht). cbv zeta.
  pose proof (page_data_from url log x) as (Me & Mp & Ma). cbv zeta in Me, Mp, Ma.
  set (main := fst (_extract_from_page rt w url log)) in *.
  assert (Hmain : forall r : EnrichmentData,
             (In x (emails r) -> In x (pd_emails main)) ->
             (In x (phones r) -> In x (pd_phones main)) ->
             (In x (addresses r) -> In x (pd_addresses main)) ->
             (In x (emails r) ->
              exists u lg page,
                (Some url = Some u \/ contactPageUrl r = Some u) /\
                http_get w lg u = GetStatus 200 page /\ In x (_extract_emails rt page)) /\
             (In x (phones r) ->
              exists u lg page,
                (Some url = Some u \/ contactPageUrl r = Some u) /\
                http_get w lg u = GetStatus 200 page /\ In x (_extract_phones rt page)) /\
             (In x (addresses r) ->
              exists u lg page,
                (Some url = Some u \/ contactPageUrl r = Some u) /\
                http_get w lg u = GetStatus 200 page /\
                In x (_extract_addresses rt page))).
  { intros r He Hp Ha. repeat split; intros Hin.
    - destruct (Me (He Hin)) as (page & Hg & Hx). exists url, log, page. auto.
    - destruct (Mp (Hp Hin)) as (page & Hg & Hx). exists url, log, page. auto.
    - destruct (Ma (Ha Hin)) as (page & Hg & Hx). exists url, log, page. auto. }
  assert (Hfin : (In x (emails (finalize rt (_merge_data empty_enrichment main))) ->
                  In x (pd_emails main)) /\
                 (In x (phones (finalize rt (_merge_data empty_enrichment main))) ->
                  In x (pd_phones main)) /\
                 (In x (addresses (finalize rt (_merge_data empty_enrichment main))) ->
                  In x (pd_addresses main))).
  { cbn [finalize _merge_data emails phones addresses empty_enrichment app].
    repeat split; intros Hin; exact (dedup_cap_In rt Hrt _ _ _ Hin). }
  destruct Hfin as (Fe & Fp & Fa).
  destruct check_contact_page; [| cbn [fst]; now apply Hmain].
  destruct (_find_contact_page rt w url (log ++ [GET url])) as [[[cu |] |] log2];
    [| cbn [fst]; now apply Hmain | cbn [fst]; apply Hmain; auto].
  destruct (Py.truthy cu); [| cbn [fst]; now apply Hmain].
  cbn [fst].
  pose proof (page_data_from cu log2 x) as (Ce & Cp & Ca). cbv zeta in Ce, Cp, Ca.
  cbn [finalize _merge_data with_contact_page emails phones addresses contactPageUrl
         empty_enrichment app].
  repeat split; intros Hin; apply (dedup_cap_In rt Hrt) in Hin;
    apply in_app_iff in Hin; destruct Hin as [Hin | Hin].
  - destruct (Me Hin) as (page & Hg & Hx). exists url, log, page. auto.
  - destruct (Ce Hin) as (page & Hg & Hx). exists cu, log2, page. auto.
  - destruct (Mp Hin) as (page & Hg & Hx). exists url, log, page. auto.
  - destruct (Cp Hin) as (page & Hg & Hx). exists cu, log2, page. auto.
  - destruct (Ma Hin) as (page & Hg & Hx). exists url, log, page. auto.
  - destruct (Ca Hin) as (page & Hg & Hx). exists cu, log2, page. auto.
Qed.

End Provenance.

Lemma contacts_come_from_pages_witness :
  lawful Samples.insertion_order /\
  exists u lg page,
    (Some "https://acme.io" = Some u \/
     contactPageUrl
       (fst (enrich_from_website Samples.insertion_order
               (Samples.serving Samples.six_emails_page)
               (Some "https://acme.io") false [])) = Some u) /\
    http_get (Samples.serving Samples.six_emails_page) lg u =
    GetStatus 200 page /\
    In "a1@acme.io" (_extract_emails Samples.insertion_order page).
Proof.
  assert (H : lawful Samples.insertion_order) by (intros l _; apply Permutation_refl).
  split; [exact H |].
  apply (proj1 (contacts_come_from_pages Samples.insertion_order
                  (Samples.serving Samples.six_emails_page) H
                  (Some "https://acme.io") false [] "a1@acme.io")).
  vm_compute. now left.
Defined.

End ProvenanceFacts.
